(** * blade: an Android build orchestrator (build.go)

    A shallow embedding of [build.go] and a verification of its behaviour.

    The program is a straight-line pipeline around operating-system calls
    and child processes.  The embedding keeps the program text (the
    functions of build.go, under their own names) apart from the
    environment it runs in:

    - the Go library calls the program makes ([strings.Split],
      [regexp.ReplaceAllString], [filepath.Abs], [filepath.Walk],
      [os.Stat], [os.Remove], [exec.Cmd.Run], ...) are modelled once, in
      the first half of the file, over a file-system tree;
    - every system call is logged in a trace and may fail for a reason of
      the environment (an arbitrary [fault] oracle), so that each error
      branch of the program can be reached;
    - child processes are an arbitrary [tools] oracle that maps the
      argument vector and the file system to an exit status and a new
      file system. *)

From Stdlib Require Import List String Ascii Bool Arith NArith Lia.
From Stdlib Require Import Permutation Sorted.
From Stdlib Require Import DecimalString.
Import ListNotations.
Open Scope list_scope.
Open Scope string_scope.

(* ================================================================= *)
(** ** Go values *)

(** A Go [error] value: [None] is [nil], [Some msg] is an error whose
    [Error()] text is [msg]. *)
Definition error := option string.

(** A Go [(T, error)] result pair in which the value is only meaningful
    when the error is nil. *)
Inductive result (A : Type) : Type :=
| Ok (a : A)
| Err (e : string).
Arguments Ok {A} a.
Arguments Err {A} e.

(** [%v] of an [int]. *)
Definition itoa (n : nat) : string := NilZero.string_of_uint (Nat.to_uint n).

(* ================================================================= *)
(** ** package strings *)

Module strings.

(** [strings.Split(s, sep)] for a one-byte separator: the substrings
    between the separators, [n+1] of them for [n] separators. *)
Fixpoint Split (sep : ascii) (s : string) : list string :=
  match s with
  | EmptyString => [""]
  | String c r =>
      if Ascii.eqb c sep then "" :: Split sep r
      else match Split sep r with
           | h :: t => String c h :: t
           | [] => [String c ""]
           end
  end.

(** [strings.Join(elems, sep)]. *)
Definition Join (elems : list string) (sep : string) : string :=
  String.concat sep elems.

(** [strings.HasPrefix(s, prefix)]. *)
Fixpoint HasPrefix (s pre : string) {struct pre} : bool :=
  match pre with
  | EmptyString => true
  | String c pre' =>
      match s with
      | EmptyString => false
      | String c' s' => Ascii.eqb c c' && HasPrefix s' pre'
      end
  end.

(** [strings.HasSuffix(s, suffix)]. *)
Fixpoint HasSuffix (s suf : string) : bool :=
  String.eqb s suf ||
  match s with
  | EmptyString => false
  | String _ r => HasSuffix r suf
  end.

(** [strings.Contains(s, substr)]. *)
Fixpoint Contains (s sub : string) : bool :=
  HasPrefix s sub ||
  match s with
  | EmptyString => false
  | String _ r => Contains r sub
  end.

End strings.

(* ================================================================= *)
(** ** package regexp: the two patterns of build.go *)

Module regexp.

(** The class [\s] of Go's RE2 syntax: tab, newline, form feed,
    carriage return and space. *)
Definition isSpace (c : ascii) : bool :=
  let n := nat_of_ascii c in
  Nat.eqb n 9 || Nat.eqb n 10 || Nat.eqb n 12 || Nat.eqb n 13 || Nat.eqb n 32.

(** [regexp.MustCompile(`\s+`).ReplaceAllString(s, " ")]: the matches
    of [\s+] are found left to right, each one leftmost and greedy, so
    a match starts at a white-space byte that does not continue an
    earlier match and runs to the next byte that is not white space.
    [in_run] tells that the previous byte belonged to the current
    match. *)
Fixpoint replace_spaces (in_run : bool) (s : string) : string :=
  match s with
  | EmptyString => ""
  | String c r =>
      if isSpace c
      then if in_run then replace_spaces true r
           else String " " (replace_spaces true r)
      else String c (replace_spaces false r)
  end.

Definition spaces_ReplaceAllString (src : string) : string :=
  replace_spaces false src.

(** The pattern [.*\.java$] tried at the start of [s]: [.*] takes some
    bytes other than newline, and the rest of the text is [.java]. *)
Fixpoint java_match_here (s : string) : bool :=
  String.eqb s ".java" ||
  match s with
  | EmptyString => false
  | String c r => negb (Ascii.eqb c "010"%char) && java_match_here r
  end.

(** [regexp.MustCompile(`.*\.java$`).MatchString(s)]: the pattern is
    not anchored at the start, so it is tried at every position. *)
Fixpoint javaFilename_MatchString (s : string) : bool :=
  java_match_here s ||
  match s with
  | EmptyString => false
  | String _ r => javaFilename_MatchString r
  end.

End regexp.

(* ================================================================= *)
(** ** package path/filepath (Unix): lexical path functions *)

Module filepath.

Definition IsAbs (p : string) : bool := strings.HasPrefix p "/".

(** The elements of a path after the rules of [Clean]: empty and [.]
    elements are dropped, an inner [..] removes the element before it,
    and a [..] at the start of a rooted path is dropped.  [stack] holds
    the elements kept so far, last one first. *)
Fixpoint clean_elems (rooted : bool) (stack : list string)
         (elems : list string) : list string :=
  match elems with
  | [] => rev stack
  | c :: rest =>
      if String.eqb c "" then clean_elems rooted stack rest
      else if String.eqb c "." then clean_elems rooted stack rest
      else if String.eqb c ".." then
        match stack with
        | top :: below =>
            if String.eqb top ".."
            then clean_elems rooted (".." :: stack) rest
            else clean_elems rooted below rest
        | [] =>
            if rooted then clean_elems rooted [] rest
            else clean_elems rooted [".."] rest
        end
      else clean_elems rooted (c :: stack) rest
  end.

(** [filepath.Clean(path)]. *)
Definition Clean (p : string) : string :=
  let rooted := IsAbs p in
  let elems := clean_elems rooted [] (strings.Split "/" p) in
  if rooted then "/" ++ strings.Join elems "/"
  else match elems with
       | [] => "."
       | _ => strings.Join elems "/"
       end.

(** [filepath.Join(a, b)]: empty elements are ignored, the rest is
    joined with a slash and cleaned. *)
Definition Join (a b : string) : string :=
  if String.eqb a "" then (if String.eqb b "" then "" else Clean b)
  else if String.eqb b "" then Clean a
  else Clean (a ++ "/" ++ b).

(** The last element of a path, as [os.FileInfo.Name] reports it for
    the path given to [os.Stat] and [os.Lstat]. *)
Definition basename (p : string) : string :=
  match rev (filter (fun c => negb (String.eqb c "")) (strings.Split "/" p)) with
  | h :: _ => h
  | [] => if String.eqb p "" then "" else "/"
  end.

End filepath.

(* ================================================================= *)
(** ** The file system *)

(** A file-system entry is a directory, with its entries in the order in
    which the directory is read, or anything else (a regular file).
    There are no symbolic links, so a path can be resolved lexically. *)
#[local] Unset Elimination Schemes.
Inductive node : Type :=
| File : node
| Dir : list (string * node) -> node.
#[local] Set Elimination Schemes.

(** Induction on a tree: a property of the entries of a directory may
    be assumed for the directory. *)
Fixpoint node_ind (P : node -> Prop) (HFile : P File)
         (HDir : forall es, Forall (fun e => P (snd e)) es -> P (Dir es))
         (n : node) : P n :=
  match n with
  | File => HFile
  | Dir es =>
      HDir es
        ((fix all (l : list (string * node)) : Forall (fun e => P (snd e)) l :=
            match l with
            | [] => Forall_nil _
            | e :: rest => Forall_cons e (node_ind P HFile HDir (snd e)) (all rest)
            end) es)
  end.

Module tree.

Definition is_dir (n : node) : bool :=
  match n with
  | Dir _ => true
  | File => false
  end.

Fixpoint find_entry (name : string) (es : list (string * node)) : option node :=
  match es with
  | [] => None
  | (k, v) :: rest => if String.eqb k name then Some v else find_entry name rest
  end.

(** The entry reached from [n] along the elements of a path. *)
Fixpoint lookup (elems : list string) (n : node) : option node :=
  match elems with
  | [] => Some n
  | c :: rest =>
      match n with
      | Dir es =>
          match find_entry c es with
          | Some child => lookup rest child
          | None => None
          end
      | File => None
      end
  end.

(** Delete the entry called [name]. *)
Definition remove_entry (name : string) (es : list (string * node))
  : list (string * node) :=
  filter (fun e => negb (String.eqb (fst e) name)) es.

(** Replace the entry called [name], or add it at the end of the
    listing. *)
Fixpoint put_entry (name : string) (new : node)
         (es : list (string * node)) : list (string * node) :=
  match es with
  | [] => [(name, new)]
  | (k, v) :: rest =>
      if String.eqb k name then (k, new) :: rest
      else (k, v) :: put_entry name new rest
  end.

Definition set_entry (name : string) (new : option node)
           (es : list (string * node)) : list (string * node) :=
  match new with
  | Some n => put_entry name n es
  | None => remove_entry name es
  end.

(** Set ([Some]) or delete ([None]) the entry at a path whose parent
    is an existing directory; [None] when there is no such parent (or
    the path is the root). *)
Fixpoint alter (elems : list string) (new : option node) (n : node)
  : option node :=
  match elems, n with
  | [], _ => None
  | _, File => None
  | [c], Dir es => Some (Dir (set_entry c new es))
  | c :: rest, Dir es =>
      match find_entry c es with
      | Some child =>
          match alter rest new child with
          | Some child' => Some (Dir (put_entry c child' es))
          | None => None
          end
      | None => None
      end
  end.

(** The elements of [p], taken from the root: a relative path is
    resolved against the working directory. *)
Definition elems (cwd p : string) : list string :=
  filepath.clean_elems true []
    (strings.Split "/" (if filepath.IsAbs p then p else cwd ++ "/" ++ p)).

(** The entry at path [p]; the empty path names nothing. *)
Definition resolve (cwd p : string) (root : node) : option node :=
  if String.eqb p "" then None else lookup (elems cwd p) root.

Definition exists_ (cwd p : string) (root : node) : bool :=
  match resolve cwd p root with
  | Some _ => true
  | None => false
  end.

End tree.

(* ================================================================= *)
(** ** The world: file system, process state and environment *)

(** The system calls the program makes, directly or through the Go
    library. *)
Inductive syscall : Type :=
| SysGetwd
| SysStat (p : string)
| SysLstat (p : string)
| SysOpen (p : string)
| SysReaddir (p : string)
| SysMkdir (p : string)
| SysRemove (p : string)
| SysRemoveAll (p : string)
| SysExec (argv : list string).

(** How a child process ended: it ran and exited with a status, or it
    could not be started at all. *)
Inductive exit_state : Type :=
| Exited (status : nat)
| NotStarted (why : string).

(** A call with the error it returned ([None]: it succeeded). *)
Definition event : Type := syscall * error.

Record World : Type := mkWorld {
  disk : node;
  cwd : string;
  environ : list (string * string);
  (** The calls made so far, oldest first. *)
  trace : list event;
  stdout : list string;
  stderr : list string;
  (** A failure of the environment (permissions, I/O errors, ...) for
      the next call, given the calls made so far. *)
  fault : list event -> syscall -> option string;
  (** The external tools: what a child process started with this
      argument vector, in this working directory and on this file
      system, does. *)
  tools : list string -> string -> node -> exit_state * node
}.

Definition log (e : event) (w : World) : World :=
  mkWorld (disk w) (cwd w) (environ w) (trace w ++ [e])%list
          (stdout w) (stderr w) (fault w) (tools w).

Definition set_disk (d : node) (w : World) : World :=
  mkWorld d (cwd w) (environ w) (trace w)
          (stdout w) (stderr w) (fault w) (tools w).

Definition error_of {A} (r : result A) : error :=
  match r with
  | Ok _ => None
  | Err e => Some e
  end.

Definition IO (A : Type) : Type := World -> A * World.

Definition ret {A} (a : A) : IO A := fun w => (a, w).

Definition bind {A B} (c : IO A) (k : A -> IO B) : IO B :=
  fun w => let (a, w') := c w in k a w'.

Declare Scope io_scope.
Delimit Scope io_scope with io.
Notation "x <- c ;; k" := (bind c (fun x => k))
  (at level 100, c at next level, right associativity) : io_scope.
Notation "' p <- c ;; k" := (bind c (fun p => k))
  (at level 100, p pattern, c at next level, right associativity) : io_scope.
Notation "c ;; k" := (bind c (fun _ => k))
  (at level 100, right associativity) : io_scope.
Open Scope io_scope.

(** [fmt.Println] and [fmt.Fprintf(os.Stderr, ...)] of the program
    itself (the children write to the same streams; their output is not
    part of the model). *)
Definition Println (s : string) : IO unit :=
  fun w => (tt, mkWorld (disk w) (cwd w) (environ w) (trace w)
                        (stdout w ++ [s])%list (stderr w) (fault w) (tools w)).

Definition Eprint (s : string) : IO unit :=
  fun w => (tt, mkWorld (disk w) (cwd w) (environ w) (trace w)
                        (stdout w) (stderr w ++ [s])%list (fault w) (tools w)).

(** The text Go prints for a failed call: operation, path, cause. *)
Definition describe (c : syscall) : string :=
  match c with
  | SysGetwd => "getwd"
  | SysStat p => "stat " ++ p
  | SysLstat p => "lstat " ++ p
  | SysOpen p => "open " ++ p
  | SysReaddir p => "readdirent " ++ p
  | SysMkdir p => "mkdir " ++ p
  | SysRemove p => "remove " ++ p
  | SysRemoveAll p => "unlinkat " ++ p
  | SysExec argv => "fork/exec " ++ hd "" argv
  end.

(** One system call: it fails when the environment says so, and
    otherwise has its effect [natural] on the file system; the call and
    its error are logged. *)
Definition sys {A} (c : syscall) (natural : World -> result A * node)
  : IO (result A) :=
  fun w =>
    match fault w (trace w) c with
    | Some e =>
        let msg := describe c ++ ": " ++ e in
        (Err msg, log (c, Some msg) w)
    | None =>
        let (r, d) := natural w in
        (r, set_disk d (log (c, error_of r) w))
    end.

(** A call that only reads: [value] is what it finds. *)
Definition sys_read {A} (c : syscall) (value : World -> result A)
  : IO (result A) :=
  sys c (fun w => (value w, disk w)).

Definition ENOENT := "no such file or directory".
Definition ENOTDIR := "not a directory".
Definition EEXIST := "file exists".
Definition ENOTEMPTY := "directory not empty".
Definition EBUSY := "device or resource busy".

(* ================================================================= *)
(** ** package os *)

Record FileInfo : Type := mkFileInfo {
  Name : string;
  IsDir : bool
}.

(** What a directory tells of one of its entries. *)
Definition info_of_entry (e : string * node) : FileInfo :=
  mkFileInfo (fst e) (tree.is_dir (snd e)).

(** An open file: the name it was opened with and where it is. *)
Record file : Type := mkFile {
  file_Name : string;
  file_elems : list string
}.

Module os.

Definition Getwd : IO (result string) :=
  sys_read SysGetwd (fun w => Ok (cwd w)).

Definition LookupEnv (key : string) : IO (option string) :=
  fun w =>
    (option_map snd (find (fun kv => String.eqb (fst kv) key) (environ w)), w).

Definition Getenv (key : string) : IO string :=
  v <- LookupEnv key ;;
  ret match v with
      | Some s => s
      | None => ""
      end.

(** The entry at [p] together with what [os.FileInfo] says of it. *)
Definition stat_node (c : syscall) (p : string) : IO (result (FileInfo * node)) :=
  sys_read c (fun w =>
    match tree.resolve (cwd w) p (disk w) with
    | Some n => Ok (mkFileInfo (filepath.basename p) (tree.is_dir n), n)
    | None => Err (describe c ++ ": " ++ ENOENT)
    end).

Definition info_of (r : result (FileInfo * node)) : result FileInfo :=
  match r with
  | Ok (i, _) => Ok i
  | Err e => Err e
  end.

Definition Stat (p : string) : IO (result FileInfo) :=
  r <- stat_node (SysStat p) p ;; ret (info_of r).

Definition Open (p : string) : IO (result file) :=
  sys_read (SysOpen p) (fun w =>
    match tree.resolve (cwd w) p (disk w) with
    | Some _ => Ok (mkFile p (tree.elems (cwd w) p))
    | None => Err (describe (SysOpen p) ++ ": " ++ ENOENT)
    end).

(** [f.Readdir(0)]: all the entries of the directory, in directory
    order, in one slice. *)
Definition Readdir (f : file) : IO (result (list FileInfo)) :=
  let c := SysReaddir (file_Name f) in
  sys_read c (fun w =>
    match tree.lookup (file_elems f) (disk w) with
    | Some (Dir es) =>
        Ok (map info_of_entry es)
    | Some File => Err (describe c ++ ": " ++ ENOTDIR)
    | None => Err (describe c ++ ": " ++ ENOENT)
    end).

(** [os.Mkdir(p, perm)]. *)
Definition Mkdir (p : string) : IO error :=
  let c := SysMkdir p in
  r <- sys c (fun w =>
    match tree.resolve (cwd w) p (disk w) with
    | Some _ => (Err (describe c ++ ": " ++ EEXIST), disk w)
    | None =>
        match tree.alter (tree.elems (cwd w) p) (Some (Dir [])) (disk w) with
        | Some d => (Ok tt, d)
        | None => (Err (describe c ++ ": " ++ ENOENT), disk w)
        end
    end) ;;
  ret (error_of r).

Definition unlink (c : syscall) (p : string) (w : World) : result unit * node :=
  match tree.alter (tree.elems (cwd w) p) None (disk w) with
  | Some d => (Ok tt, d)
  | None => (Err (describe c ++ ": " ++ EBUSY), disk w)
  end.

(** [os.Remove(p)]: a file, or an empty directory. *)
Definition Remove (p : string) : IO error :=
  let c := SysRemove p in
  r <- sys c (fun w =>
    match tree.resolve (cwd w) p (disk w) with
    | None => (Err (describe c ++ ": " ++ ENOENT), disk w)
    | Some (Dir (_ :: _)) => (Err (describe c ++ ": " ++ ENOTEMPTY), disk w)
    | Some _ => unlink c p w
    end) ;;
  ret (error_of r).

(** [os.RemoveAll(p)]: the entry and all below it; nil when there is
    no such entry. *)
Definition RemoveAll (p : string) : IO error :=
  let c := SysRemoveAll p in
  r <- sys c (fun w =>
    match tree.resolve (cwd w) p (disk w) with
    | None => (Ok tt, disk w)
    | Some _ => unlink c p w
    end) ;;
  ret (error_of r).

End os.

(* ================================================================= *)
(** ** package os/exec *)

Module exec.

(** The error of [cmd.Run] for a child that ended so: nil when it ran
    and exited with status 0. *)
Definition run_error (st : exit_state) : error :=
  match st with
  | Exited 0 => None
  | Exited n => Some ("exit status " ++ itoa n)
  | NotStarted why => Some why
  end.

(** [exec.Command(name, args...).Run()] with the standard streams of
    the parent.  A child that could not be started leaves the file
    system as it was. *)
Definition Run (argv : list string) : IO error :=
  r <- sys (SysExec argv) (fun w =>
    let (st, d) := tools w argv (cwd w) (disk w) in
    (match run_error st with
     | None => Ok tt
     | Some e => Err e
     end,
     match st with
     | Exited _ => d
     | NotStarted _ => disk w
     end)) ;;
  ret (error_of r).

End exec.

(* ================================================================= *)
(** ** package sort and filepath.Walk *)

Module sort.

(** Insertion into a list sorted by name; an entry goes after the
    entries of the same name already there. *)
Fixpoint insert {A} (x : string * A) (l : list (string * A)) : list (string * A) :=
  match l with
  | [] => [x]
  | y :: t => if String.ltb (fst x) (fst y) then x :: y :: t else y :: insert x t
  end.

(** Entries in ascending byte-wise order of their names, as
    [sort.Strings] orders the names. *)
Definition by_name {A} (l : list (string * A)) : list (string * A) :=
  fold_right insert [] l.

(** [sort.Strings]. *)
Definition Strings (l : list string) : list string :=
  map fst (by_name (map (fun s => (s, tt)) l)).

End sort.

Section Walk.

(** The state the callback closes over, and the callback: Go's
    [filepath.WalkFunc], given the path, the [FileInfo] (nil when the
    entry could not be examined) and the error met at that path. *)
Variable S : Type.
Variable walkFn : string -> option FileInfo -> error -> S -> S * error.

(** What [walk] does with one entry, once its node is known. *)
Definition visitor : Type := string -> FileInfo -> S -> IO (S * error).

(** [readDirNames]: open the directory, read all names, sort them. *)
Definition readDirNames (dirname : string) (names : list string)
  : IO (result (list string)) :=
  f <- sys_read (SysOpen dirname) (fun _ => Ok tt) ;;
  match f with
  | Err e => ret (Err e)
  | Ok _ =>
      r <- sys_read (SysReaddir dirname) (fun _ => Ok names) ;;
      match r with
      | Err e => ret (Err e)
      | Ok l => ret (Ok (sort.Strings l))
      end
  end.

(** The loop of [walk] over the sorted names of a directory: each
    entry is examined with [lstat] and then walked; the first error
    that is returned ends the walk. *)
Fixpoint walk_names (path : string) (subs : list (string * (bool * visitor)))
         (acc : S) : IO (S * error) :=
  match subs with
  | [] => ret (acc, None)
  | (name, (isdir, visit)) :: rest =>
      let filename := filepath.Join path name in
      r <- sys_read (SysLstat filename) (fun _ => Ok (mkFileInfo name isdir)) ;;
      match r with
      | Err e =>
          match walkFn filename None (Some e) acc with
          | (acc', Some err) => ret (acc', Some err)
          | (acc', None) => walk_names path rest acc'
          end
      | Ok fileInfo =>
          '(acc', err) <- visit filename fileInfo acc ;;
          match err with
          | Some _ => ret (acc', err)
          | None => walk_names path rest acc'
          end
      end
  end.

(** [walk]: a file is handed to the callback; a directory is read,
    handed to the callback with the error of the read, and, when both
    went well, its entries are walked in the order of their names. *)
Fixpoint walk (n : node) (path : string) (info : FileInfo) (acc : S)
  : IO (S * error) :=
  match n with
  | File => ret (walkFn path (Some info) None acc)
  | Dir es =>
      names <- readDirNames path (map fst es) ;;
      let err := error_of names in
      match walkFn path (Some info) err acc with
      | (acc1, Some err1) => ret (acc1, Some err1)
      | (acc1, None) =>
          match err with
          | Some _ => ret (acc1, None)
          | None =>
              walk_names path
                (sort.by_name
                   (map (fun e => let '(name, child) := e in
                                  (name, (tree.is_dir child, walk child))) es))
                acc1
          end
      end
  end.

(** [filepath.Walk(root, walkFn)].  The callbacks of build.go return
    nil or the error they were given, never [filepath.SkipDir], so the
    special treatment of that value is left out. *)
Definition Walk (root : string) (acc : S) : IO (S * error) :=
  r <- os.stat_node (SysLstat root) root ;;
  match r with
  | Err e => ret (walkFn root None (Some e) acc)
  | Ok (info, n) => walk n root info acc
  end.

End Walk.

Arguments readDirNames dirname names : clear implicits.
Arguments walk_names {S} walkFn path subs acc.
Arguments walk {S} walkFn n path info acc.
Arguments Walk {S} walkFn root acc.

Module filepath_io.

(** [filepath.Abs(path)]: a rooted path is cleaned; any other is
    joined to the working directory. *)
Definition Abs (path : string) : IO (result string) :=
  if filepath.IsAbs path then ret (Ok (filepath.Clean path))
  else
    wd <- os.Getwd ;;
    match wd with
    | Err e => ret (Err e)
    | Ok wd => ret (Ok (filepath.Join wd path))
    end.

End filepath_io.

(* ================================================================= *)
(** * build.go *)

Definition nl : string := String "010"%char "".

Definition outputDirForGeneratedSourceFiles := "generated_java_sources".
Definition outputDirForBytecode := "java_virtual_machine_bytecode".
Definition outputDexFilepath := "classes.dex".
Definition filepathOfAPK := "app.apk".
Definition filepathOfUnalignedAPK := "app.apk.unaligned".

(** Descriptions of flags with corresponding names. *)
Definition sdkDesc := "The location of the Android SDK to use in lieu of the environment variable $ANDROID_HOME (default)".
Definition manifestDesc := "The location of the AndroidManifest.xml of the app to build in lieu of the current directory".
Definition xmlDesc := "The parent-folder location of XML resources files (commonly named 'res') for the app to be bulit with".
Definition javaDesc := "The parent-folder location Java source files for the app to be built with".
Definition outDesc := "The directory to output temporary built artifacts and final APK file, in lieu of the current directory".

Record toolchain : Type := mkToolchain {
  sdk : string;
  buildTools : string;
  platform : string;
  androidLib : string;
  aaptBin : string;
  dxBin : string
}.

Definition set_sdk (v : string) (t : toolchain) :=
  mkToolchain v (buildTools t) (platform t) (androidLib t) (aaptBin t) (dxBin t).
Definition set_buildTools (v : string) (t : toolchain) :=
  mkToolchain (sdk t) v (platform t) (androidLib t) (aaptBin t) (dxBin t).
Definition set_platform (v : string) (t : toolchain) :=
  mkToolchain (sdk t) (buildTools t) v (androidLib t) (aaptBin t) (dxBin t).
Definition set_androidLib (v : string) (t : toolchain) :=
  mkToolchain (sdk t) (buildTools t) (platform t) v (aaptBin t) (dxBin t).
Definition set_aaptBin (v : string) (t : toolchain) :=
  mkToolchain (sdk t) (buildTools t) (platform t) (androidLib t) v (dxBin t).
Definition set_dxBin (v : string) (t : toolchain) :=
  mkToolchain (sdk t) (buildTools t) (platform t) (androidLib t) (aaptBin t) v.

(** The value a Go call leaves in its first result: the zero value
    when it returns an error. *)
Definition value (r : result string) : string :=
  match r with
  | Ok v => v
  | Err _ => ""
  end.

(** [ff[i].Name()]; the program only indexes inside the slice. *)
Definition name_at (ff : list FileInfo) (i : nat) : string :=
  Name (nth i ff (mkFileInfo "" false)).

(** ** run *)

Definition run (t : toolchain) (command : string) : IO error :=
  let s := strings.Split " " (regexp.spaces_ReplaceAllString command) in
  err <- exec.Run (hd "" s :: tl s) ;;
  match err with
  | Some err =>
      ret (Some ("error when running command " ++ command ++ " : " ++ err ++ nl))
  | None => ret None
  end.

(** ** remove *)

Fixpoint remove (paths : list string) : IO error :=
  match paths with
  | [] => ret None
  | s :: rest =>
      f <- os.Stat s ;;
      match f with
      | Err err =>
          ret (Some ("could not stat file at '" ++ s ++ "' due to error: " ++ err ++ nl))
      | Ok f =>
          if IsDir f then
            err <- os.RemoveAll s ;;
            match err with
            | Some err =>
                ret (Some ("could not remove directory at '" ++ s
                             ++ "' due to error: " ++ err ++ nl))
            | None => remove rest
            end
          else
            err <- os.Remove s ;;
            match err with
            | Some err => ret (Some err)
            | None => remove rest
            end
      end
  end.

(** ** makeOutputDirs *)

Fixpoint makeOutputDirs (paths : list string) : IO error :=
  match paths with
  | [] => ret None
  | s :: rest =>
      err <- os.Mkdir s ;;
      match err with
      | Some err =>
          if negb (strings.Contains err "file exists") then ret (Some err)
          else makeOutputDirs rest
      | None => makeOutputDirs rest
      end
  end.

(** ** findJavaSourceFiles *)

(** The function literal given to [filepath.Walk]; [paths] is the slice
    it appends to. *)
Definition findJavaSourceFiles_walkFn (path : string) (info : option FileInfo)
           (err : error) (paths : list string) : list string * error :=
  match err with
  | Some err => (paths, Some err)
  | None =>
      match info with
      | Some info =>
          if IsDir info then (paths, None)
          else if regexp.javaFilename_MatchString (Name info)
               then ((paths ++ [path])%list, None)
               else (paths, None)
      | None => (paths, None)
      end
  end.

Definition findJavaSourceFiles (rootDir : string) : IO (list string * error) :=
  Println rootDir ;;
  '(paths, err) <- Walk findJavaSourceFiles_walkFn rootDir [] ;;
  match err with
  | Some err =>
      ret (paths,
           Some ("received error when finding Java source files under '"
                   ++ rootDir ++ "' : " ++ err ++ nl))
  | None => ret (paths, None)
  end.

(** ** The steps of the pipeline *)

Definition alignUncompressedDataInZipFileToFourByteBoundariesForFasterMemoryMappingAtRuntime
           (t : toolchain) (filepathOfUnalignedAPK filepathOfAPK : string) : IO error :=
  run t (buildTools t ++ "/zipalign" ++ " -f 4 " ++ filepathOfUnalignedAPK
           ++ " " ++ filepathOfAPK).

Definition signAndroidApplicationPackageWithDebugKey
           (t : toolchain) (filepathOfUnalignedAPK : string) : IO error :=
  home <- os.Getenv "HOME" ;;
  run t ("jarsigner -keystore " ++ home ++ "/.android/debug.keystore -storepass android "
           ++ filepathOfUnalignedAPK ++ " androiddebugkey").

Definition addAndroidRuntimeBytecodeToAndroidApplicationPackage
           (t : toolchain) (filepathOfUnalignedAPK outputDexFilepath : string) : IO error :=
  run t (aaptBin t ++ " add " ++ filepathOfUnalignedAPK ++ " " ++ outputDexFilepath).

Definition createUnalignedAndroidApplicationPackage
           (t : toolchain)
           (androidManifestFilepath xmlResourcesFilepath filepathOfUnalignedAPK : string)
  : IO error :=
  run t (aaptBin t ++ " package -f -M " ++ androidManifestFilepath
           ++ " -S " ++ xmlResourcesFilepath ++ " -I " ++ androidLib t
           ++ " -F " ++ filepathOfUnalignedAPK).

Definition translateJavaVirtualMachineMBytecodeToAndroidRuntimeBytecode
           (t : toolchain) (outputDexFilepath outputDirForBytecode : string) : IO error :=
  run t (dxBin t ++ " --dex --min-sdk-version=26 --output " ++ outputDexFilepath
           ++ " " ++ outputDirForBytecode).

Definition compileJavaSourceFilesToJavaVirtualMachineBytecode
           (t : toolchain)
           (javaSourcesFilepath outputDirForGeneratedSourceFiles outputDirForBytecode : string)
  : IO error :=
  '(j, err) <- findJavaSourceFiles javaSourcesFilepath ;;
  match err with
  | Some err =>
      ret (Some ("could not find java source files to compile due to error: " ++ err))
  | None =>
      '(jj, err) <- findJavaSourceFiles outputDirForGeneratedSourceFiles ;;
      match err with
      | Some err =>
          ret (Some ("could not find java source files to compile due to error: " ++ err))
      | None =>
          let javaFiles := strings.Join (j ++ jj)%list " " in
          run t ("javac -classpath " ++ androidLib t
                   ++ " -sourcepath " ++ (javaSourcesFilepath ++ ":" ++ outputDirForGeneratedSourceFiles)
                   ++ " -d " ++ outputDirForBytecode
                   ++ " -target 1.8 -source 1.8 " ++ javaFiles)
      end
  end.

Definition generateJavaFileForAndroidResources
           (t : toolchain)
           (outputDirForGeneratedSourceFiles manifestFilepath resourcesFilepath : string)
  : IO error :=
  let J := outputDirForGeneratedSourceFiles in
  let M := manifestFilepath in
  let S := resourcesFilepath in
  let I := androidLib t in
  run t (aaptBin t ++ " package -f -m -J " ++ J ++ " -M " ++ M ++ " -S " ++ S ++ " -I " ++ I).

(** ** The toolchain *)

(** [initBuildTools] and [initPlatforms] are methods on [*toolchain]:
    they return the toolchain as they leave it, and their error. *)
Definition initBuildTools (t : toolchain) : IO (toolchain * error) :=
  let p := sdk t ++ "/build-tools" in
  r <- filepath_io.Abs p ;;
  match r with
  | Err err =>
      ret (t, Some ("no build-tools directory found under '" ++ p
                      ++ "' due to error: " ++ err))
  | Ok _ =>
      d <- os.Open p ;;
      match d with
      | Err err =>
          ret (t, Some ("could not find build-tools found under '" ++ p
                          ++ "' due to error: " ++ err))
      | Ok d =>
          ff <- os.Readdir d ;;
          match ff with
          | Err err =>
              ret (t, Some ("could not read build-tools dir under '" ++ p
                              ++ "' due to error: " ++ err))
          | Ok ff =>
              if Nat.ltb (List.length ff) 1 then
                ret (t, Some ("no build tools found under '" ++ itoa (List.length ff) ++ "'"))
              else
                let indexOfMostRecentBuildToolsVersion := List.length ff - 1 in
                r <- filepath_io.Abs
                       (p ++ "/" ++ name_at ff indexOfMostRecentBuildToolsVersion) ;;
                let t := set_buildTools (value r) t in
                match r with
                | Err err =>
                    ret (t, Some ("received error when selecting most modern build-tools version: '"
                                    ++ err ++ "'"))
                | Ok _ =>
                    let p := buildTools t ++ "/aapt" in
                    r <- filepath_io.Abs p ;;
                    let t := set_aaptBin (value r) t in
                    match r with
                    | Err err =>
                        ret (t, Some ("could not find aapt binary at path '" ++ p
                                        ++ "' due to error: '" ++ err ++ "'"))
                    | Ok _ =>
                        let p := buildTools t ++ "/dx" in
                        r <- filepath_io.Abs p ;;
                        let t := set_dxBin (value r) t in
                        match r with
                        | Err err =>
                            ret (t, Some ("could not find dx binary at path '" ++ p
                                            ++ "' due to error: '" ++ err ++ "'"))
                        | Ok _ => ret (t, None)
                        end
                    end
                end
          end
      end
  end.

Definition initPlatforms (t : toolchain) : IO (toolchain * error) :=
  let p := sdk t ++ "/platforms" in
  r <- filepath_io.Abs p ;;
  match r with
  | Err err =>
      ret (t, Some ("no valid platform found under '" ++ p ++ "' due to error: " ++ err))
  | Ok _ =>
      d <- os.Open p ;;
      match d with
      | Err err =>
          ret (t, Some ("could not find platforms under '" ++ p ++ "' due to error: " ++ err))
      | Ok d =>
          ff <- os.Readdir d ;;
          match ff with
          | Err err =>
              ret (t, Some ("could not find platforms under '" ++ p
                              ++ "' due to error: " ++ err))
          | Ok ff =>
              if Nat.ltb (List.length ff) 1 then
                ret (t, Some ("no contents found in platform dir found under '"
                                ++ file_Name d ++ "'"))
              else
                let indexOfMostRecentPlatformVersion := List.length ff - 1 in
                r <- filepath_io.Abs
                       (p ++ "/" ++ name_at ff indexOfMostRecentPlatformVersion) ;;
                let t := set_platform (value r) t in
                match r with
                | Err err =>
                    ret (t, Some ("received error when selecting most modern platform: '"
                                    ++ err ++ "'"))
                | Ok _ =>
                    let p := platform t ++ "/android.jar" in
                    r <- filepath_io.Abs p ;;
                    let t := set_androidLib (value r) t in
                    match r with
                    | Err err =>
                        ret (t, Some ("could not find android.jar library at path '" ++ p
                                        ++ "' due to error: '" ++ err ++ "'"))
                    | Ok _ => ret (t, None)
                    end
                end
          end
      end
  end.

Definition hint (SDKPath : string) : string :=
  nl ++ "Are all the build-tools and platforms required to build an android app installed via sdkmanager?" ++ nl
     ++ nl
     ++ "To list installed and installable versions, try:" ++ nl
     ++ "$ " ++ SDKPath ++ "/tools/bin/sdkmanager --list" ++ nl
     ++ nl
     ++ "To install build-tools and platforms, try:" ++ nl
     ++ "$ " ++ SDKPath ++ "/tools/bin/sdkmanager --install 'build-tools;28.0.3' 'platforms;android-28'" ++ nl.

Definition newToolchain (SDKPath : string) : IO (toolchain * error) :=
  let t := mkToolchain "" "" "" "" "" "" in
  r <- filepath_io.Abs SDKPath ;;
  let t := set_sdk (value r) t in
  match r with
  | Err err =>
      ret (t, Some ("no valid directory has been found as $ANDROID_HOME due to error: " ++ err))
  | Ok _ =>
      let p := sdk t ++ "/tools" in
      r <- filepath_io.Abs p ;;
      match r with
      | Err err =>
          let s := "could not find tools directory due to error: " ++ err in
          let s := s ++ nl ++ "this may mean the Android SDK has not been installed" in
          ret (t, Some (s ++ nl ++ "visit developer.android.com to install command-line-only dev tools"))
      | Ok _ =>
          '(t, err) <- initBuildTools t ;;
          match err with
          | Some err => ret (t, Some (err ++ nl ++ hint SDKPath))
          | None =>
              '(t, err) <- initPlatforms t ;;
              match err with
              | Some err => ret (t, Some (err ++ nl ++ hint SDKPath))
              | None => ret (t, None)
              end
          end
      end
  end.

(** ** main *)

(** The values of the flags after [flag.Parse]. *)
Record Args : Type := mkArgs {
  androidHome : string;
  androidManifestFilepath : string;
  xmlResourcesFilepath : string;
  javaSourcesFilepath : string;
  outputDir : string
}.

(** A computation of [main]: it goes on with a value, or the process
    has ended with [os.Exit]. *)
Inductive outcome (A : Type) : Type :=
| Return (a : A)
| Exit (status : nat).
Arguments Return {A} a.
Arguments Exit {A} status.

Definition Proc (A : Type) : Type := World -> outcome A * World.

Definition pret {A} (a : A) : Proc A := fun w => (Return a, w).

Definition pbind {A B} (c : Proc A) (k : A -> Proc B) : Proc B :=
  fun w =>
    match c w with
    | (Return a, w') => k a w'
    | (Exit s, w') => (Exit s, w')
    end.

Definition lift {A} (c : IO A) : Proc A :=
  fun w => let (a, w') := c w in (Return a, w').

Definition os_Exit {A} (status : nat) : Proc A := fun w => (Exit status, w).

Declare Scope proc_scope.
Delimit Scope proc_scope with proc.
Notation "x <- c ;; k" := (pbind c (fun x => k))
  (at level 100, c at next level, right associativity) : proc_scope.
Notation "' p <- c ;; k" := (pbind c (fun p => k))
  (at level 100, p pattern, c at next level, right associativity) : proc_scope.
Notation "c ;; k" := (pbind c (fun _ => k))
  (at level 100, right associativity) : proc_scope.

(** [fmt.Fprintf(os.Stderr, ...)]. *)
Definition Fprintf_Stderr (s : string) : Proc unit := lift (Eprint s).

(** [flag.Usage()]: the names and descriptions of the flags, on the
    error stream. *)
Definition flag_Usage : Proc unit :=
  lift (Eprint ("Usage:" ++ nl
                  ++ "  -java string" ++ nl ++ "    " ++ javaDesc ++ nl
                  ++ "  -manifest string" ++ nl ++ "    " ++ manifestDesc ++ nl
                  ++ "  -out string" ++ nl ++ "    " ++ outDesc ++ nl
                  ++ "  -sdk string" ++ nl ++ "    " ++ sdkDesc ++ nl
                  ++ "  -xml string" ++ nl ++ "    " ++ xmlDesc ++ nl)).

(** [if err != nil { fmt.Fprintf(os.Stderr, ...); os.Exit(1) }]. *)
Definition exit_on (err : error) (message : string -> string) : Proc unit :=
  match err with
  | Some err => (Fprintf_Stderr (message err) ;; os_Exit 1)%proc
  | None => pret tt
  end.

Definition main (args : Args) : Proc unit :=
  (lift (Println ("aoeu " ++ javaSourcesFilepath args ++ " " ++ xmlResourcesFilepath args)) ;;
   androidHome <-
     (if String.eqb (androidHome args) "" then
        v <- lift (os.LookupEnv "ANDROID_HOME") ;;
        match v with
        | None =>
            Fprintf_Stderr ("ANDROID_HOME must be set as an environment variable or the SDK location must be provided manually as a flag" ++ nl) ;;
            flag_Usage ;;
            os_Exit 1
        | Some home =>
            if String.eqb home "" then
              Fprintf_Stderr ("ANDROID_HOME is set as an empty enviroment variable and must be non-empty, or the SDK location must be provided manually as a flag" ++ nl) ;;
              flag_Usage ;;
              os_Exit 1
            else pret home
        end
      else pret (androidHome args)) ;;
   p <- lift (filepath_io.Abs (androidManifestFilepath args)) ;;
   exit_on (error_of p)
     (fun err => "could not find AndroidManifest.xml at filepath '"
                   ++ androidManifestFilepath args ++ "' due to error: '" ++ err ++ "'" ++ nl) ;;
   let androidManifestFilepath := value p in
   p <- lift (filepath_io.Abs (outputDir args)) ;;
   exit_on (error_of p)
     (fun err => "could not locate output directory at filepath '"
                   ++ outputDir args ++ "' due to error: " ++ err ++ nl) ;;
   let outputDir := value p in
   '(t, err) <- lift (newToolchain androidHome) ;;
   exit_on err
     (fun err => "could not ascertain toolchain due to error: " ++ err ++ nl) ;;
   let tmpDirs := [outputDirForGeneratedSourceFiles; outputDirForBytecode] in
   err <- lift (makeOutputDirs tmpDirs) ;;
   exit_on err
     (fun err => "could not create output directories due to error: " ++ err ++ nl) ;;
   err <- lift (generateJavaFileForAndroidResources t
                  (outputDir ++ "/" ++ outputDirForGeneratedSourceFiles)
                  androidManifestFilepath (xmlResourcesFilepath args)) ;;
   exit_on err
     (fun err => "could not create Java file from Android XML resources files due to error: "
                   ++ err ++ nl) ;;
   err <- lift (compileJavaSourceFilesToJavaVirtualMachineBytecode t
                  (javaSourcesFilepath args) outputDirForGeneratedSourceFiles
                  outputDirForBytecode) ;;
   exit_on err
     (fun err => "could not compile java source files to bytecode due to error: " ++ err ++ nl) ;;
   err <- lift (translateJavaVirtualMachineMBytecodeToAndroidRuntimeBytecode t
                  outputDexFilepath outputDirForBytecode) ;;
   exit_on err
     (fun err => "could not translate bytecode with dexer due to error: " ++ err ++ nl) ;;
   err <- lift (createUnalignedAndroidApplicationPackage t
                  androidManifestFilepath (xmlResourcesFilepath args) filepathOfUnalignedAPK) ;;
   exit_on err
     (fun err => "could not create unaligned APK file due to error: " ++ err ++ nl) ;;
   err <- lift (addAndroidRuntimeBytecodeToAndroidApplicationPackage t
                  filepathOfUnalignedAPK outputDexFilepath) ;;
   exit_on err
     (fun err => "could not add android runtime bytecode to APK due to error: " ++ err ++ nl) ;;
   err <- lift (signAndroidApplicationPackageWithDebugKey t filepathOfUnalignedAPK) ;;
   exit_on err
     (fun err => "could not sign APK due to error: " ++ err ++ nl) ;;
   err <- lift (alignUncompressedDataInZipFileToFourByteBoundariesForFasterMemoryMappingAtRuntime
                  t filepathOfUnalignedAPK filepathOfAPK) ;;
   exit_on err
     (fun err => "Could align bytes of APK file due to error: " ++ err ++ nl) ;;
   _ <- lift (remove ([outputDexFilepath; filepathOfUnalignedAPK] ++ tmpDirs)%list) ;;
   pret tt)%proc.

(** The exit status of the process: 0 when [main] returns. *)
Definition exit_status (o : outcome unit) : nat :=
  match o with
  | Return _ => 0
  | Exit status => status
  end.

(* ================================================================= *)
(** * A sample SDK, project and tools

    Concrete worlds on which the program can be run: an installed SDK, a
    project in [/work], and tools that behave as the real ones do as far
    as the files they write are concerned. *)

Module Sample.

(** The argument that follows [flag]. *)
Fixpoint arg_after (flag : string) (args : list string) : option string :=
  match args with
  | [] => None
  | a :: rest =>
      if String.eqb a flag then
        match rest with
        | v :: _ => Some v
        | [] => None
        end
      else arg_after flag rest
  end.

(** A tool writes a file: it needs the directory to be there. *)
Definition writes (cwd p : string) (d : node) : exit_state * node :=
  match tree.alter (tree.elems cwd p) (Some File) d with
  | Some d' => (Exited 0, d')
  | None => (Exited 1, d)
  end.

Definition sdk_tools (argv : list string) (cwd : string) (d : node)
  : exit_state * node :=
  match argv with
  | [] => (NotStarted "exec: no command", d)
  | prog :: args =>
      let name := filepath.basename prog in
      if String.eqb name "aapt" then
        match arg_after "-J" args, arg_after "-F" args with
        | Some j, _ => writes cwd (j ++ "/R.java") d
        | None, Some f => writes cwd f d
        | None, None => (Exited 0, d)
        end
      else if String.eqb name "javac" then
        match arg_after "-d" args with
        | Some dir => writes cwd (dir ++ "/Main.class") d
        | None => (Exited 2, d)
        end
      else if String.eqb name "dx" then
        match arg_after "--output" args with
        | Some f => writes cwd f d
        | None => (Exited 1, d)
        end
      else if String.eqb name "jarsigner" then (Exited 0, d)
      else if String.eqb name "zipalign" then
        match args with
        | [_; _; src; dst] =>
            if tree.exists_ cwd src d then writes cwd dst d else (Exited 1, d)
        | _ => (Exited 2, d)
        end
      else (NotStarted ("exec: " ++ prog ++ ": executable file not found in $PATH"), d)
  end.

Definition no_fault : list event -> syscall -> option string :=
  fun _ _ => None.

Definition project : node :=
  Dir [("AndroidManifest.xml", File);
       ("xml", Dir [("layout.xml", File)]);
       ("java", Dir [("sub", Dir [("C.java", File)]);
                     ("b.txt", File);
                     ("A.java", File)])].

(** An SDK whose directories are listed in ascending order of their
    names and that holds the tools. *)
Definition sdk_sorted : node :=
  Dir [("tools", Dir []);
       ("build-tools",
        Dir [("28.0.3", Dir [("aapt", File); ("dx", File); ("zipalign", File)]);
             ("29.0.2", Dir [("aapt", File); ("dx", File); ("zipalign", File)]);
             ("30.0.1", Dir [("aapt", File); ("dx", File); ("zipalign", File)])]);
       ("platforms",
        Dir [("android-28", Dir [("android.jar", File)]);
             ("android-29", Dir [("android.jar", File)])])].

(** The same versions, listed by the file system in another order. *)
Definition sdk_unsorted : node :=
  Dir [("tools", Dir []);
       ("build-tools",
        Dir [("30.0.1", Dir [("aapt", File); ("dx", File); ("zipalign", File)]);
             ("29.0.2", Dir [("aapt", File); ("dx", File); ("zipalign", File)]);
             ("28.0.3", Dir [("aapt", File); ("dx", File); ("zipalign", File)])]);
       ("platforms",
        Dir [("android-29", Dir [("android.jar", File)]);
             ("android-28", Dir [("android.jar", File)])])].

(** Version directories that were created but hold nothing. *)
Definition sdk_hollow : node :=
  Dir [("tools", Dir []);
       ("build-tools", Dir [("28.0.3", Dir [])]);
       ("platforms", Dir [("android-28", Dir [])])].

(** No build tools installed. *)
Definition sdk_no_build_tools : node :=
  Dir [("tools", Dir []);
       ("build-tools", Dir []);
       ("platforms", Dir [("android-28", Dir [("android.jar", File)])])].

Definition world_of (sdk : node) (extra : list (string * node))
           (tools : list string -> string -> node -> exit_state * node) : World :=
  mkWorld (Dir ([("sdk", sdk); ("work", project); ("home", Dir [])] ++ extra)%list)
          "/work" [("HOME", "/home")] [] [] [] no_fault tools.

Definition world : World := world_of sdk_sorted [] sdk_tools.

(** A world in which the translator runs and writes nothing. *)
Definition lazy_dx (argv : list string) (cwd : string) (d : node)
  : exit_state * node :=
  if String.eqb (filepath.basename (hd "" argv)) "dx" then (Exited 0, d)
  else sdk_tools argv cwd d.

(** A world in which the translator fails. *)
Definition failing_dx (argv : list string) (cwd : string) (d : node)
  : exit_state * node :=
  if String.eqb (filepath.basename (hd "" argv)) "dx" then (Exited 2, d)
  else sdk_tools argv cwd d.

Definition args : Args := mkArgs "/sdk" "AndroidManifest.xml" "xml" "java" "".

(** The flag [-out /out], with [/out/generated_java_sources] left
    there by an earlier build. *)
Definition args_out : Args := mkArgs "/sdk" "AndroidManifest.xml" "xml" "java" "/out".

Definition world_out : World :=
  world_of sdk_sorted [("out", Dir [("generated_java_sources", Dir [])])] sdk_tools.

End Sample.

(* ================================================================= *)
(** * Vocabulary of the specification *)

(** Every byte of [s] satisfies [p]. *)
Fixpoint all_chars (p : ascii -> bool) (s : string) : bool :=
  match s with
  | EmptyString => true
  | String c r => p c && all_chars p r
  end.

Definition starts_with_space (s : string) : bool :=
  match s with
  | EmptyString => false
  | String c _ => regexp.isSpace c
  end.

(** [collapsed s r]: [r] is [s] with every maximal run of white space
    replaced by a single space. *)
Inductive collapsed : string -> string -> Prop :=
| collapsed_nil : collapsed "" ""
| collapsed_char c s r :
    regexp.isSpace c = false ->
    collapsed s r ->
    collapsed (String c s) (String c r)
| collapsed_run run s r :
    run <> "" ->
    all_chars regexp.isSpace run = true ->
    starts_with_space s = false ->
    collapsed s r ->
    collapsed (run ++ s) (String " " r).

(** The argument vector that [run] hands to [exec.Command]. *)
Definition tokens (command : string) : list string :=
  strings.Split " " (regexp.spaces_ReplaceAllString command).

(** The world after more calls, and nothing else: what a computation
    that only reads leaves behind. *)
Definition extend (evs : list event) (w : World) : World :=
  mkWorld (disk w) (cwd w) (environ w) (trace w ++ evs)%list
          (stdout w) (stderr w) (fault w) (tools w).

Definition is_exec (c : syscall) : bool :=
  match c with
  | SysExec _ => true
  | _ => false
  end.

(** The call went well. *)
Definition succeeded (e : event) : Prop := snd e = None.

(** An environment that never fails a call on its own account. *)
Definition fault_free (w : World) : Prop :=
  forall tr c, fault w tr c = None.

(** The names in the directory at [p], in the order in which the
    directory is read. *)
Definition dir_listing (w : World) (p : string) : option (list string) :=
  match tree.resolve (cwd w) p (disk w) with
  | Some (Dir es) => Some (map fst es)
  | _ => None
  end.

(** Names in ascending byte-wise order. *)
Definition ascending (names : list string) : Prop :=
  StronglySorted (fun a b => String.leb a b = true) names.

(** [selects_greatest names chosen]: [chosen] is the name that sorts
    last among [names]. *)
Definition selects_greatest (names : list string) (chosen : string) : Prop :=
  In chosen names /\ forall n, In n names -> String.leb n chosen = true.

(** The Java sources below an entry, in the order in which [walk]
    comes to them: the entries of a directory by ascending name. *)
Fixpoint java_paths (n : node) (path name : string) : list string :=
  match n with
  | File => if regexp.javaFilename_MatchString name then [path] else []
  | Dir es =>
      flat_map
        (fun sub => snd sub (filepath.Join path (fst sub)) (fst sub))
        (sort.by_name (map (fun e => let '(nm, child) := e in (nm, java_paths child)) es))
  end.

(** [below n path name p nm leaf]: walking down from the entry [n],
    called [name] and found at [path], one meets the entry [leaf],
    called [nm], at the path [p]. *)
Inductive below : node -> string -> string -> string -> string -> node -> Prop :=
| below_here n path name : below n path name path name n
| below_child es path name nm child p nm' leaf :
    In (nm, child) es ->
    below child (filepath.Join path nm) nm p nm' leaf ->
    below (Dir es) path name p nm' leaf.

(** Two trees that hold the same entries, read in different orders. *)
Inductive same_tree : node -> node -> Prop :=
| same_file : same_tree File File
| same_dir es1 es2 : same_entries es1 es2 -> same_tree (Dir es1) (Dir es2)
with same_entries : list (string * node) -> list (string * node) -> Prop :=
| same_nil : same_entries [] []
| same_cons nm n1 n2 es1 es2 :
    same_tree n1 n2 -> same_entries es1 es2 ->
    same_entries ((nm, n1) :: es1) ((nm, n2) :: es2)
| same_swap e1 e2 es :
    fst e1 <> fst e2 ->
    same_entries (e1 :: e2 :: es) (e2 :: e1 :: es)
| same_trans es1 es2 es3 :
    same_entries es1 es2 -> same_entries es2 es3 -> same_entries es1 es3.

Scheme same_tree_mind := Minimality for same_tree Sort Prop
  with same_entries_mind := Minimality for same_entries Sort Prop.

(** Worlds for the sample SDKs. *)
Definition world_no_build_tools : World :=
  Sample.world_of Sample.sdk_no_build_tools [] Sample.sdk_tools.

Definition world_unsorted : World :=
  Sample.world_of Sample.sdk_unsorted [] Sample.sdk_tools.

Definition world_hollow : World :=
  Sample.world_of Sample.sdk_hollow [] Sample.sdk_tools.

(** The working directory after a build, before the cleanup. *)
Definition world_built : World :=
  mkWorld (Dir [("work",
                 Dir [("classes.dex", File);
                      ("app.apk.unaligned", File);
                      ("generated_java_sources", Dir [("R.java", File)]);
                      ("java_virtual_machine_bytecode", Dir [("Main.class", File)]);
                      ("app.apk", File)])])
          "/work" [] [] [] [] Sample.no_fault Sample.sdk_tools.

(** The Java sources below the entries [l] of the directory at [path],
    entry after entry. *)
Definition java_paths_entries (path : string) (l : list (string * node)) : list string :=
  flat_map (fun e => java_paths (snd e) (filepath.Join path (fst e)) (fst e)) l.

(** [walked w acc expected res]: a walk that started in the world [w],
    with the paths [acc] collected so far, below entries whose Java
    sources are [expected], has ended with [res].  It has only added
    calls to the world, none of them a child process; it has appended
    paths among the expected ones; either it returns no error, every
    call succeeded and all the expected paths are there, or it returns
    the error of its last call, the only one that failed.  Without
    faults of the environment it returns no error. *)
Definition walked (w : World) (acc expected : list string)
           (res : list string * error * World) : Prop :=
  exists evs collected err,
    res = ((acc ++ collected)%list, err, extend evs w) /\
    Forall (fun e => is_exec (fst e) = false) evs /\
    incl collected expected /\
    match err with
    | None => Forall succeeded evs /\ collected = expected
    | Some e => exists pre c, evs = (pre ++ [(c, Some e)])%list /\ Forall succeeded pre
    end /\
    (fault_free w -> err = None).

Combined Scheme same_mutind from same_tree_mind, same_entries_mind.

(** Two optional entries that are both missing or the same up to the
    order of the listings. *)
Definition same_opt (a b : option node) : Prop :=
  match a, b with
  | Some x, Some y => same_tree x y
  | None, None => True
  | _, _ => False
  end.

(** Two entries of the same name with the same Java sources below. *)
Definition same_sources (e1 e2 : string * node) : Prop :=
  fst e1 = fst e2 /\
  forall path name, java_paths (snd e1) path name = java_paths (snd e2) path name.

(** The source tree of the specification: [A.java], [b.txt] and
    [sub/C.java], listed by the file system in another order. *)
Definition world_sources : World :=
  mkWorld (Dir [("src", Dir [("sub", Dir [("C.java", File)]);
                             ("b.txt", File);
                             ("A.java", File)])])
          "/" [] [] [] [] Sample.no_fault Sample.sdk_tools.

(** The same tree listed in ascending order. *)
Definition world_sources_sorted : World :=
  mkWorld (Dir [("src", Dir [("A.java", File);
                             ("b.txt", File);
                             ("sub", Dir [("C.java", File)])])])
          "/" [] [] [] [] Sample.no_fault Sample.sdk_tools.

(** The number of child processes among the calls [evs]. *)
Definition count_execs (evs : list event) : nat :=
  List.length (filter (fun e => is_exec (fst e)) evs).

(** A failure that ends the build: any call that failed, except those
    of the final cleanup, and except a [mkdir] of a directory that is
    there already. *)
Definition fatal (e : event) : bool :=
  match e with
  | (_, None) => false
  | (SysStat _, Some _) => false
  | (SysRemove _, Some _) => false
  | (SysRemoveAll _, Some _) => false
  | (SysMkdir _, Some err) => negb (strings.Contains err "file exists")
  | (_, Some _) => true
  end.

(** Among the calls [evs], a fatal failure can only be the last call. *)
Definition fatal_last (evs : list event) : Prop :=
  forall pre ev post, evs = (pre ++ ev :: post)%list -> fatal ev = true -> post = [].

(** From [w] to [w'] the calls [evs] were made, and the program itself
    printed no error. *)
Definition grows (w w' : World) (evs : list event) : Prop :=
  trace w' = (trace w ++ evs)%list /\ stderr w' = stderr w.

(** A part of the program that starts no child process: a fatal failure
    is its last call, and it then reports an error. *)
Definition setup {A} (errof : A -> error) (c : IO A) (w : World) : Prop :=
  exists evs,
    grows w (snd (c w)) evs /\
    Forall (fun e => is_exec (fst e) = false) evs /\
    fatal_last evs /\
    (errof (fst (c w)) = None -> Forall (fun e => fatal e = false) evs).

(** A step of the pipeline: either it reports an error before it starts
    any process, or it starts one process, a command line [cmd] that
    satisfies [C], as its last call, and reports the error of that
    process. *)
Definition step (C : string -> Prop) (c : IO error) (w : World) : Prop :=
  exists evs,
    grows w (snd (c w)) evs /\
    ((Forall (fun e => is_exec (fst e) = false) evs /\ fatal_last evs /\
      fst (c w) <> None) \/
     (exists pre cmd e0,
         evs = (pre ++ [(SysExec (tokens cmd), e0)])%list /\
         Forall (fun e => is_exec (fst e) = false) pre /\
         Forall (fun e => fatal e = false) pre /\
         C cmd /\
         fst (c w)
         = option_map (fun e => "error when running command " ++ cmd ++ " : " ++ e ++ nl) e0)).

(** What [main] prints before the error of each step of the pipeline. *)
Definition step_message (k : nat) : string :=
  nth k ["could not create Java file from Android XML resources files due to error: ";
         "could not compile java source files to bytecode due to error: ";
         "could not translate bytecode with dexer due to error: ";
         "could not create unaligned APK file due to error: ";
         "could not add android runtime bytecode to APK due to error: ";
         "could not sign APK due to error: ";
         "Could align bytes of APK file due to error: "] "".

(** The command line of the bytecode translator. *)
Definition is_translate_command (cmd : string) : Prop :=
  exists t,
    cmd = dxBin t ++ " --dex --min-sdk-version=26 --output " ++ outputDexFilepath
                  ++ " " ++ outputDirForBytecode.

(** The build so far, from [w0] to [w]: [k] processes were started, no
    call failed fatally, and nothing was printed on the error stream. *)
Definition so_far (k : nat) (w0 w : World) : Prop :=
  exists evs,
    grows w0 w evs /\
    Forall (fun e => fatal e = false) evs /\
    count_execs evs = k.

(** The build from [w0] to its end in [w'] with the outcome [o]: a
    fatal failure is the last call of the run, and the process exits
    with status 1; when the call that failed is a child process, [main]
    has printed one line that names the step and the command. *)
Definition fails_fast (w0 : World) (o : outcome unit) (w' : World) : Prop :=
  exists evs,
    trace w' = (trace w0 ++ evs)%list /\
    forall pre ev post,
      evs = (pre ++ ev :: post)%list -> fatal ev = true ->
      post = [] /\ o = Exit 1 /\
      forall argv e,
        ev = (SysExec argv, Some e) ->
        exists cmd,
          argv = tokens cmd /\
          (count_execs pre = 2 -> is_translate_command cmd) /\
          stderr w'
          = (stderr w0
               ++ [(step_message (count_execs pre)
                      ++ ("error when running command " ++ cmd ++ " : " ++ e ++ nl)
                      ++ nl)%string])%list.

(** The sample project with a translator that fails, and with one that
    exits with status 0 and writes nothing. *)
Definition world_failing_dx : World :=
  Sample.world_of Sample.sdk_sorted [] Sample.failing_dx.

Definition world_lazy_dx : World :=
  Sample.world_of Sample.sdk_sorted [] Sample.lazy_dx.

(** The command line of the translator in the sample SDK. *)
Definition sample_dx_argv : list string :=
  ["/sdk/build-tools/30.0.1/dx"; "--dex"; "--min-sdk-version=26";
   "--output"; "classes.dex"; "java_virtual_machine_bytecode"].

(** A command line with runs of spaces, a tab and a newline. *)
Definition sample_command : string :=
  "javac   -d" ++ String "009"%char "" ++ "out" ++ nl ++ " A.java".

Definition sample_toolchain : toolchain :=
  mkToolchain "/sdk" "/sdk/build-tools/30.0.1" "/sdk/platforms/android-29"
              "/sdk/platforms/android-29/android.jar"
              "/sdk/build-tools/30.0.1/aapt" "/sdk/build-tools/30.0.1/dx".

(** The calls of [filepath.Walk]. *)
Definition is_walk_call (c : syscall) : bool :=
  match c with
  | SysLstat _ | SysOpen _ | SysReaddir _ => true
  | _ => false
  end.

(* ================================================================= *)
(** * Vocabulary of the further properties *)

(** ** Command lines *)

(** No byte of [s] is white space. *)
Definition no_space (s : string) : bool :=
  all_chars (fun c => negb (regexp.isSpace c)) s.

(** A word of a command line: not empty, and without white space. *)
Definition word (s : string) : bool :=
  negb (String.eqb s "") && no_space s.

(** White space is collapsed, and the text is split at the spaces. *)
Definition split_collapsed (in_run : bool) (s : string) : list string :=
  strings.Split " " (regexp.replace_spaces in_run s).

(** [starts c w argv]: run in [w], the computation [c] makes one call,
    the child process [argv], and it returns nil exactly when that
    process went well. *)
Definition starts (c : IO error) (w : World) (argv : list string) : Prop :=
  exists e0,
    trace (snd (c w)) = (trace w ++ [(SysExec argv, e0)])%list /\
    (fst (c w) = None <-> e0 = None).

(** ** Paths and what they name *)

(** The elements [p] lead to the entry at [q] or to one above it. *)
Fixpoint leads_to (p q : list string) : bool :=
  match p, q with
  | [], _ => true
  | a :: p', b :: q' => String.eqb a b && leads_to p' q'
  | _ :: _, [] => false
  end.

(** The path [q] names the entry at [p] or an entry below it. *)
Definition at_or_below (cwd p q : string) : bool :=
  leads_to (tree.elems cwd p) (tree.elems cwd q).

(** What there is at a path: nothing, a directory ([Some true]) or
    a file ([Some false]). *)
Definition kind (o : option node) : option bool := option_map tree.is_dir o.

(** What the path [q] names in the world [w]. *)
Definition kind_at (w : World) (q : string) : option bool :=
  kind (tree.resolve (cwd w) q (disk w)).

(** What a removal does to the file system: nothing, or it deletes the
    entry at the path. *)
Definition deletes (p : string) (w w' : World) : Prop :=
  cwd w' = cwd w /\
  (disk w' = disk w \/
   tree.alter (tree.elems (cwd w) p) None (disk w) = Some (disk w')).

(** The byte [c] occurs in [s]. *)
Fixpoint occurs (c : ascii) (s : string) : bool :=
  match s with
  | EmptyString => false
  | String c' r => Ascii.eqb c c' || occurs c r
  end.

(** From [w] to [w'] directories were made where nothing was, and
    nothing else has changed of what there is at each path. *)
Definition only_adds_dirs (w w' : World) : Prop :=
  forall q,
    kind_at w' q = kind_at w q \/ (kind_at w q = None /\ kind_at w' q = Some true).

(** ** Calls that only look *)

(** The calls of the toolchain resolution below the SDK root [root]:
    the working directory is asked for, and the directories
    [build-tools] and [platforms] are opened and read. *)
Definition is_resolution_call (root : string) (c : syscall) : bool :=
  match c with
  | SysGetwd => true
  | SysOpen p | SysReaddir p =>
      String.eqb p (root ++ "/build-tools") || String.eqb p (root ++ "/platforms")
  | _ => false
  end.

(** [looks P Q c w]: run in [w], the computation [c] only adds calls
    that satisfy [P], and its result satisfies [Q]. *)
Definition looks {A} (P : syscall -> bool) (Q : A -> Prop) (c : IO A) (w : World) : Prop :=
  exists evs,
    snd (c w) = extend evs w /\
    Forall (fun e => P (fst e) = true) evs /\
    Q (fst (c w)).

(** ** Runs of [main] *)

(** The flags with another SDK location. *)
Definition with_sdk (home : string) (args : Args) : Args :=
  mkArgs home (androidManifestFilepath args) (xmlResourcesFilepath args)
         (javaSourcesFilepath args) (outputDir args).

(** What [main] prints when it has no SDK location: the variable is
    not set, or it is set and empty. *)
Definition sdk_location_message (v : option string) : string :=
  match v with
  | None => "ANDROID_HOME must be set as an environment variable or the SDK location must be provided manually as a flag" ++ nl
  | Some _ => "ANDROID_HOME is set as an empty enviroment variable and must be non-empty, or the SDK location must be provided manually as a flag" ++ nl
  end.

(** The child processes among the calls [evs] that went well. *)
Definition count_ok_execs (evs : list event) : nat :=
  List.length
    (filter (fun e : event => is_exec (fst e)
                      && match snd e with
                         | None => true
                         | Some _ => false
                         end) evs).

(** The call makes a directory. *)
Definition is_mkdir (c : syscall) : bool :=
  match c with
  | SysMkdir _ => true
  | _ => false
  end.

(** The argument vectors of the child processes among the calls
    [evs], in the order in which they were started. *)
Definition exec_argvs (evs : list event) : list (list string) :=
  flat_map (fun e : event =>
              match fst e with
              | SysExec argv => [argv]
              | _ => []
              end) evs.

(** What [filepath.Abs] returns for [p] in the working directory
    [cwd], when it returns a path. *)
Definition abs_path (cwd p : string) : string :=
  if filepath.IsAbs p then filepath.Clean p else filepath.Join cwd p.

(** The command lines of the seven steps, as [main] has them
    formatted: for the toolchain [t], the manifest and output directory
    made absolute, the resource and source directories as they are
    given, the home directory, and the Java sources found. *)
Definition pipeline (t : toolchain) (manifest out xml java home javaFiles : string)
  : list string :=
  [ aaptBin t ++ " package -f -m -J " ++ (out ++ "/" ++ outputDirForGeneratedSourceFiles)
      ++ " -M " ++ manifest ++ " -S " ++ xml ++ " -I " ++ androidLib t;
    "javac -classpath " ++ androidLib t
      ++ " -sourcepath " ++ (java ++ ":" ++ outputDirForGeneratedSourceFiles)
      ++ " -d " ++ outputDirForBytecode ++ " -target 1.8 -source 1.8 " ++ javaFiles;
    dxBin t ++ " --dex --min-sdk-version=26 --output " ++ outputDexFilepath
      ++ " " ++ outputDirForBytecode;
    aaptBin t ++ " package -f -M " ++ manifest ++ " -S " ++ xml ++ " -I " ++ androidLib t
      ++ " -F " ++ filepathOfUnalignedAPK;
    aaptBin t ++ " add " ++ filepathOfUnalignedAPK ++ " " ++ outputDexFilepath;
    "jarsigner -keystore " ++ home ++ "/.android/debug.keystore -storepass android "
      ++ filepathOfUnalignedAPK ++ " androiddebugkey";
    buildTools t ++ "/zipalign" ++ " -f 4 " ++ filepathOfUnalignedAPK ++ " " ++ filepathOfAPK ].

(** The command lines of a run of [main] with the flags [args] that
    started in the world [w]. *)
Definition pipeline_of (args : Args) (w : World) (t : toolchain) (files : list string)
  : list string :=
  pipeline t
    (abs_path (cwd w) (androidManifestFilepath args))
    (abs_path (cwd w) (outputDir args))
    (xmlResourcesFilepath args) (javaSourcesFilepath args)
    (fst (os.Getenv "HOME" w))
    (strings.Join files " ").

(** The SDK location of a run: the flag, or the environment variable
    when the flag is not given. *)
Definition sdk_location (args : Args) (w : World) : string :=
  if String.eqb (androidHome args) "" then
    match fst (os.LookupEnv "ANDROID_HOME" w) with
    | Some home => home
    | None => ""
    end
  else androidHome args.

(** [t] is a toolchain that the resolution returns for the run, on the
    file system and in the working directory of [w]. *)
Definition resolved (args : Args) (w : World) (t : toolchain) : Prop :=
  exists wt,
    cwd wt = cwd w /\ disk wt = disk w /\
    fst (newToolchain (sdk_location args w) wt) = (t, None).

(** From [w] to [w'] the process is in the same working directory and
    has the same environment. *)
Definition stable (w w' : World) : Prop :=
  cwd w' = cwd w /\ environ w' = environ w.

(** A computation that changes neither of them. *)
Definition keeps {A} (c : IO A) : Prop := forall w, stable w (snd (c w)).

(** The build from [w0] to [w]: the processes [cmds] were started, [k]
    of them went well, and nothing was printed on the error stream;
    [dirs] tells whether a [mkdir] was among the calls, and until then
    the file system is as it was and no process was started. *)
Definition progress (dirs : bool) (k : nat) (cmds : list string) (w0 w : World) : Prop :=
  exists evs,
    grows w0 w evs /\ stable w0 w /\
    exec_argvs evs = map tokens cmds /\
    count_ok_execs evs = k /\
    if dirs then Exists (fun e => is_mkdir (fst e) = true) evs
    else disk w = disk w0 /\ cmds = [] /\ Forall (fun e => is_mkdir (fst e) = false) evs.

(** The build with the flags [args], from [w0] to its end in [w'] with
    the outcome [o]. *)
Definition finished (args : Args) (w0 : World) (o : outcome unit) (w' : World) : Prop :=
  exists evs t files n,
    trace w' = (trace w0 ++ evs)%list /\
    exec_argvs evs = map tokens (firstn n (pipeline_of args w0 t files)) /\
    n <= 7 /\
    (n <> 0 -> resolved args w0 t) /\
    match o with
    | Return _ =>
        stderr w' = stderr w0 /\ count_ok_execs evs = 7 /\ n = 7 /\
        Exists (fun e => is_mkdir (fst e) = true) evs
    | Exit status =>
        status = 1 /\ count_ok_execs evs < 7 /\
        (exists lines, lines <> [] /\ stderr w' = (stderr w0 ++ lines)%list) /\
        (Forall (fun e => is_mkdir (fst e) = false) evs ->
         disk w' = disk w0 /\ n = 0)
    end.

(** A part of the program that looks at the file system and does not
    change it. *)
Definition reads {A} (Q : World -> A -> Prop) (c : IO A) (w : World) : Prop :=
  exists evs,
    grows w (snd (c w)) evs /\
    stable w (snd (c w)) /\
    disk (snd (c w)) = disk w /\
    Forall (fun e => is_exec (fst e) = false /\ is_mkdir (fst e) = false) evs /\
    Q w (fst (c w)).

(** The toolchain before the resolution: Go's zero value. *)
Definition no_toolchain : toolchain := mkToolchain "" "" "" "" "" "".

(** ** More sample worlds *)

(** An SDK with build tools and no platform. *)
Definition world_no_platforms : World :=
  Sample.world_of
    (Dir [("tools", Dir []);
          ("build-tools", Dir [("28.0.3", Dir [("aapt", File); ("dx", File)])]);
          ("platforms", Dir [])])
    [] Sample.sdk_tools.

(** The sample world with the SDK location in the environment. *)
Definition world_android_home : World :=
  mkWorld (disk Sample.world) "/work" [("HOME", "/home"); ("ANDROID_HOME", "/sdk")]
          [] [] [] Sample.no_fault Sample.sdk_tools.

(** The flags when none is given. *)
Definition no_flags : Args := mkArgs "" "AndroidManifest.xml" "xml" "java" "".

(* ================================================================= *)
(** * Verification *)

(** ** Strings *)

Lemma Split_not_nil sep s : strings.Split sep s <> [].
Proof.
  destruct s as [|c r]; simpl; [discriminate|].
  destruct (Ascii.eqb c sep); [discriminate|].
  destruct (strings.Split sep r); discriminate.
Qed.

Lemma Split_hd_tl sep s :
  hd "" (strings.Split sep s) :: tl (strings.Split sep s) = strings.Split sep s.
Proof.
  pose proof (Split_not_nil sep s) as H.
  destruct (strings.Split sep s); [congruence | reflexivity].
Qed.

Lemma Join_Split s : strings.Join (strings.Split " " s) " " = s.
Proof.
  unfold strings.Join.
  induction s as [|c r IH]; [reflexivity|].
  simpl strings.Split.
  destruct (Ascii.eqb_spec c " "%char) as [->|Hc].
  - pose proof (Split_not_nil " " r) as Hne.
    destruct (strings.Split " " r) as [|h t]; [congruence|].
    change (String.concat " " ("" :: h :: t))
      with (String " " (String.concat " " (h :: t))).
    now rewrite IH.
  - pose proof (Split_not_nil " " r) as Hne.
    destruct (strings.Split " " r) as [|h t]; [congruence|].
    destruct t as [|h' t].
    + simpl in *. now subst.
    + change (String.concat " " (String c h :: h' :: t))
        with (String c (String.concat " " (h :: h' :: t))).
      now rewrite IH.
Qed.

Lemma all_chars_impl (p q : ascii -> bool) s :
  (forall c, p c = true -> q c = true) ->
  all_chars p s = true -> all_chars q s = true.
Proof.
  intros Hpq; induction s as [|c r IH]; simpl; [easy|].
  rewrite !andb_true_iff; intros [Hc Hr]; auto.
Qed.

(** The pieces [Split] cuts hold the bytes of the text other than the
    separator. *)
Lemma Split_all_chars (p : ascii -> bool) sep s :
  all_chars (fun c => p c || Ascii.eqb c sep) s = true ->
  Forall (fun tok => all_chars (fun c => p c && negb (Ascii.eqb c sep)) tok = true)
         (strings.Split sep s).
Proof.
  induction s as [|c r IH]; simpl.
  - intros _; repeat constructor.
  - rewrite andb_true_iff; intros [Hc Hr]; specialize (IH Hr).
    destruct (Ascii.eqb c sep) eqn:Ec.
    + constructor; [reflexivity | exact IH].
    + destruct (strings.Split sep r) as [|h t].
      * repeat constructor; simpl. rewrite Ec, orb_false_r in *. now rewrite Hc.
      * inversion IH as [|? ? Hh Ht]; subst. constructor; [|exact Ht].
        simpl. rewrite Ec, orb_false_r in *. now rewrite Hc, Hh.
Qed.

Lemma replace_spaces_chars b s :
  all_chars (fun c => negb (regexp.isSpace c) || Ascii.eqb c " ")
            (regexp.replace_spaces b s) = true.
Proof.
  revert b; induction s as [|c r IH]; intros b; simpl; [reflexivity|].
  destruct (regexp.isSpace c) eqn:E.
  - destruct b; simpl; auto.
  - simpl. now rewrite E, IH.
Qed.

(** No token that [run] passes to the child holds white space. *)
Lemma tokens_no_space command :
  Forall (fun tok => all_chars (fun c => negb (regexp.isSpace c)) tok = true)
         (tokens command).
Proof.
  unfold tokens, regexp.spaces_ReplaceAllString.
  pose proof (Split_all_chars (fun c => negb (regexp.isSpace c)) " " _
                (replace_spaces_chars false command)) as H.
  eapply Forall_impl; [|exact H].
  intros tok Htok; cbv beta in Htok.
  eapply all_chars_impl; [|exact Htok].
  intros c Hc; cbv beta in Hc. now apply andb_true_iff in Hc.
Qed.

Lemma replace_spaces_run b run s :
  all_chars regexp.isSpace run = true ->
  regexp.replace_spaces true (run ++ s) = regexp.replace_spaces true s /\
  (run <> "" ->
   regexp.replace_spaces b (run ++ s)
   = (if b then "" else " ") ++ regexp.replace_spaces true s).
Proof.
  revert b; induction run as [|c r IH]; intros b; simpl.
  - intros _; split; [reflexivity | congruence].
  - rewrite andb_true_iff; intros [Hc Hr]. rewrite Hc.
    destruct (IH true Hr) as [IH1 _]. rewrite IH1.
    split; [reflexivity|]. intros _. now destruct b.
Qed.

Lemma replace_spaces_fresh s :
  starts_with_space s = false ->
  regexp.replace_spaces true s = regexp.replace_spaces false s.
Proof.
  destruct s as [|c r]; simpl; [reflexivity|]. now intros ->.
Qed.

Lemma all_chars_app p s1 s2 :
  all_chars p (s1 ++ s2) = all_chars p s1 && all_chars p s2.
Proof.
  induction s1 as [|c r IH]; simpl; [reflexivity|].
  now rewrite IH, andb_assoc.
Qed.

Lemma string_app_assoc (s1 s2 s3 : string) : (s1 ++ s2) ++ s3 = s1 ++ (s2 ++ s3).
Proof. induction s1 as [|c r IH]; simpl; [reflexivity | now rewrite IH]. Qed.

Lemma string_app_inv_head (a b c : string) : a ++ b = a ++ c -> b = c.
Proof. induction a as [|x a IH]; simpl; [easy|]. intros [= H]. exact (IH H). Qed.

(** [ReplaceAllString] does what [collapsed] says, and nothing else
    does. *)
Lemma replace_spaces_collapsed s :
  collapsed s (regexp.replace_spaces false s) /\
  (forall run, run <> "" -> all_chars regexp.isSpace run = true ->
               collapsed (run ++ s) (String " " (regexp.replace_spaces true s))).
Proof.
  induction s as [|c r [IH1 IH2]].
  - split; [constructor|].
    intros run Hne Hrun. apply collapsed_run; auto. constructor.
  - simpl. destruct (regexp.isSpace c) eqn:Ec.
    + split.
      * apply (IH2 (String c "")); [discriminate | simpl; now rewrite Ec].
      * intros run Hne Hrun.
        replace (run ++ String c r) with ((run ++ String c "") ++ r)
          by (now rewrite string_app_assoc).
        apply IH2.
        -- destruct run; discriminate.
        -- rewrite all_chars_app, Hrun. simpl. now rewrite Ec.
    + split.
      * now apply collapsed_char.
      * intros run Hne Hrun. apply collapsed_run; auto.
        now apply collapsed_char.
Qed.

Lemma collapsed_unique s r :
  collapsed s r -> r = regexp.spaces_ReplaceAllString s.
Proof.
  unfold regexp.spaces_ReplaceAllString.
  induction 1 as [|c s r Hc _ IH|run s r Hne Hrun Hs _ IH].
  - reflexivity.
  - simpl. now rewrite Hc, IH.
  - destruct (replace_spaces_run false run s Hrun) as [_ H2].
    rewrite (H2 Hne), (replace_spaces_fresh _ Hs), IH. reflexivity.
Qed.

(** The pattern [.*\.java$] matches the names that end in [.java]. *)
Lemma java_match_here_suffix s :
  regexp.java_match_here s = true -> strings.HasSuffix s ".java" = true.
Proof.
  induction s as [|c r IH]; cbn [regexp.java_match_here strings.HasSuffix].
  - simpl. discriminate.
  - rewrite !orb_true_iff, andb_true_iff.
    intros [H|[_ H]]; [left; exact H | right; exact (IH H)].
Qed.

Lemma javaFilename_MatchString_suffix s :
  regexp.javaFilename_MatchString s = strings.HasSuffix s ".java".
Proof.
  apply eq_true_iff_eq. split.
  - induction s as [|c r IH].
    + discriminate.
    + cbn [regexp.javaFilename_MatchString]. rewrite orb_true_iff. intros [H|H].
      * now apply java_match_here_suffix.
      * cbn [strings.HasSuffix]. rewrite (IH H). apply orb_true_r.
  - induction s as [|c r IH].
    + discriminate.
    + cbn [strings.HasSuffix regexp.javaFilename_MatchString].
      rewrite !orb_true_iff. intros [H|H].
      * left. cbn [regexp.java_match_here]. now rewrite H.
      * right. exact (IH H).
Qed.

(** ** The file system *)

Lemma find_remove_entry c es : tree.find_entry c (tree.remove_entry c es) = None.
Proof.
  induction es as [|[k v] rest IH]; simpl; [reflexivity|].
  destruct (String.eqb k c) eqn:E; simpl; [exact IH|].
  now rewrite E.
Qed.

Lemma find_put_entry c n es :
  tree.find_entry c (tree.put_entry c n es) = Some n.
Proof.
  induction es as [|[k v] rest IH]; simpl.
  - now rewrite String.eqb_refl.
  - destruct (String.eqb k c) eqn:E; simpl; now rewrite E.
Qed.

Lemma alter_deeper c c2 rest new es :
  tree.alter (c :: c2 :: rest) new (Dir es) =
  match tree.find_entry c es with
  | Some child =>
      match tree.alter (c2 :: rest) new child with
      | Some child' => Some (Dir (tree.put_entry c child' es))
      | None => None
      end
  | None => None
  end.
Proof. reflexivity. Qed.

(** What has been deleted is no longer there. *)
Lemma lookup_alter_None elems :
  forall d d', tree.alter elems None d = Some d' -> tree.lookup elems d' = None.
Proof.
  induction elems as [|c rest IH]; intros d d' H.
  - destruct d; discriminate.
  - destruct d as [|es]; [destruct rest; discriminate|].
    destruct rest as [|c2 rest].
    + simpl in H. injection H as <-. simpl. now rewrite find_remove_entry.
    + rewrite alter_deeper in H.
      destruct (tree.find_entry c es) as [child|]; [|discriminate].
      destruct (tree.alter (c2 :: rest) None child) as [child'|] eqn:E; [|discriminate].
      injection H as <-. cbn [tree.lookup]. rewrite find_put_entry.
      exact (IH _ _ E).
Qed.

(** ** System calls *)

Lemma bind_unfold {A B} (c : IO A) (k : A -> IO B) w :
  bind c k w = let (a, w') := c w in k a w'.
Proof. reflexivity. Qed.

Lemma sys_unfold {A} c (natural : World -> result A * node) w :
  sys c natural w =
  match fault w (trace w) c with
  | Some e => (Err (describe c ++ ": " ++ e), log (c, Some (describe c ++ ": " ++ e)) w)
  | None => (fst (natural w), set_disk (snd (natural w)) (log (c, error_of (fst (natural w))) w))
  end.
Proof. unfold sys. destruct (fault w (trace w) c); [reflexivity|]. now destruct (natural w). Qed.

(** A call that only reads adds one event to the world: its failure,
    when the environment fails it, and what it finds otherwise. *)
Lemma sys_read_cases {A} c (value : World -> result A) w :
  (exists e, fault w (trace w) c = Some e /\
             sys_read c value w
             = (Err (describe c ++ ": " ++ e),
                extend [(c, Some (describe c ++ ": " ++ e))] w)) \/
  (fault w (trace w) c = None /\
   sys_read c value w = (value w, extend [(c, error_of (value w))] w)).
Proof.
  unfold sys_read. rewrite sys_unfold. cbn [fst snd].
  destruct (fault w (trace w) c) as [e|].
  - left. exists e. split; reflexivity.
  - right. split; reflexivity.
Qed.

Lemma sys_read_extend {A} c (value : World -> result A) w :
  exists r, sys_read c value w = (r, extend [(c, error_of r)] w).
Proof.
  destruct (sys_read_cases c value w) as [[e [_ ->]]|[_ ->]].
  - now exists (Err (describe c ++ ": " ++ e)).
  - now exists (value w).
Qed.

Lemma extend_extend evs1 evs2 w :
  extend evs2 (extend evs1 w) = extend (evs1 ++ evs2) w.
Proof. unfold extend; simpl. now rewrite app_assoc. Qed.

Lemma extend_nil w : extend [] w = w.
Proof. unfold extend. rewrite app_nil_r. now destruct w. Qed.

Lemma Stat_extend p w :
  exists r, os.Stat p w = (r, extend [(SysStat p, error_of r)] w).
Proof.
  unfold os.Stat, os.stat_node. rewrite bind_unfold.
  destruct (sys_read_extend (SysStat p)
              (fun w => match tree.resolve (cwd w) p (disk w) with
                        | Some n => Ok (mkFileInfo (filepath.basename p) (tree.is_dir n), n)
                        | None => Err (describe (SysStat p) ++ ": " ++ ENOENT)
                        end) w) as [r ->].
  exists (os.info_of r). unfold ret. repeat f_equal.
  destruct r as [[i n]|e]; reflexivity.
Qed.

(** A removal that succeeds leaves nothing at that path: [os.Remove]
    for a file, [os.RemoveAll] for a directory and all below it. *)
Lemma Remove_gone p w w' :
  os.Remove p w = (None, w') -> tree.exists_ (cwd w') p (disk w') = false.
Proof.
  unfold os.Remove. rewrite bind_unfold, sys_unfold.
  destruct (fault w (trace w) (SysRemove p)); [discriminate|].
  unfold tree.exists_, tree.resolve.
  destruct (String.eqb p "") eqn:Ep; [intros; reflexivity|].
  destruct (tree.lookup (tree.elems (cwd w) p) (disk w)) as [n|] eqn:El;
    [|discriminate].
  assert (Hun : ret (error_of (fst (os.unlink (SysRemove p) p w)))
                    (set_disk (snd (os.unlink (SysRemove p) p w))
                       (log (SysRemove p, error_of (fst (os.unlink (SysRemove p) p w))) w))
                = (None, w') ->
                match tree.lookup (tree.elems (cwd w') p) (disk w') with
                | Some _ => true
                | None => false
                end = false).
  { unfold os.unlink.
    destruct (tree.alter (tree.elems (cwd w) p) None (disk w)) as [d|] eqn:Ea;
      [|discriminate].
    cbn [fst snd error_of ret]. intros H. injection H as <-.
    cbn [cwd disk set_disk log].
    now rewrite (lookup_alter_None _ _ _ Ea). }
  destruct n as [|[|e es]]; solve [exact Hun | discriminate].
Qed.

Lemma RemoveAll_gone p w w' :
  os.RemoveAll p w = (None, w') -> tree.exists_ (cwd w') p (disk w') = false.
Proof.
  unfold os.RemoveAll. rewrite bind_unfold, sys_unfold.
  destruct (fault w (trace w) (SysRemoveAll p)); [discriminate|].
  unfold tree.exists_, tree.resolve.
  destruct (String.eqb p "") eqn:Ep; [intros; reflexivity|].
  destruct (tree.lookup (tree.elems (cwd w) p) (disk w)) as [n|] eqn:El.
  - unfold os.unlink.
    destruct (tree.alter (tree.elems (cwd w) p) None (disk w)) as [d|] eqn:Ea;
      [|discriminate].
    cbn [fst snd error_of ret]. intros H. injection H as <-.
    cbn [cwd disk set_disk log].
    now rewrite (lookup_alter_None _ _ _ Ea).
  - cbn [fst snd error_of ret]. intros H. injection H as <-.
    cbn [cwd disk set_disk log]. now rewrite El.
Qed.

(** ** remove *)

Lemma remove_cons s rest w :
  remove (s :: rest) w =
  match os.Stat s w with
  | (Err err, w1) =>
      (Some ("could not stat file at '" ++ s ++ "' due to error: " ++ err ++ nl), w1)
  | (Ok f, w1) =>
      if IsDir f then
        match os.RemoveAll s w1 with
        | (Some err, w2) =>
            (Some ("could not remove directory at '" ++ s ++ "' due to error: " ++ err ++ nl), w2)
        | (None, w2) => remove rest w2
        end
      else
        match os.Remove s w1 with
        | (Some err, w2) => (Some err, w2)
        | (None, w2) => remove rest w2
        end
  end.
Proof.
  cbn [remove]. rewrite bind_unfold.
  destruct (os.Stat s w) as [[f|err] w1]; [|reflexivity].
  destruct (IsDir f); rewrite bind_unfold.
  - destruct (os.RemoveAll s w1) as [[err|] w2]; reflexivity.
  - destruct (os.Remove s w1) as [[err|] w2]; reflexivity.
Qed.

(** Once the first paths are removed, [remove] goes on with the rest. *)
Lemma remove_app l1 l2 :
  forall w w1, remove l1 w = (None, w1) -> remove (l1 ++ l2)%list w = remove l2 w1.
Proof.
  induction l1 as [|s rest IH]; intros w w1 H.
  - injection H as <-. reflexivity.
  - change ((s :: rest) ++ l2)%list with (s :: (rest ++ l2))%list.
    rewrite remove_cons in H |- *.
    destruct (os.Stat s w) as [[f|err] w2]; [|discriminate].
    destruct (IsDir f).
    + destruct (os.RemoveAll s w2) as [[err|] w3]; [discriminate|]. now apply IH.
    + destruct (os.Remove s w2) as [[err|] w3]; [discriminate|]. now apply IH.
Qed.

(** ** Paths *)

Lemma IsAbs_app a b : filepath.IsAbs a = true -> filepath.IsAbs (a ++ b) = true.
Proof.
  destruct a as [|c r]; [discriminate|]. exact (fun H => H).
Qed.

Lemma IsAbs_Clean p : filepath.IsAbs p = true -> filepath.IsAbs (filepath.Clean p) = true.
Proof. intros H. unfold filepath.Clean. now rewrite H. Qed.

Lemma IsAbs_Join a b : filepath.IsAbs a = true -> filepath.IsAbs (filepath.Join a b) = true.
Proof.
  intros H. unfold filepath.Join.
  destruct (String.eqb_spec a ""); [subst; discriminate|].
  destruct (String.eqb b ""); apply IsAbs_Clean; [exact H | now apply IsAbs_app].
Qed.

(** [filepath.Abs] of a rooted path makes no call and cannot fail. *)
Lemma Abs_rooted p w :
  filepath.IsAbs p = true -> filepath_io.Abs p w = (Ok (filepath.Clean p), w).
Proof. intros H. unfold filepath_io.Abs. now rewrite H. Qed.

(** [filepath.Abs] asks for the working directory at most, and what it
    returns is rooted when the working directory is. *)
Lemma Abs_extend p w :
  exists r evs,
    filepath_io.Abs p w = (r, extend evs w) /\
    Forall (fun e => fst e = SysGetwd) evs /\
    (filepath.IsAbs (cwd w) = true ->
     forall q, r = Ok q -> filepath.IsAbs q = true).
Proof.
  unfold filepath_io.Abs. destruct (filepath.IsAbs p) eqn:Hp.
  - exists (Ok (filepath.Clean p)), []. rewrite extend_nil. repeat split; auto.
    intros _ q [= <-]. now apply IsAbs_Clean.
  - rewrite bind_unfold. unfold os.Getwd.
    destruct (sys_read_cases SysGetwd (fun w => Ok (cwd w)) w)
      as [[e [_ ->]]|[_ ->]].
    + eexists _, [_]. split; [reflexivity|]. split; [repeat constructor|].
      intros _ q [=].
    + eexists _, [_]. split; [reflexivity|]. split; [repeat constructor|].
      intros Hcwd q [= <-]. now apply IsAbs_Join.
Qed.

(** ** Reading a directory *)

(** In a world without faults of the environment, a directory that is
    there can be opened and read. *)
Lemma listing_fault_free p w es :
  fault w (trace w) (SysOpen p) = None ->
  fault w (trace w ++ [(SysOpen p, None)])%list (SysReaddir p) = None ->
  tree.resolve (cwd w) p (disk w) = Some (Dir es) ->
  os.Open p w = (Ok (mkFile p (tree.elems (cwd w) p)), extend [(SysOpen p, None)] w) /\
  os.Readdir (mkFile p (tree.elems (cwd w) p)) (extend [(SysOpen p, None)] w)
  = (Ok (map info_of_entry es),
     extend [(SysOpen p, None); (SysReaddir p, None)] w).
Proof.
  intros Hf1 Hf2 Hes. split.
  - unfold os.Open.
    match goal with
    | |- sys_read ?c ?v w = _ =>
        destruct (sys_read_cases c v w) as [[e [He _]]|[_ ->]]
    end; [congruence|].
    now rewrite Hes.
  - unfold os.Readdir. cbn [file_Name file_elems].
    match goal with
    | |- sys_read ?c ?v ?w1 = _ =>
        destruct (sys_read_cases c v w1) as [[e [He _]]|[_ ->]]
    end; [cbn [fault trace extend] in He; congruence|].
    cbn [disk extend]. rewrite extend_extend. cbn [app].
    unfold tree.resolve in Hes. destruct (String.eqb p ""); [discriminate|].
    now rewrite Hes.
Qed.

Lemma nth_last {A} (l : list A) d : nth (List.length l - 1) l d = last l d.
Proof.
  induction l as [|a l IH]; [reflexivity|].
  destruct l as [|b l]; [reflexivity|].
  cbn [List.length] in *. rewrite Nat.sub_1_r in *. cbn [Nat.pred] in *.
  change (nth (S (List.length l)) (a :: b :: l) d) with (nth (List.length l) (b :: l) d).
  rewrite IH. reflexivity.
Qed.

Lemma last_map {A B} (f : A -> B) l d : last (map f l) (f d) = f (last l d).
Proof.
  induction l as [|a l IH]; [reflexivity|].
  destruct l as [|b l]; [reflexivity|]. exact IH.
Qed.

(** The entry the program takes from a listing: the last one. *)
Lemma name_at_last es :
  name_at (map info_of_entry es) (List.length (map info_of_entry es) - 1)
  = last (map fst es) "".
Proof.
  unfold name_at. rewrite nth_last.
  change (mkFileInfo "" false) with (info_of_entry ("", File)).
  rewrite last_map.
  change "" with (fst ("", File)) at 2. now rewrite last_map.
Qed.

(** The last name of an ascending listing is the greatest. *)
Lemma ascending_last names :
  names <> [] -> ascending names -> selects_greatest names (last names "").
Proof.
  intros Hne Hs. split.
  - destruct (exists_last Hne) as (l & a & ->). rewrite last_last.
    apply in_or_app. right. now left.
  - induction Hs as [|a l Hs IH Ha]; [contradiction|].
    intros n [->|Hn].
    + destruct l as [|b l].
      * simpl. now destruct (String.leb_total n n).
      * rewrite Forall_forall in Ha. apply Ha.
        destruct (@exists_last _ (b :: l)) as (l' & z & E); [discriminate|].
        change (last (n :: b :: l) "") with (last (b :: l) "").
        rewrite E, last_last. apply in_or_app. right. now left.
    + destruct l as [|b l]; [contradiction|].
      change (last (a :: b :: l) "") with (last (b :: l) "").
      apply IH; [discriminate | exact Hn].
Qed.

(** ** The toolchain *)

(** From a rooted SDK path on, every [filepath.Abs] of the resolution
    is applied to a rooted path: it makes no call and cannot fail, and
    the resolution amounts to reading one directory. *)
Lemma initBuildTools_rooted t w :
  filepath.IsAbs (sdk t) = true ->
  initBuildTools t w =
  let p := sdk t ++ "/build-tools" in
  match os.Open p w with
  | (Err err, w1) =>
      ((t, Some ("could not find build-tools found under '" ++ p
                   ++ "' due to error: " ++ err)), w1)
  | (Ok d, w1) =>
      match os.Readdir d w1 with
      | (Err err, w2) =>
          ((t, Some ("could not read build-tools dir under '" ++ p
                       ++ "' due to error: " ++ err)), w2)
      | (Ok ff, w2) =>
          if Nat.ltb (List.length ff) 1 then
            ((t, Some ("no build tools found under '" ++ itoa (List.length ff) ++ "'")), w2)
          else
            let bt := filepath.Clean (p ++ "/" ++ name_at ff (List.length ff - 1)) in
            ((mkToolchain (sdk t) bt (platform t) (androidLib t)
                          (filepath.Clean (bt ++ "/aapt"))
                          (filepath.Clean (bt ++ "/dx")), None), w2)
      end
  end.
Proof.
  intros Hsdk. unfold initBuildTools. cbv zeta.
  rewrite bind_unfold, Abs_rooted by (now apply IsAbs_app).
  rewrite bind_unfold.
  destruct (os.Open (sdk t ++ "/build-tools") w) as [[d|err] w1]; [|reflexivity].
  rewrite bind_unfold.
  destruct (os.Readdir d w1) as [[ff|err] w2]; [|reflexivity].
  destruct (Nat.ltb (List.length ff) 1); [reflexivity|].
  rewrite bind_unfold, Abs_rooted by (now repeat apply IsAbs_app).
  cbn [value set_buildTools buildTools].
  rewrite bind_unfold, Abs_rooted
    by (apply IsAbs_app, IsAbs_Clean; now repeat apply IsAbs_app).
  cbn [value set_aaptBin buildTools].
  rewrite bind_unfold, Abs_rooted
    by (apply IsAbs_app, IsAbs_Clean; now repeat apply IsAbs_app).
  reflexivity.
Qed.

Lemma initPlatforms_rooted t w :
  filepath.IsAbs (sdk t) = true ->
  initPlatforms t w =
  let p := sdk t ++ "/platforms" in
  match os.Open p w with
  | (Err err, w1) =>
      ((t, Some ("could not find platforms under '" ++ p ++ "' due to error: " ++ err)), w1)
  | (Ok d, w1) =>
      match os.Readdir d w1 with
      | (Err err, w2) =>
          ((t, Some ("could not find platforms under '" ++ p
                       ++ "' due to error: " ++ err)), w2)
      | (Ok ff, w2) =>
          if Nat.ltb (List.length ff) 1 then
            ((t, Some ("no contents found in platform dir found under '"
                         ++ file_Name d ++ "'")), w2)
          else
            let pf := filepath.Clean (p ++ "/" ++ name_at ff (List.length ff - 1)) in
            ((mkToolchain (sdk t) (buildTools t) pf
                          (filepath.Clean (pf ++ "/android.jar"))
                          (aaptBin t) (dxBin t), None), w2)
      end
  end.
Proof.
  intros Hsdk. unfold initPlatforms. cbv zeta.
  rewrite bind_unfold, Abs_rooted by (now apply IsAbs_app).
  rewrite bind_unfold.
  destruct (os.Open (sdk t ++ "/platforms") w) as [[d|err] w1]; [|reflexivity].
  rewrite bind_unfold.
  destruct (os.Readdir d w1) as [[ff|err] w2]; [|reflexivity].
  destruct (Nat.ltb (List.length ff) 1); [reflexivity|].
  rewrite bind_unfold, Abs_rooted by (now repeat apply IsAbs_app).
  cbn [value set_platform platform].
  rewrite bind_unfold, Abs_rooted
    by (apply IsAbs_app, IsAbs_Clean; now repeat apply IsAbs_app).
  reflexivity.
Qed.

(** [newToolchain], once the SDK path has been made absolute. *)
Lemma newToolchain_rooted SDKPath w root w1 :
  filepath.IsAbs (cwd w) = true ->
  filepath_io.Abs SDKPath w = (Ok root, w1) ->
  newToolchain SDKPath w =
  match initBuildTools (mkToolchain root "" "" "" "" "") w1 with
  | ((t, Some err), w2) => ((t, Some (err ++ nl ++ hint SDKPath)), w2)
  | ((t, None), w2) =>
      match initPlatforms t w2 with
      | ((t, Some err), w3) => ((t, Some (err ++ nl ++ hint SDKPath)), w3)
      | ((t, None), w3) => ((t, None), w3)
      end
  end /\
  filepath.IsAbs root = true /\
  exists evs, w1 = extend evs w /\ Forall (fun e => fst e = SysGetwd) evs.
Proof.
  intros Hcwd HA.
  destruct (Abs_extend SDKPath w) as (r & evs & HA' & Hevs & Hroot).
  rewrite HA in HA'. injection HA' as <- ->.
  specialize (Hroot Hcwd root eq_refl).
  split; [|split; [exact Hroot | now exists evs]].
  unfold newToolchain. rewrite bind_unfold, HA.
  unfold set_sdk. cbn [value sdk buildTools platform androidLib aaptBin dxBin].
  rewrite bind_unfold, Abs_rooted by (now apply IsAbs_app).
  rewrite bind_unfold.
  destruct (initBuildTools (mkToolchain root "" "" "" "" "") (extend evs w))
    as [[t [err|]] w2]; [reflexivity|].
  rewrite bind_unfold.
  destruct (initPlatforms t w2) as [[t' [err|]] w3]; reflexivity.
Qed.

Lemma fault_free_extend evs w : fault_free w -> fault_free (extend evs w).
Proof. exact (fun H => H). Qed.

Lemma dir_listing_Some w p names :
  dir_listing w p = Some names ->
  exists es, tree.resolve (cwd w) p (disk w) = Some (Dir es) /\ names = map fst es.
Proof.
  unfold dir_listing.
  destruct (tree.resolve (cwd w) p (disk w)) as [[|es]|]; try discriminate.
  intros [= <-]. now exists es.
Qed.

(** Without faults of the environment, the build tools are those of the
    last entry of the directory as it is read. *)
Lemma initBuildTools_fault_free t w names :
  filepath.IsAbs (sdk t) = true ->
  fault_free w ->
  dir_listing w (sdk t ++ "/build-tools") = Some names ->
  initBuildTools t w =
  (match names with
   | [] => (t, Some "no build tools found under '0'")
   | _ :: _ =>
       let bt := filepath.Clean (sdk t ++ "/build-tools" ++ "/" ++ last names "") in
       (mkToolchain (sdk t) bt (platform t) (androidLib t)
                    (filepath.Clean (bt ++ "/aapt")) (filepath.Clean (bt ++ "/dx")),
        None)
   end,
   extend [(SysOpen (sdk t ++ "/build-tools"), None);
           (SysReaddir (sdk t ++ "/build-tools"), None)] w).
Proof.
  intros Hsdk Hff Hl. apply dir_listing_Some in Hl. destruct Hl as (es & Hes & ->).
  rewrite initBuildTools_rooted by exact Hsdk. cbv zeta.
  destruct (listing_fault_free (sdk t ++ "/build-tools") w es (Hff _ _) (Hff _ _) Hes)
    as [-> ->].
  destruct es as [|e es]; [reflexivity|].
  change (Nat.ltb (List.length (map info_of_entry (e :: es))) 1) with false.
  cbv iota. rewrite name_at_last. rewrite string_app_assoc. reflexivity.
Qed.

Lemma initPlatforms_fault_free t w names :
  filepath.IsAbs (sdk t) = true ->
  fault_free w ->
  dir_listing w (sdk t ++ "/platforms") = Some names ->
  initPlatforms t w =
  (match names with
   | [] => (t, Some ("no contents found in platform dir found under '"
                       ++ (sdk t ++ "/platforms") ++ "'"))
   | _ :: _ =>
       let pf := filepath.Clean (sdk t ++ "/platforms" ++ "/" ++ last names "") in
       (mkToolchain (sdk t) (buildTools t) pf (filepath.Clean (pf ++ "/android.jar"))
                    (aaptBin t) (dxBin t),
        None)
   end,
   extend [(SysOpen (sdk t ++ "/platforms"), None);
           (SysReaddir (sdk t ++ "/platforms"), None)] w).
Proof.
  intros Hsdk Hff Hl. apply dir_listing_Some in Hl. destruct Hl as (es & Hes & ->).
  rewrite initPlatforms_rooted by exact Hsdk. cbv zeta.
  destruct (listing_fault_free (sdk t ++ "/platforms") w es (Hff _ _) (Hff _ _) Hes)
    as [-> ->].
  destruct es as [|e es]; [reflexivity|].
  change (Nat.ltb (List.length (map info_of_entry (e :: es))) 1) with false.
  cbv iota. rewrite name_at_last. rewrite string_app_assoc. reflexivity.
Qed.

(** ** Claims about the toolchain *)

(** C7.  An SDK whose build-tools directory is there and holds no entry:
    resolution fails with the error of the empty build-tools directory,
    and it has then opened and read that directory and nothing else; in
    particular it has not opened the platforms directory, and the
    platform fields of the toolchain are still empty. *)
Theorem empty_build_tools_fails_before_platforms SDKPath w root w1 :
  filepath.IsAbs (cwd w) = true ->
  fault_free w ->
  filepath_io.Abs SDKPath w = (Ok root, w1) ->
  dir_listing w (root ++ "/build-tools") = Some [] ->
  newToolchain SDKPath w
  = ((mkToolchain root "" "" "" "" "",
      Some ("no build tools found under '0'" ++ nl ++ hint SDKPath)),
     extend [(SysOpen (root ++ "/build-tools"), None);
             (SysReaddir (root ++ "/build-tools"), None)] w1) /\
  exists evs,
    snd (newToolchain SDKPath w) = extend evs w /\
    Forall (fun e => fst e <> SysOpen (root ++ "/platforms")
                     /\ fst e <> SysReaddir (root ++ "/platforms")) evs.
Proof.
  intros Hcwd Hff HA Hl.
  destruct (newToolchain_rooted SDKPath w root w1 Hcwd HA) as (Heq & Hroot & evs & -> & Hevs).
  rewrite Heq.
  rewrite (initBuildTools_fault_free (mkToolchain root "" "" "" "" "") (extend evs w) []
             Hroot (fault_free_extend evs w Hff) Hl).
  split; [reflexivity|].
  cbn [snd]. rewrite extend_extend. eexists; split; [reflexivity|].
  apply Forall_app. split.
  - eapply Forall_impl; [|exact Hevs]. intros e ->. split; discriminate.
  - repeat constructor; cbn [fst]; intros [= H];
      apply string_app_inv_head in H; discriminate.
Qed.

Lemma empty_build_tools_witness :
  newToolchain "/sdk" world_no_build_tools
  = ((mkToolchain "/sdk" "" "" "" "" "",
      Some ("no build tools found under '0'" ++ nl ++ hint "/sdk")),
     extend [(SysOpen ("/sdk" ++ "/build-tools"), None);
             (SysReaddir ("/sdk" ++ "/build-tools"), None)] world_no_build_tools) /\
  exists evs,
    snd (newToolchain "/sdk" world_no_build_tools) = extend evs world_no_build_tools /\
    Forall (fun e => fst e <> SysOpen ("/sdk" ++ "/platforms")
                     /\ fst e <> SysReaddir ("/sdk" ++ "/platforms")) evs.
Proof.
  apply (empty_build_tools_fails_before_platforms
           "/sdk" world_no_build_tools "/sdk" world_no_build_tools).
  - reflexivity.
  - intros tr c. reflexivity.
  - reflexivity.
  - reflexivity.
Defined.

(** C1 (amended).  An SDK whose build-tools and platforms directories
    are there and not empty, in a world without faults of the
    environment: resolution succeeds and takes, in each directory, the
    last entry of the listing as the directory read returns it.  That
    entry is the one whose name is greatest in byte-wise order when the
    listing is in ascending order. *)
Theorem resolution_selects_last_listed SDKPath w root w1 bts pfs :
  filepath.IsAbs (cwd w) = true ->
  fault_free w ->
  filepath_io.Abs SDKPath w = (Ok root, w1) ->
  dir_listing w (root ++ "/build-tools") = Some bts -> bts <> [] ->
  dir_listing w (root ++ "/platforms") = Some pfs -> pfs <> [] ->
  exists t w',
    newToolchain SDKPath w = ((t, None), w') /\
    sdk t = root /\
    buildTools t = filepath.Clean (root ++ "/build-tools" ++ "/" ++ last bts "") /\
    platform t = filepath.Clean (root ++ "/platforms" ++ "/" ++ last pfs "") /\
    (ascending bts -> selects_greatest bts (last bts "")) /\
    (ascending pfs -> selects_greatest pfs (last pfs "")).
Proof.
  intros Hcwd Hff HA Hb Hbne Hp Hpne.
  destruct (newToolchain_rooted SDKPath w root w1 Hcwd HA) as (Heq & Hroot & evs & -> & _).
  rewrite Heq.
  rewrite (initBuildTools_fault_free (mkToolchain root "" "" "" "" "") (extend evs w) bts
             Hroot (fault_free_extend evs w Hff) Hb).
  destruct bts as [|b bts]; [congruence|].
  cbv zeta. cbn [sdk buildTools platform androidLib aaptBin dxBin]. cbv beta iota.
  match goal with
  | |- context [initPlatforms ?t ?w2] =>
      rewrite (initPlatforms_fault_free t w2 pfs Hroot
                 (fault_free_extend _ _ (fault_free_extend evs w Hff)) Hp)
  end.
  destruct pfs as [|p pfs]; [congruence|].
  cbv zeta. cbn [sdk buildTools platform androidLib aaptBin dxBin]. cbv beta iota.
  eexists _, _. split; [reflexivity|].
  cbn [sdk buildTools platform].
  repeat split; auto using ascending_last.
  all: intros; now apply ascending_last.
Qed.

Lemma resolution_selects_last_listed_witness :
  exists t w',
    newToolchain "/sdk" Sample.world = ((t, None), w') /\
    sdk t = "/sdk" /\
    buildTools t
    = filepath.Clean ("/sdk" ++ "/build-tools" ++ "/" ++ last ["28.0.3"; "29.0.2"; "30.0.1"] "") /\
    platform t
    = filepath.Clean ("/sdk" ++ "/platforms" ++ "/" ++ last ["android-28"; "android-29"] "") /\
    (ascending ["28.0.3"; "29.0.2"; "30.0.1"] ->
     selects_greatest ["28.0.3"; "29.0.2"; "30.0.1"] (last ["28.0.3"; "29.0.2"; "30.0.1"] "")) /\
    (ascending ["android-28"; "android-29"] ->
     selects_greatest ["android-28"; "android-29"] (last ["android-28"; "android-29"] "")).
Proof.
  apply (resolution_selects_last_listed "/sdk" Sample.world "/sdk" Sample.world).
  - reflexivity.
  - intros tr c. reflexivity.
  - reflexivity.
  - reflexivity.
  - discriminate.
  - reflexivity.
  - discriminate.
Defined.

(** C1 as it is written fails: the file system lists the versions
    30.0.1, 29.0.2, 28.0.3 in that order; resolution takes the last one
    listed, 28.0.3, and 30.0.1 is greater. *)
Lemma resolution_not_greatest :
  exists t w',
    newToolchain "/sdk" world_unsorted = ((t, None), w') /\
    dir_listing world_unsorted "/sdk/build-tools" = Some ["30.0.1"; "29.0.2"; "28.0.3"] /\
    buildTools t = "/sdk/build-tools/28.0.3" /\
    ~ selects_greatest ["30.0.1"; "29.0.2"; "28.0.3"] "28.0.3".
Proof.
  exists (fst (fst (newToolchain "/sdk" world_unsorted))),
         (snd (newToolchain "/sdk" world_unsorted)).
  split; [vm_compute; reflexivity|]. split; [vm_compute; reflexivity|].
  split; [vm_compute; reflexivity|].
  intros [_ H]. specialize (H "30.0.1" (or_introl eq_refl)). discriminate H.
Qed.

(** C5 on the code: the version directories of this SDK hold nothing;
    resolution succeeds all the same, and the paths it returns for the
    resource compiler, the bytecode translator and the base library
    name nothing that exists. *)
Theorem resolved_tools_need_not_exist :
  exists t w',
    newToolchain "/sdk" world_hollow = ((t, None), w') /\
    aaptBin t = "/sdk/build-tools/28.0.3/aapt" /\
    dxBin t = "/sdk/build-tools/28.0.3/dx" /\
    androidLib t = "/sdk/platforms/android-28/android.jar" /\
    tree.exists_ (cwd world_hollow) (aaptBin t) (disk world_hollow) = false /\
    tree.exists_ (cwd world_hollow) (dxBin t) (disk world_hollow) = false /\
    tree.exists_ (cwd world_hollow) (androidLib t) (disk world_hollow) = false /\
    disk w' = disk world_hollow.
Proof.
  exists (fst (fst (newToolchain "/sdk" world_hollow))),
         (snd (newToolchain "/sdk" world_hollow)).
  repeat split; vm_compute; reflexivity.
Qed.

(** ** Claims about the cleanup *)

Lemma Stat_cases p w :
  exists r,
    os.Stat p w = (r, extend [(SysStat p, error_of r)] w) /\
    forall f, r = Ok f ->
              exists n, tree.resolve (cwd w) p (disk w) = Some n /\ IsDir f = tree.is_dir n.
Proof.
  unfold os.Stat, os.stat_node. rewrite bind_unfold.
  match goal with
  | |- context [sys_read ?c ?v w] =>
      destruct (sys_read_cases c v w) as [[e [_ ->]]|[_ ->]]
  end.
  - eexists (Err _). split; [reflexivity | discriminate].
  - destruct (tree.resolve (cwd w) p (disk w)) as [n|].
    + eexists (Ok _). split; [reflexivity|]. intros f [= <-]. now exists n.
    + eexists (Err _). split; [reflexivity | discriminate].
Qed.

(** C8.  Once the paths [l1] have been removed, the cleanup of [s] and
    of the later paths [l2] goes as follows.  The path [s] is stat-ed
    first.  If the stat fails, the cleanup returns the error of the stat
    in the world the stat left: nothing is attempted on [l2].  If the
    stat succeeds and the entry is a directory, [os.RemoveAll] is called
    on it, and when that succeeds the path is gone and the cleanup goes
    on with [l2]; otherwise [os.Remove] is called on it, with the same
    consequences. *)
Theorem remove_stats_then_removes l1 s l2 w w1 :
  remove l1 w = (None, w1) ->
  exists r,
    os.Stat s w1 = (r, extend [(SysStat s, error_of r)] w1) /\
    match r with
    | Err err =>
        remove (l1 ++ s :: l2)%list w
        = (Some ("could not stat file at '" ++ s ++ "' due to error: " ++ err ++ nl),
           extend [(SysStat s, error_of r)] w1)
    | Ok f =>
        exists n,
          tree.resolve (cwd w1) s (disk w1) = Some n /\
          if tree.is_dir n then
            remove (l1 ++ s :: l2)%list w
            = match os.RemoveAll s (extend [(SysStat s, error_of r)] w1) with
              | (Some err, w3) =>
                  (Some ("could not remove directory at '" ++ s
                           ++ "' due to error: " ++ err ++ nl), w3)
              | (None, w3) => remove l2 w3
              end /\
            forall w3, os.RemoveAll s (extend [(SysStat s, error_of r)] w1) = (None, w3) ->
                       tree.exists_ (cwd w3) s (disk w3) = false
          else
            remove (l1 ++ s :: l2)%list w
            = match os.Remove s (extend [(SysStat s, error_of r)] w1) with
              | (Some err, w3) => (Some err, w3)
              | (None, w3) => remove l2 w3
              end /\
            forall w3, os.Remove s (extend [(SysStat s, error_of r)] w1) = (None, w3) ->
                       tree.exists_ (cwd w3) s (disk w3) = false
    end.
Proof.
  intros H1. rewrite (remove_app l1 (s :: l2) w w1 H1), remove_cons.
  destruct (Stat_cases s w1) as (r & HS & Hdir). exists r. rewrite HS.
  split; [reflexivity|].
  destruct r as [f|err]; [|reflexivity].
  destruct (Hdir f eq_refl) as (n & Hn & Hf). exists n. split; [exact Hn|].
  rewrite Hf. destruct (tree.is_dir n).
  - split; [reflexivity|]. intros w3. apply RemoveAll_gone.
  - split; [reflexivity|]. intros w3. apply Remove_gone.
Qed.

Lemma remove_stats_then_removes_witness :
  exists r,
    os.Stat "generated_java_sources"
            (snd (remove ["classes.dex"; "app.apk.unaligned"] world_built))
    = (r, extend [(SysStat "generated_java_sources", error_of r)]
                 (snd (remove ["classes.dex"; "app.apk.unaligned"] world_built))) /\
    match r with
    | Err err =>
        remove (["classes.dex"; "app.apk.unaligned"]
                  ++ "generated_java_sources" :: ["java_virtual_machine_bytecode"])%list
               world_built
        = (Some ("could not stat file at '" ++ "generated_java_sources"
                   ++ "' due to error: " ++ err ++ nl),
           extend [(SysStat "generated_java_sources", error_of r)]
                  (snd (remove ["classes.dex"; "app.apk.unaligned"] world_built)))
    | Ok f =>
        exists n,
          tree.resolve (cwd (snd (remove ["classes.dex"; "app.apk.unaligned"] world_built)))
                       "generated_java_sources"
                       (disk (snd (remove ["classes.dex"; "app.apk.unaligned"] world_built)))
          = Some n /\
          if tree.is_dir n then
            remove (["classes.dex"; "app.apk.unaligned"]
                      ++ "generated_java_sources" :: ["java_virtual_machine_bytecode"])%list
                   world_built
            = match os.RemoveAll "generated_java_sources"
                      (extend [(SysStat "generated_java_sources", error_of r)]
                         (snd (remove ["classes.dex"; "app.apk.unaligned"] world_built))) with
              | (Some err, w3) =>
                  (Some ("could not remove directory at '" ++ "generated_java_sources"
                           ++ "' due to error: " ++ err ++ nl), w3)
              | (None, w3) => remove ["java_virtual_machine_bytecode"] w3
              end /\
            forall w3,
              os.RemoveAll "generated_java_sources"
                (extend [(SysStat "generated_java_sources", error_of r)]
                   (snd (remove ["classes.dex"; "app.apk.unaligned"] world_built)))
              = (None, w3) ->
              tree.exists_ (cwd w3) "generated_java_sources" (disk w3) = false
          else
            remove (["classes.dex"; "app.apk.unaligned"]
                      ++ "generated_java_sources" :: ["java_virtual_machine_bytecode"])%list
                   world_built
            = match os.Remove "generated_java_sources"
                      (extend [(SysStat "generated_java_sources", error_of r)]
                         (snd (remove ["classes.dex"; "app.apk.unaligned"] world_built))) with
              | (Some err, w3) => (Some err, w3)
              | (None, w3) => remove ["java_virtual_machine_bytecode"] w3
              end /\
            forall w3,
              os.Remove "generated_java_sources"
                (extend [(SysStat "generated_java_sources", error_of r)]
                   (snd (remove ["classes.dex"; "app.apk.unaligned"] world_built)))
              = (None, w3) ->
              tree.exists_ (cwd w3) "generated_java_sources" (disk w3) = false
    end.
Proof.
  apply (remove_stats_then_removes
           ["classes.dex"; "app.apk.unaligned"] "generated_java_sources"
           ["java_virtual_machine_bytecode"] world_built).
  vm_compute. reflexivity.
Defined.

(** ** The order of names *)

Lemma ascii_compare_lt_trans a b c :
  Ascii.compare a b = Lt -> Ascii.compare b c = Lt -> Ascii.compare a c = Lt.
Proof. unfold Ascii.compare. rewrite !N.compare_lt_iff. apply N.lt_trans. Qed.

Lemma ascii_compare_refl a : Ascii.compare a a = Eq.
Proof. apply N.compare_refl. Qed.

Lemma string_compare_lt_trans s1 :
  forall s2 s3, String.compare s1 s2 = Lt -> String.compare s2 s3 = Lt ->
                String.compare s1 s3 = Lt.
Proof.
  induction s1 as [|a s1 IH]; intros [|b s2] [|c s3]; simpl; try easy.
  destruct (Ascii.compare a b) eqn:Eab; try discriminate;
    destruct (Ascii.compare b c) eqn:Ebc; try discriminate; intros H1 H2.
  - apply Ascii.compare_eq_iff in Eab, Ebc. subst.
    rewrite ascii_compare_refl. eauto.
  - apply Ascii.compare_eq_iff in Eab. subst. now rewrite Ebc.
  - apply Ascii.compare_eq_iff in Ebc. subst. now rewrite Eab.
  - now rewrite (ascii_compare_lt_trans a b c Eab Ebc).
Qed.

Lemma ltb_trans a b c :
  String.ltb a b = true -> String.ltb b c = true -> String.ltb a c = true.
Proof.
  unfold String.ltb.
  destruct (String.compare a b) eqn:E1; try discriminate.
  destruct (String.compare b c) eqn:E2; try discriminate.
  now rewrite (string_compare_lt_trans a b c E1 E2).
Qed.

Lemma ltb_asym a b : String.ltb a b = true -> String.ltb b a = false.
Proof.
  unfold String.ltb. rewrite (String.compare_antisym b a).
  now destruct (String.compare a b).
Qed.

Lemma ltb_total a b : a <> b -> String.ltb a b = false -> String.ltb b a = true.
Proof.
  unfold String.ltb. rewrite (String.compare_antisym b a).
  destruct (String.compare a b) eqn:E; try easy.
  apply String.compare_eq_iff in E. congruence.
Qed.

(** ** Sorting by name *)

Section Sorting.

Context {A : Type}.
Implicit Types (x y : string * A) (l : list (string * A)).

Lemma insert_comm x y l :
  fst x <> fst y ->
  sort.insert x (sort.insert y l) = sort.insert y (sort.insert x l).
Proof.
  intros Hxy. induction l as [|z l IH]; cbn [sort.insert].
  - destruct (String.ltb (fst x) (fst y)) eqn:Exy.
    + now rewrite (ltb_asym _ _ Exy).
    + now rewrite (ltb_total _ _ Hxy Exy).
  - destruct (String.ltb (fst y) (fst z)) eqn:Eyz;
      destruct (String.ltb (fst x) (fst z)) eqn:Exz; cbn [sort.insert].
    + destruct (String.ltb (fst x) (fst y)) eqn:Exy.
      * now rewrite (ltb_asym _ _ Exy), Eyz.
      * now rewrite (ltb_total _ _ Hxy Exy), Exz.
    + rewrite Eyz.
      destruct (String.ltb (fst x) (fst y)) eqn:Exy.
      * now rewrite (ltb_trans _ _ _ Exy Eyz) in Exz.
      * now rewrite Exz.
    + rewrite Exz.
      destruct (String.ltb (fst y) (fst x)) eqn:Eyx.
      * now rewrite (ltb_trans _ _ _ Eyx Exz) in Eyz.
      * now rewrite Eyz.
    + now rewrite Exz, Eyz, IH.
Qed.

Lemma Forall_insert (P : string * A -> Prop) x l :
  P x -> Forall P l -> Forall P (sort.insert x l).
Proof.
  intros Hx. induction 1 as [|y l Hy Hl IH]; cbn [sort.insert].
  - now repeat constructor.
  - destruct (String.ltb (fst x) (fst y)); repeat constructor; auto.
Qed.

Lemma Forall_by_name (P : string * A -> Prop) l :
  Forall P l -> Forall P (sort.by_name l).
Proof.
  induction 1 as [|x l Hx Hl IH]; [constructor|].
  now apply Forall_insert.
Qed.

Lemma In_insert x y l : In y (sort.insert x l) <-> y = x \/ In y l.
Proof.
  induction l as [|z l IH]; cbn [sort.insert].
  - simpl. intuition.
  - destruct (String.ltb (fst x) (fst z)); simpl in *; intuition.
Qed.

Lemma In_by_name y l : In y (sort.by_name l) <-> In y l.
Proof.
  induction l as [|x l IH]; [reflexivity|].
  cbn [sort.by_name fold_right]. fold (sort.by_name l).
  rewrite In_insert, IH. simpl. intuition.
Qed.

End Sorting.

Lemma insert_map {A B} (f : A -> B) (x : string * A) l :
  sort.insert (fst x, f (snd x)) (map (fun e => (fst e, f (snd e))) l)
  = map (fun e => (fst e, f (snd e))) (sort.insert x l).
Proof.
  induction l as [|y l IH]; [reflexivity|].
  cbn [sort.insert map fst]. destruct (String.ltb (fst x) (fst y)).
  - reflexivity.
  - cbn [map]. now rewrite IH.
Qed.

(** Sorting looks at the names only. *)
Lemma by_name_map {A B} (f : A -> B) (l : list (string * A)) :
  sort.by_name (map (fun e => (fst e, f (snd e))) l)
  = map (fun e => (fst e, f (snd e))) (sort.by_name l).
Proof.
  induction l as [|x l IH]; [reflexivity|].
  cbn [map sort.by_name fold_right]. fold (sort.by_name l).
  fold (sort.by_name (map (fun e => (fst e, f (snd e))) l)).
  now rewrite IH, insert_map.
Qed.

(** Insertion keeps two lists related entry by entry, when the relation
    says that related entries have the same name. *)
Lemma Forall2_insert {A B} (R : string * A -> string * B -> Prop) x y l1 l2 :
  (forall a b, R a b -> fst a = fst b) ->
  R x y -> Forall2 R l1 l2 -> Forall2 R (sort.insert x l1) (sort.insert y l2).
Proof.
  intros Hname Hxy. induction 1 as [|a b l1 l2 Hab Hl IH]; cbn [sort.insert].
  - now repeat constructor.
  - rewrite <- (Hname _ _ Hxy), <- (Hname _ _ Hab).
    destruct (String.ltb (fst x) (fst a)); repeat constructor; auto.
Qed.

(** ** The walk *)

Lemma java_paths_Dir es path name :
  java_paths (Dir es) path name = java_paths_entries path (sort.by_name es).
Proof.
  cbn [java_paths].
  rewrite (map_ext _ (fun e => (fst e, java_paths (snd e))))
    by (intros []; reflexivity).
  rewrite by_name_map. unfold java_paths_entries.
  induction (sort.by_name es) as [|e l IH]; [reflexivity|].
  cbn [map flat_map fst snd]. now rewrite IH.
Qed.

Lemma walk_Dir {S} (walkFn : string -> option FileInfo -> error -> S -> S * error)
      es path info acc :
  walk walkFn (Dir es) path info acc =
  (names <- readDirNames path (map fst es) ;;
   match walkFn path (Some info) (error_of names) acc with
   | (acc1, Some err1) => ret (acc1, Some err1)
   | (acc1, None) =>
       match error_of names with
       | Some _ => ret (acc1, None)
       | None =>
           walk_names walkFn path
             (map (fun e => (fst e, (tree.is_dir (snd e), walk walkFn (snd e))))
                  (sort.by_name es))
             acc1
       end
   end).
Proof.
  cbn [walk].
  rewrite (map_ext _ (fun e => (fst e, (tree.is_dir (snd e), walk walkFn (snd e)))))
    by (intros []; reflexivity).
  rewrite (by_name_map (fun n => (tree.is_dir n, walk walkFn n))).
  reflexivity.
Qed.

Lemma walked_ret w acc : walked w acc [] ((acc, None), w).
Proof.
  exists [], [], None. rewrite app_nil_r, extend_nil.
  repeat split; auto using incl_refl.
Qed.

Lemma walked_found w acc p : walked w acc [p] (((acc ++ [p])%list, None), w).
Proof.
  exists [], [p], None. rewrite extend_nil.
  repeat split; auto using incl_refl.
Qed.

(** A call that succeeded. *)
Lemma walked_call w acc c :
  is_exec c = false -> walked w acc [] ((acc, None), extend [(c, None)] w).
Proof.
  intros Hc. exists [(c, None)], [], None. rewrite app_nil_r.
  repeat split; auto using incl_refl; repeat constructor; auto.
Qed.

(** A call that the environment failed: the walk ends with its error. *)
Lemma walked_failed w acc expected c e e0 :
  is_exec c = false -> fault w (trace w) c = Some e0 ->
  walked w acc expected ((acc, Some e), extend [(c, Some e)] w).
Proof.
  intros Hc Hf. exists [(c, Some e)], [], (Some e). rewrite app_nil_r.
  split; [reflexivity|]. split; [now repeat constructor|].
  split; [intros x []|]. split; [now exists [], c|].
  intros Hff. now rewrite (Hff _ _) in Hf.
Qed.

(** One part of a walk went well; the walk goes on. *)
Lemma walked_seq w acc exp1 acc1 w1 exp2 res :
  walked w acc exp1 ((acc1, None), w1) ->
  walked w1 acc1 exp2 res ->
  walked w acc (exp1 ++ exp2)%list res.
Proof.
  intros (evs1 & c1 & err1 & [= -> <- ->] & Hx1 & Hi1 & [Hs1 <-] & Hf1)
         (evs2 & c2 & err2 & -> & Hx2 & Hi2 & He2 & Hf2).
  exists (evs1 ++ evs2)%list, (c1 ++ c2)%list, err2.
  rewrite extend_extend, app_assoc. split; [reflexivity|].
  split; [now apply Forall_app|].
  split; [now apply incl_app_app|].
  split.
  - destruct err2 as [e|].
    + destruct He2 as (pre & c & -> & Hpre). exists (evs1 ++ pre)%list, c.
      split; [now rewrite app_assoc | now apply Forall_app].
    + destruct He2 as [Hs2 ->]. split; [now apply Forall_app | reflexivity].
  - intros Hff. apply Hf2. exact Hff.
Qed.

(** One part of a walk returned an error; the walk ends. *)
Lemma walked_stop w acc exp1 exp2 exp3 acc1 e w1 :
  walked w acc exp2 ((acc1, Some e), w1) ->
  walked w acc (exp1 ++ exp2 ++ exp3)%list ((acc1, Some e), w1).
Proof.
  intros (evs & c & err & [= -> <- ->] & Hx & Hi & He & Hf).
  exists evs, c, (Some e). repeat split; auto.
  intros x Hx'. apply in_or_app. right. apply in_or_app. left. now apply Hi.
Qed.

(** The loop over the entries of a directory. *)
Lemma walk_names_walked path l :
  Forall (fun e => forall path name acc w,
              walked w acc (java_paths (snd e) path name)
                     (walk findJavaSourceFiles_walkFn (snd e) path
                           (mkFileInfo name (tree.is_dir (snd e))) acc w)) l ->
  forall acc w,
    walked w acc (java_paths_entries path l)
           (walk_names findJavaSourceFiles_walkFn path
              (map (fun e => (fst e, (tree.is_dir (snd e),
                                      walk findJavaSourceFiles_walkFn (snd e)))) l)
              acc w).
Proof.
  induction 1 as [|[name child] l Hhd Htl IH]; intros acc w.
  - apply walked_ret.
  - cbn [map walk_names fst snd]. rewrite bind_unfold.
    change (java_paths_entries path ((name, child) :: l))
      with (java_paths child (filepath.Join path name) name
              ++ java_paths_entries path l)%list.
    match goal with
    | |- context [sys_read ?c ?v w] =>
        destruct (sys_read_cases c v w) as [[e [Hf ->]]|[_ ->]]
    end.
    + cbn [findJavaSourceFiles_walkFn ret].
      apply (walked_stop w acc [] [] _). eapply walked_failed; eauto.
    + cbn [error_of]. rewrite bind_unfold. cbv beta zeta.
      cbn [snd] in Hhd.
      match goal with
      | |- context [walk _ child ?p ?i ?a ?w0] =>
          specialize (Hhd p name a w0);
          destruct (walk findJavaSourceFiles_walkFn child p i a w0)
            as [[acc1 [e|]] w1]
      end; cbv beta iota delta [ret].
      * apply (walked_stop w acc [] (java_paths child (filepath.Join path name) name)
                 (java_paths_entries path l)).
        apply (walked_seq w acc [] acc _ _ _ (walked_call w acc (SysLstat (filepath.Join path name)) eq_refl) Hhd).
      * eapply walked_seq; [|apply IH].
        apply (walked_seq w acc [] acc _ _ _ (walked_call w acc (SysLstat (filepath.Join path name)) eq_refl) Hhd).
Qed.

Lemma readDirNames_cases path names w :
  (exists c e e0 pre,
      readDirNames path names w = (Err e, extend (pre ++ [(c, Some e)]) w) /\
      is_exec c = false /\
      Forall (fun e => is_exec (fst e) = false) pre /\ Forall succeeded pre /\
      fault (extend pre w) (trace (extend pre w)) c = Some e0) \/
  readDirNames path names w
  = (Ok (sort.Strings names),
     extend [(SysOpen path, None); (SysReaddir path, None)] w).
Proof.
  unfold readDirNames. rewrite bind_unfold.
  match goal with
  | |- context [sys_read ?c ?v w] =>
      destruct (sys_read_cases c v w) as [[e [Hf ->]]|[_ ->]]
  end.
  - left. exists (SysOpen path), (describe (SysOpen path) ++ ": " ++ e), e, [].
    rewrite extend_nil. repeat split; auto.
  - rewrite bind_unfold.
    match goal with
    | |- context [sys_read ?c ?v ?w1] =>
        destruct (sys_read_cases c v w1) as [[e [Hf ->]]|[_ ->]]
    end.
    + left. exists (SysReaddir path), (describe (SysReaddir path) ++ ": " ++ e), e,
        [(SysOpen path, None)].
      rewrite extend_extend. repeat split; auto; repeat constructor.
    + right. rewrite extend_extend. reflexivity.
Qed.

(** The walk of [findJavaSourceFiles] below one entry. *)
Lemma walk_walked n :
  forall path name acc w,
    walked w acc (java_paths n path name)
           (walk findJavaSourceFiles_walkFn n path (mkFileInfo name (tree.is_dir n)) acc w).
Proof.
  induction n as [|es IH] using node_ind; intros path name acc w.
  - cbn [walk java_paths findJavaSourceFiles_walkFn tree.is_dir IsDir Name ret].
    destruct (regexp.javaFilename_MatchString name).
    + apply walked_found.
    + apply walked_ret.
  - rewrite walk_Dir, java_paths_Dir, bind_unfold.
    destruct (readDirNames_cases path (map fst es) w)
      as [(c & e & e0 & pre & -> & Hc & Hx & Hs & Hf)| ->].
    + cbn [error_of findJavaSourceFiles_walkFn ret].
      exists (pre ++ [(c, Some e)])%list, [], (Some e). rewrite app_nil_r.
      split; [reflexivity|].
      split; [apply Forall_app; split; [exact Hx | now repeat constructor]|].
      split; [intros x []|]. split; [now exists pre, c|].
      intros Hff. specialize (Hff (trace (extend pre w)) c).
      change (fault (extend pre w)) with (fault w) in Hf. congruence.
    + cbn [error_of findJavaSourceFiles_walkFn tree.is_dir IsDir].
      apply (walked_seq w acc [] acc
               (extend [(SysOpen path, None); (SysReaddir path, None)] w)).
      * exists [(SysOpen path, None); (SysReaddir path, None)], [], None.
        rewrite app_nil_r. repeat split; auto using incl_refl; repeat constructor.
      * apply walk_names_walked. now apply Forall_by_name.
Qed.

Lemma In_java_paths_entries p path l :
  In p (java_paths_entries path l) <->
  exists e, In e l /\ In p (java_paths (snd e) (filepath.Join path (fst e)) (fst e)).
Proof. unfold java_paths_entries. apply in_flat_map. Qed.

(** The paths [walk] collects below an entry are the paths of the
    entries below it that are not directories and whose name matches. *)
Lemma In_java_paths n :
  forall path name p,
    In p (java_paths n path name) <->
    exists nm, below n path name p nm File /\ regexp.javaFilename_MatchString nm = true.
Proof.
  induction n as [|es IH] using node_ind; intros path name p.
  - cbn [java_paths]. split.
    + destruct (regexp.javaFilename_MatchString name) eqn:E; [|intros []].
      intros [<-|[]]. exists name. split; [constructor | exact E].
    + intros (nm & Hb & Hm). inversion Hb; subst. rewrite Hm. now left.
  - rewrite java_paths_Dir, In_java_paths_entries. split.
    + intros ([nm child] & Hin & Hp). apply (proj1 (In_by_name _ _)) in Hin.
      rewrite Forall_forall in IH. apply (IH _ Hin) in Hp.
      destruct Hp as (nm' & Hb & Hm). exists nm'. split; [|exact Hm].
      eapply below_child; eauto.
    + intros (nm' & Hb & Hm). inversion Hb as [|? ? ? nm child ? ? ? Hin Hb']; subst.
      exists (nm, child). split; [now apply (proj2 (In_by_name _ _))|].
      rewrite Forall_forall in IH. apply (IH _ Hin). now exists nm'.
Qed.

(** [findJavaSourceFiles] in full: what it returns and what it leaves. *)
Lemma findJavaSourceFiles_walked rootDir w :
  exists evs paths err,
    findJavaSourceFiles rootDir w = ((paths, err), extend evs (snd (Println rootDir w))) /\
    Forall (fun e => is_exec (fst e) = false) evs /\
    (forall p, In p paths ->
               exists n, tree.resolve (cwd w) rootDir (disk w) = Some n /\
                         In p (java_paths n rootDir (filepath.basename rootDir))) /\
    match err with
    | None =>
        Forall succeeded evs /\
        exists n, tree.resolve (cwd w) rootDir (disk w) = Some n /\
                  paths = java_paths n rootDir (filepath.basename rootDir)
    | Some msg =>
        exists pre c e,
          evs = (pre ++ [(c, Some e)])%list /\ Forall succeeded pre /\
          msg = "received error when finding Java source files under '"
                  ++ rootDir ++ "' : " ++ e ++ nl
    end /\
    (fault_free w -> tree.exists_ (cwd w) rootDir (disk w) = true -> err = None).
Proof.
  unfold findJavaSourceFiles. rewrite bind_unfold.
  destruct (Println rootDir w) as [[] w0] eqn:EP. cbn [snd].
  assert (Hcwd : cwd w0 = cwd w) by (injection EP as <-; reflexivity).
  assert (Hdisk : disk w0 = disk w) by (injection EP as <-; reflexivity).
  assert (Hfault : fault w0 = fault w) by (injection EP as <-; reflexivity).
  clear EP. rewrite bind_unfold. unfold Walk, os.stat_node. rewrite bind_unfold.
  rewrite <- Hcwd, <- Hdisk. unfold tree.exists_.
  match goal with
  | |- context [sys_read ?c ?v w0] =>
      destruct (sys_read_cases c v w0) as [[e [Hf ->]]|[_ ->]]
  end.
  - cbn [findJavaSourceFiles_walkFn ret].
    eexists [_], [], (Some _). split; [reflexivity|].
    split; [now repeat constructor|]. split; [intros p []|].
    split; [eexists [], _, _; repeat split; constructor|].
    intros Hff. unfold fault_free in Hff. rewrite <- Hfault in Hff.
    now rewrite Hff in Hf.
  - destruct (tree.resolve (cwd w0) rootDir (disk w0)) as [n|].
    + cbn [error_of].
      match goal with
      | |- context [walk _ n ?p ?i ?a ?w1] =>
          destruct (walk_walked n p (filepath.basename rootDir) a w1)
            as (evs & collected & err & -> & Hx & Hi & He & Hff)
      end.
      cbn [app]. rewrite extend_extend.
      destruct err as [e|]; cbn [ret].
      * destruct He as (pre & c & -> & Hpre).
        eexists _, collected, (Some _). split; [reflexivity|].
        split; [constructor; [reflexivity | exact Hx]|].
        split; [intros p Hp; exists n; split; [reflexivity | now apply Hi]|].
        split.
        -- exists ((SysLstat rootDir, None) :: pre), c, e.
           repeat split; auto. constructor; [reflexivity | exact Hpre].
        -- intros Hw _. exfalso. enough (Some e = None) by discriminate.
           apply Hff. unfold fault_free in *. cbn [fault extend]. now rewrite Hfault.
      * destruct He as [Hs ->].
        eexists _, _, None. split; [reflexivity|].
        split; [constructor; [reflexivity | exact Hx]|].
        split; [intros p Hp; exists n; split; [reflexivity | exact Hp]|].
        split; [|reflexivity].
        split; [constructor; [reflexivity | exact Hs]|].
        now exists n.
    + cbn [error_of findJavaSourceFiles_walkFn ret].
      eexists [_], [], (Some _). split; [reflexivity|].
      split; [now repeat constructor|]. split; [intros p []|].
      split; [eexists [], _, _; repeat split; constructor|].
      discriminate.
Qed.

(** ** Trees read in different orders *)

Lemma same_entries_refl es :
  Forall (fun e => same_tree (snd e) (snd e)) es -> same_entries es es.
Proof.
  induction 1 as [|[nm n] es Hn _ IH]; [constructor|]. now apply same_cons.
Qed.

Lemma same_tree_refl n : same_tree n n.
Proof.
  induction n as [|es IH] using node_ind; constructor.
  now apply same_entries_refl.
Qed.

Lemma same_tree_trans n1 n2 n3 : same_tree n1 n2 -> same_tree n2 n3 -> same_tree n1 n3.
Proof.
  intros H12 H23. inversion H12; subst; inversion H23; subst; constructor.
  eapply same_trans; eauto.
Qed.

Lemma same_opt_refl a : same_opt a a.
Proof. destruct a; simpl; auto using same_tree_refl. Qed.

Lemma same_opt_trans a b c : same_opt a b -> same_opt b c -> same_opt a c.
Proof.
  destruct a, b, c; simpl; try easy. apply same_tree_trans.
Qed.

Lemma find_entry_same :
  (forall n1 n2, same_tree n1 n2 -> True) /\
  (forall es1 es2, same_entries es1 es2 ->
                   forall c, same_opt (tree.find_entry c es1) (tree.find_entry c es2)).
Proof.
  apply same_mutind; auto.
  - intros c. exact I.
  - intros nm n1 n2 es1 es2 Hn _ _ IH c. cbn [tree.find_entry].
    destruct (String.eqb nm c); [exact Hn | apply IH].
  - intros [k1 v1] [k2 v2] es Hne c. cbn [tree.find_entry fst] in *.
    destruct (String.eqb_spec k1 c), (String.eqb_spec k2 c);
      try apply same_opt_refl. congruence.
  - intros es1 es2 es3 _ H12 _ H23 c. eapply same_opt_trans; eauto.
Qed.

(** The same paths lead to the same entries. *)
Lemma lookup_same elems :
  forall d1 d2, same_tree d1 d2 ->
                same_opt (tree.lookup elems d1) (tree.lookup elems d2).
Proof.
  induction elems as [|c rest IH]; intros d1 d2 H; [exact H|].
  inversion H as [|es1 es2 Hes]; subst; cbn [tree.lookup]; [exact I|].
  pose proof (proj2 find_entry_same es1 es2 Hes c) as Hc.
  destruct (tree.find_entry c es1), (tree.find_entry c es2); try easy.
  now apply IH.
Qed.

Lemma Forall2_same_sources_refl l : Forall2 same_sources l l.
Proof. induction l; constructor; auto. now split. Qed.

Lemma Forall2_same_sources_trans l1 l2 l3 :
  Forall2 same_sources l1 l2 -> Forall2 same_sources l2 l3 -> Forall2 same_sources l1 l3.
Proof.
  intros H12. revert l3. induction H12 as [|a b l1 l2 [Hn Hab] _ IH]; intros l3 H23.
  - inversion H23. constructor.
  - inversion H23 as [|? c ? l3' [Hn' Hbc] Hl]; subst. constructor; [|now apply IH].
    split; [congruence|]. intros path name. now rewrite Hab, Hbc.
Qed.

Lemma java_paths_entries_same path l1 l2 :
  Forall2 same_sources l1 l2 -> java_paths_entries path l1 = java_paths_entries path l2.
Proof.
  unfold java_paths_entries.
  induction 1 as [|a b l1 l2 [Hn Hab] _ IH]; [reflexivity|].
  cbn [flat_map]. now rewrite IH, Hab, Hn.
Qed.

(** The walk comes to the same Java sources, in the same order,
    whatever the order in which the directories are read. *)
Lemma java_paths_same :
  (forall n1 n2, same_tree n1 n2 ->
                 forall path name, java_paths n1 path name = java_paths n2 path name) /\
  (forall es1 es2, same_entries es1 es2 ->
                   Forall2 same_sources (sort.by_name es1) (sort.by_name es2)).
Proof.
  apply same_mutind.
  - reflexivity.
  - intros es1 es2 _ H path name. rewrite !java_paths_Dir.
    now apply java_paths_entries_same.
  - constructor.
  - intros nm n1 n2 es1 es2 _ Hn _ IH.
    change (sort.by_name ((nm, n1) :: es1))
      with (sort.insert (nm, n1) (sort.by_name es1)).
    change (sort.by_name ((nm, n2) :: es2))
      with (sort.insert (nm, n2) (sort.by_name es2)).
    apply Forall2_insert; [now intros a b [] | now split | exact IH].
  - intros e1 e2 es Hne.
    change (sort.by_name (e1 :: e2 :: es))
      with (sort.insert e1 (sort.insert e2 (sort.by_name es))).
    change (sort.by_name (e2 :: e1 :: es))
      with (sort.insert e2 (sort.insert e1 (sort.by_name es))).
    rewrite (insert_comm e1 e2 _ Hne). apply Forall2_same_sources_refl.
  - intros es1 es2 es3 _ H12 _ H23. eapply Forall2_same_sources_trans; eauto.
Qed.

Lemma findJavaSourceFiles_missing rootDir w :
  fault_free w ->
  tree.resolve (cwd w) rootDir (disk w) = None ->
  fst (findJavaSourceFiles rootDir w)
  = ([], Some ("received error when finding Java source files under '"
                 ++ rootDir ++ "' : "
                 ++ (describe (SysLstat rootDir) ++ ": " ++ ENOENT) ++ nl)).
Proof.
  intros Hff Hr. unfold findJavaSourceFiles. rewrite bind_unfold.
  destruct (Println rootDir w) as [[] w0] eqn:EP.
  assert (Hcwd : cwd w0 = cwd w) by (injection EP as <-; reflexivity).
  assert (Hdisk : disk w0 = disk w) by (injection EP as <-; reflexivity).
  assert (Hfault : fault w0 = fault w) by (injection EP as <-; reflexivity).
  clear EP. rewrite bind_unfold. unfold Walk, os.stat_node. rewrite bind_unfold.
  match goal with
  | |- context [sys_read ?c ?v w0] =>
      destruct (sys_read_cases c v w0) as [[e [Hf _]]|[_ ->]]
  end.
  - rewrite Hfault, Hff in Hf. discriminate.
  - rewrite Hcwd, Hdisk, Hr. reflexivity.
Qed.

Lemma resolve_same cwd p d1 d2 :
  same_tree d1 d2 -> same_opt (tree.resolve cwd p d1) (tree.resolve cwd p d2).
Proof.
  intros H. unfold tree.resolve. destruct (String.eqb p ""); [exact I|].
  now apply lookup_same.
Qed.

(** Without faults of the environment, the discovery below an entry
    that is there returns the Java sources in the order of the walk. *)
Lemma findJavaSourceFiles_fault_free rootDir w n :
  fault_free w ->
  tree.resolve (cwd w) rootDir (disk w) = Some n ->
  fst (findJavaSourceFiles rootDir w)
  = (java_paths n rootDir (filepath.basename rootDir), None).
Proof.
  intros Hff Hn.
  destruct (findJavaSourceFiles_walked rootDir w)
    as (evs & paths & err & -> & _ & _ & He & Herr).
  cbn [fst]. unfold tree.exists_ in Herr. rewrite Hn in Herr.
  rewrite (Herr Hff eq_refl) in *. destruct He as (_ & n' & Hn' & ->).
  rewrite Hn in Hn'. now injection Hn' as <-.
Qed.

(** ** Claims about the discovery of source files *)

(** C10.  Two runs of the discovery, in two worlds without faults of
    the environment whose file systems hold the same tree, however each
    of them lists its directories, return the same paths in the same
    order and the same error; when the root is there, the paths are
    those of the walk that visits the entries of every directory in
    ascending order of their names. *)
Theorem file_discovery_deterministic rootDir w1 w2 :
  fault_free w1 -> fault_free w2 ->
  cwd w1 = cwd w2 ->
  same_tree (disk w1) (disk w2) ->
  fst (findJavaSourceFiles rootDir w1) = fst (findJavaSourceFiles rootDir w2) /\
  forall n, tree.resolve (cwd w1) rootDir (disk w1) = Some n ->
            fst (findJavaSourceFiles rootDir w1)
            = (java_paths n rootDir (filepath.basename rootDir), None).
Proof.
  intros Hff1 Hff2 Hcwd Hsame.
  split; [|intros n Hn; now apply findJavaSourceFiles_fault_free].
  pose proof (resolve_same (cwd w1) rootDir _ _ Hsame) as Hr. rewrite Hcwd in Hr at 2.
  rewrite Hcwd in Hr at 1.
  destruct (tree.resolve (cwd w2) rootDir (disk w1)) as [n1|] eqn:E1;
    destruct (tree.resolve (cwd w2) rootDir (disk w2)) as [n2|] eqn:E2; try easy.
  - rewrite <- Hcwd in E1.
    rewrite (findJavaSourceFiles_fault_free rootDir w1 n1 Hff1 E1),
            (findJavaSourceFiles_fault_free rootDir w2 n2 Hff2 E2).
    now rewrite (proj1 java_paths_same n1 n2 Hr).
  - rewrite <- Hcwd in E1.
    now rewrite !findJavaSourceFiles_missing.
Qed.

Lemma file_discovery_deterministic_witness :
  fst (findJavaSourceFiles "src" world_sources)
  = fst (findJavaSourceFiles "src" world_sources_sorted) /\
  forall n, tree.resolve (cwd world_sources) "src" (disk world_sources) = Some n ->
            fst (findJavaSourceFiles "src" world_sources)
            = (java_paths n "src" (filepath.basename "src"), None).
Proof.
  apply (file_discovery_deterministic "src" world_sources world_sources_sorted).
  - intros tr c. reflexivity.
  - intros tr c. reflexivity.
  - reflexivity.
  - cbn [disk world_sources world_sources_sorted].
    apply same_dir, same_cons; [|constructor]. apply same_dir.
    eapply same_trans; [apply same_swap; discriminate|].
    eapply same_trans;
      [apply same_cons; [apply same_tree_refl | apply same_swap; discriminate]|].
    apply same_swap; discriminate.
Defined.

(** The tree of the specification: [A.java], [b.txt] and [sub/C.java]
    under [src], which the file system lists as [sub], [b.txt],
    [A.java].  The discovery returns the two Java sources, in the order
    of the walk, and not [b.txt]. *)
Example findJavaSourceFiles_sample :
  fst (findJavaSourceFiles "src" world_sources) = (["src/A.java"; "src/sub/C.java"], None).
Proof. vm_compute. reflexivity. Qed.

(** ** The parts of the build *)

Lemma succeeded_not_fatal e : succeeded e -> fatal e = false.
Proof. destruct e as [c [err|]]; unfold succeeded; simpl; [discriminate|]. now destruct c. Qed.

Lemma Forall_succeeded_not_fatal evs :
  Forall succeeded evs -> Forall (fun e => fatal e = false) evs.
Proof. apply Forall_impl, succeeded_not_fatal. Qed.

Lemma fatal_last_app l1 l2 :
  Forall (fun e => fatal e = false) l1 -> fatal_last l2 -> fatal_last (l1 ++ l2).
Proof.
  intros H1 H2. induction H1 as [|a l1 Ha _ IH]; [exact H2|].
  intros [|b pre] ev post E Hev; injection E as -> E.
  - congruence.
  - exact (IH pre ev post E Hev).
Qed.

Lemma fatal_last_nil : fatal_last [].
Proof. intros [|] ? ? E; discriminate E. Qed.

Lemma fatal_last_one e : fatal_last [e].
Proof.
  intros [|a [|b pre]] ev post E _; try discriminate E. now injection E.
Qed.

Lemma fatal_last_not_fatal evs :
  Forall (fun e => fatal e = false) evs -> fatal_last evs.
Proof.
  intros H. rewrite <- (app_nil_r evs). apply fatal_last_app; [exact H | apply fatal_last_nil].
Qed.

Lemma fatal_last_snoc pre e :
  Forall (fun e => fatal e = false) pre -> fatal_last (pre ++ [e]).
Proof. intros H. apply fatal_last_app; [exact H | apply fatal_last_one]. Qed.

(** A fatal failure among calls of which only the last can be one. *)
Lemma fatal_is_last l1 l2 pre ev post :
  Forall (fun e => fatal e = false) l1 -> fatal_last l2 ->
  (l1 ++ l2)%list = (pre ++ ev :: post)%list -> fatal ev = true ->
  post = [] /\ exists pre2, l2 = (pre2 ++ [ev])%list /\ pre = (l1 ++ pre2)%list.
Proof.
  intros H1 H2. revert pre. induction H1 as [|a l1 Ha _ IH]; intros pre E Hev.
  - cbn [app] in E. subst l2. pose proof (H2 pre ev post eq_refl Hev) as ->.
    split; [reflexivity|]. now exists pre.
  - destruct pre as [|b pre]; injection E as -> E; [congruence|].
    destruct (IH pre E Hev) as (-> & pre2 & -> & ->).
    split; [reflexivity|]. now exists pre2.
Qed.

Lemma count_execs_app l1 l2 : count_execs (l1 ++ l2) = count_execs l1 + count_execs l2.
Proof. unfold count_execs. now rewrite filter_app, length_app. Qed.

Lemma count_execs_none evs :
  Forall (fun e => is_exec (fst e) = false) evs -> count_execs evs = 0.
Proof.
  unfold count_execs. induction 1 as [|e evs He _ IH]; [reflexivity|].
  cbn [filter]. now rewrite He.
Qed.

Lemma grows_refl w : grows w w [].
Proof. split; [now rewrite app_nil_r | reflexivity]. Qed.

Lemma grows_trans w w1 w2 evs1 evs2 :
  grows w w1 evs1 -> grows w1 w2 evs2 -> grows w w2 (evs1 ++ evs2).
Proof.
  intros [Ht1 Hs1] [Ht2 Hs2]. split; [|congruence].
  now rewrite Ht2, Ht1, app_assoc.
Qed.

Lemma grows_extend evs w : grows w (extend evs w) evs.
Proof. now split. Qed.

Lemma setup_ret {A} (errof : A -> error) a w : setup errof (ret a) w.
Proof.
  exists []. split; [apply grows_refl|]. split; [constructor|].
  split; [apply fatal_last_nil | constructor].
Qed.

(** Two parts in sequence, where the second does nothing but report an
    error when the first reports one. *)
Lemma setup_bind {A B} (ea : A -> error) (eb : B -> error) (c : IO A) (k : A -> IO B) w :
  setup ea c w ->
  (forall a w1, c w = (a, w1) -> ea a = None -> setup eb (k a) w1) ->
  (forall a, ea a <> None -> exists b, k a = ret b /\ eb b <> None) ->
  setup eb (bind c k) w.
Proof.
  intros (evs1 & Hg1 & Hx1 & Hl1 & Hn1) Hk Herr.
  unfold setup. rewrite bind_unfold. destruct (c w) as [a w1] eqn:E. cbn [fst snd] in *.
  destruct (ea a) as [e|] eqn:Ea.
  - destruct (Herr a) as (b & -> & Hb); [congruence|].
    exists evs1. cbn [ret fst snd]. repeat split; auto; try apply Hg1.
    intros Hb'. congruence.
  - destruct (Hk a w1 eq_refl Ea) as (evs2 & Hg2 & Hx2 & Hl2 & Hn2).
    exists (evs1 ++ evs2)%list. split; [eapply grows_trans; eauto|].
    split; [now apply Forall_app|].
    split; [apply fatal_last_app; auto|].
    intros Hb. apply Forall_app. auto.
Qed.

(** A part that cannot report an error, then another. *)
Lemma setup_then {A B} (eb : B -> error) (c : IO A) (k : A -> IO B) w :
  setup (fun _ => None) c w ->
  (forall a w1, c w = (a, w1) -> setup eb (k a) w1) ->
  setup eb (bind c k) w.
Proof.
  intros Hc Hk. eapply setup_bind; [exact Hc | auto | congruence].
Qed.

Lemma setup_sys_read {A} c (value : World -> result A) w :
  is_exec c = false -> setup error_of (sys_read c value) w.
Proof.
  intros Hc. destruct (sys_read_extend c value w) as [r Hr].
  exists [(c, error_of r)]. rewrite Hr. cbn [fst snd].
  split; [apply grows_extend|]. split; [now repeat constructor|].
  split; [apply fatal_last_one|].
  intros ->. repeat constructor. now destruct c.
Qed.

Lemma setup_Println s w : setup (fun _ => None) (Println s) w.
Proof.
  exists []. split; [split; [now rewrite app_nil_r | reflexivity]|].
  split; [constructor|]. split; [apply fatal_last_nil | constructor].
Qed.

Lemma setup_LookupEnv key w : setup (fun _ => None) (os.LookupEnv key) w.
Proof.
  exists []. split; [apply grows_refl|].
  split; [constructor|]. split; [apply fatal_last_nil | constructor].
Qed.

Lemma setup_Getenv key w : setup (fun _ => None) (os.Getenv key) w.
Proof.
  unfold os.Getenv. apply setup_then; [apply setup_LookupEnv|].
  intros; apply setup_ret.
Qed.

Lemma setup_Abs p w : setup error_of (filepath_io.Abs p) w.
Proof.
  unfold filepath_io.Abs. destruct (filepath.IsAbs p); [apply setup_ret|].
  eapply (setup_bind error_of); [now apply setup_sys_read| |].
  - intros [wd|e] w1 _ He; [apply setup_ret | discriminate].
  - intros [wd|e] He; [exfalso; now apply He|].
    eexists; split; [reflexivity | discriminate].
Qed.

Lemma setup_Open p w : setup error_of (os.Open p) w.
Proof. now apply setup_sys_read. Qed.

Lemma setup_Readdir d w : setup error_of (os.Readdir d) w.
Proof. now apply setup_sys_read. Qed.

Ltac setup_result lem :=
  eapply (setup_bind error_of);
  [ apply lem
  | intros [?|?] ? _ ?; [cbv beta iota zeta | discriminate]
  | intros [?|?] ?;
    [ exfalso; auto
    | eexists; split; [reflexivity | cbn [snd]; discriminate] ] ].

Lemma setup_initBuildTools t w : setup snd (initBuildTools t) w.
Proof.
  unfold initBuildTools. cbv zeta.
  setup_result setup_Abs. setup_result setup_Open. setup_result setup_Readdir.
  match goal with |- context [Nat.ltb ?a ?b] => destruct (Nat.ltb a b) end;
    [apply setup_ret|].
  setup_result setup_Abs. setup_result setup_Abs. setup_result setup_Abs.
  apply setup_ret.
Qed.

Lemma setup_initPlatforms t w : setup snd (initPlatforms t) w.
Proof.
  unfold initPlatforms. cbv zeta.
  setup_result setup_Abs. setup_result setup_Open. setup_result setup_Readdir.
  match goal with |- context [Nat.ltb ?a ?b] => destruct (Nat.ltb a b) end;
    [apply setup_ret|].
  setup_result setup_Abs. setup_result setup_Abs.
  apply setup_ret.
Qed.

Lemma setup_newToolchain SDKPath w : setup snd (newToolchain SDKPath) w.
Proof.
  unfold newToolchain. cbv zeta.
  setup_result setup_Abs. setup_result setup_Abs.
  eapply (setup_bind snd); [apply setup_initBuildTools| |].
  - intros [t [e|]] wa _ He; [discriminate|]. cbv beta iota.
    eapply (setup_bind snd); [apply setup_initPlatforms| |].
    + intros [t' [e|]] wb _ He'; [discriminate|]. apply setup_ret.
    + intros [t' [e|]] He'; [|exfalso; now apply He'].
      eexists; split; [reflexivity | cbn [snd]; discriminate].
  - intros [t [e|]] He; [|exfalso; now apply He].
    eexists; split; [reflexivity | cbn [snd]; discriminate].
Qed.

(** Any system call adds its event, and the program prints nothing. *)
Lemma sys_grows {A} c (natural : World -> result A * node) w :
  grows w (snd (sys c natural w)) [(c, error_of (fst (sys c natural w)))].
Proof.
  rewrite sys_unfold. destruct (fault w (trace w) c); now split.
Qed.

Lemma Mkdir_grows s w :
  grows w (snd (os.Mkdir s w)) [(SysMkdir s, fst (os.Mkdir s w))].
Proof.
  unfold os.Mkdir. rewrite bind_unfold.
  match goal with
  | |- context [sys ?c ?n w] =>
      pose proof (sys_grows c n w) as H; destruct (sys c n w) as [r w1]
  end.
  exact H.
Qed.

Lemma setup_makeOutputDirs paths : forall w, setup (fun err => err) (makeOutputDirs paths) w.
Proof.
  induction paths as [|s rest IH]; intros w; [apply setup_ret|].
  cbn [makeOutputDirs]. unfold setup. rewrite bind_unfold.
  pose proof (Mkdir_grows s w) as Hg.
  destruct (os.Mkdir s w) as [err w1]. cbn [fst snd] in Hg.
  assert (Hgo : fatal (SysMkdir s, err) = false ->
                exists evs,
                  grows w (snd (makeOutputDirs rest w1)) evs /\
                  Forall (fun e => is_exec (fst e) = false) evs /\
                  fatal_last evs /\
                  (fst (makeOutputDirs rest w1) = None ->
                   Forall (fun e => fatal e = false) evs)).
  { intros Hnf. destruct (IH w1) as (evs & Hg2 & Hx & Hl & Hn).
    exists ((SysMkdir s, err) :: evs). split; [exact (grows_trans _ _ _ _ _ Hg Hg2)|].
    split; [now constructor|].
    split; [apply (fatal_last_app [_]); [now constructor | exact Hl]|].
    intros Hr. constructor; auto. }
  destruct err as [e|]; [|now apply Hgo].
  destruct (negb (strings.Contains e "file exists")) eqn:Ec; [|now apply Hgo].
  exists [(SysMkdir s, Some e)]. cbn [ret fst snd].
  split; [exact Hg|]. split; [now repeat constructor|].
  split; [apply fatal_last_one | discriminate].
Qed.

Lemma Stat_grows s w : grows w (snd (os.Stat s w)) [(SysStat s, error_of (fst (os.Stat s w)))].
Proof. destruct (Stat_extend s w) as [r ->]. apply grows_extend. Qed.

Lemma Remove_grows s w :
  grows w (snd (os.Remove s w)) [(SysRemove s, fst (os.Remove s w))].
Proof.
  unfold os.Remove. rewrite bind_unfold.
  match goal with
  | |- context [sys ?c ?n w] =>
      pose proof (sys_grows c n w) as H; destruct (sys c n w) as [r w1]
  end.
  exact H.
Qed.

Lemma RemoveAll_grows s w :
  grows w (snd (os.RemoveAll s w)) [(SysRemoveAll s, fst (os.RemoveAll s w))].
Proof.
  unfold os.RemoveAll. rewrite bind_unfold.
  match goal with
  | |- context [sys ?c ?n w] =>
      pose proof (sys_grows c n w) as H; destruct (sys c n w) as [r w1]
  end.
  exact H.
Qed.

(** The cleanup makes no call whose failure ends the build. *)
Lemma setup_remove paths : forall w, setup (fun _ : error => None) (remove paths) w.
Proof.
  induction paths as [|s rest IH]; intros w; [apply setup_ret|].
  unfold setup. rewrite remove_cons.
  pose proof (Stat_grows s w) as Hs.
  destruct (os.Stat s w) as [[f|err] w1]; cbn [fst snd error_of] in Hs.
  - assert (Hgo : forall c e w2,
               fatal (c, e) = false -> is_exec c = false -> grows w1 w2 [(c, e)] ->
               exists evs,
                 grows w (snd (remove rest w2)) evs /\
                 Forall (fun e => is_exec (fst e) = false) evs /\
                 fatal_last evs /\
                 (@None string = None -> Forall (fun e => fatal e = false) evs)).
    { intros c e w2 Hnf Hx Hg. destruct (IH w2) as (evs & Hg2 & Hx2 & _ & Hn).
      exists ((SysStat s, None) :: (c, e) :: evs).
      split; [exact (grows_trans _ _ _ _ _ Hs (grows_trans _ _ _ _ _ Hg Hg2))|].
      assert (Hall : Forall (fun e => fatal e = false)
                            ((SysStat s, None) :: (c, e) :: evs))
        by (repeat constructor; auto).
      split; [repeat constructor; auto|].
      split; [now apply fatal_last_not_fatal | now intros _]. }
    destruct (IsDir f).
    + pose proof (RemoveAll_grows s w1) as Hr.
      destruct (os.RemoveAll s w1) as [[e|] w2]; cbn [fst snd] in Hr.
      * exists [(SysStat s, None); (SysRemoveAll s, Some e)]. cbn [fst snd].
        split; [exact (grows_trans _ _ _ _ _ Hs Hr)|].
        split; [now repeat constructor|].
        split; [apply fatal_last_not_fatal|intros _]; now repeat constructor.
      * now apply (Hgo (SysRemoveAll s) None w2).
    + pose proof (Remove_grows s w1) as Hr.
      destruct (os.Remove s w1) as [[e|] w2]; cbn [fst snd] in Hr.
      * exists [(SysStat s, None); (SysRemove s, Some e)]. cbn [fst snd].
        split; [exact (grows_trans _ _ _ _ _ Hs Hr)|].
        split; [now repeat constructor|].
        split; [apply fatal_last_not_fatal|intros _]; now repeat constructor.
      * now apply (Hgo (SysRemove s) None w2).
  - exists [(SysStat s, Some err)]. cbn [fst snd].
    split; [exact Hs|]. split; [now repeat constructor|].
    split; [apply fatal_last_one | intros _; now repeat constructor].
Qed.

Lemma setup_findJavaSourceFiles rootDir w : setup snd (findJavaSourceFiles rootDir) w.
Proof.
  destruct (findJavaSourceFiles_walked rootDir w)
    as (evs & paths & err & E & Hx & _ & He & _).
  exists evs. rewrite E. cbn [fst snd].
  split; [now split|]. split; [exact Hx|].
  destruct err as [msg|].
  - destruct He as (pre & c & e & -> & Hpre & _).
    split; [|discriminate]. now apply fatal_last_snoc, Forall_succeeded_not_fatal.
  - destruct He as [Hs _]. apply Forall_succeeded_not_fatal in Hs.
    split; [now apply fatal_last_not_fatal | now intros _].
Qed.

(** ** The steps of the pipeline *)

Lemma Run_grows argv w :
  grows w (snd (exec.Run argv w)) [(SysExec argv, fst (exec.Run argv w))] /\
  (fault w (trace w) (SysExec argv) = None ->
   fst (exec.Run argv w) = exec.run_error (fst (tools w argv (cwd w) (disk w)))).
Proof.
  unfold exec.Run. rewrite bind_unfold.
  match goal with
  | |- context [sys ?c ?n w] =>
      pose proof (sys_grows c n w) as H; pose proof (sys_unfold c n w) as Hu;
      destruct (sys c n w) as [r w1]
  end.
  split; [exact H|]. intros Hf. rewrite Hf in Hu. injection Hu as -> _.
  cbn [ret fst snd]. destruct (tools w argv (cwd w) (disk w)) as [st d]. cbn [fst].
  now destruct (exec.run_error st).
Qed.

(** [run]: one child process, whose argument vector is the tokens of
    the command line; its error, if any, wrapped with the command. *)
Lemma run_spec t command w :
  exists e0,
    fst (run t command w)
    = option_map (fun e => "error when running command " ++ command ++ " : " ++ e ++ nl) e0 /\
    grows w (snd (run t command w)) [(SysExec (tokens command), e0)] /\
    (fault w (trace w) (SysExec (tokens command)) = None ->
     e0 = exec.run_error (fst (tools w (tokens command) (cwd w) (disk w)))).
Proof.
  unfold run. cbv zeta. rewrite Split_hd_tl. fold (tokens command).
  rewrite bind_unfold.
  destruct (Run_grows (tokens command) w) as [Hg Hf].
  destruct (exec.Run (tokens command) w) as [e0 w1]. cbn [fst snd] in *.
  exists e0. destruct e0 as [e|]; cbn [ret fst snd option_map]; auto.
Qed.

Lemma step_run t command w : step (fun cmd => cmd = command) (run t command) w.
Proof.
  destruct (run_spec t command w) as (e0 & He & Hg & _).
  exists [(SysExec (tokens command), e0)]. split; [exact Hg|]. right.
  exists [], command, e0. repeat split; auto.
Qed.

Lemma step_weaken (C C' : string -> Prop) c w :
  (forall cmd, C cmd -> C' cmd) -> step C c w -> step C' c w.
Proof.
  intros HC (evs & Hg & [H|(pre & cmd & e0 & -> & Hx & Hn & Hc & He)]).
  - exists evs. split; [exact Hg | now left].
  - eexists. split; [exact Hg|]. right. exists pre, cmd, e0. repeat split; auto.
Qed.

(** A part that starts no process, then a step. *)
Lemma step_bind {A} (ea : A -> error) C (c : IO A) (k : A -> IO error) w :
  setup ea c w ->
  (forall a w1, c w = (a, w1) -> ea a = None -> step C (k a) w1) ->
  (forall a, ea a <> None -> exists e, k a = ret (Some e)) ->
  step C (bind c k) w.
Proof.
  intros (evs1 & Hg1 & Hx1 & Hl1 & Hn1) Hk Herr.
  unfold step. rewrite bind_unfold. destruct (c w) as [a w1] eqn:E. cbn [fst snd] in *.
  destruct (ea a) as [e|] eqn:Ea.
  - destruct (Herr a) as (e' & ->); [congruence|].
    exists evs1. cbn [ret fst snd]. split; [exact Hg1|]. left. repeat split; auto.
    discriminate.
  - destruct (Hk a w1 eq_refl Ea) as (evs2 & Hg2 & H2).
    exists (evs1 ++ evs2)%list. split; [eapply grows_trans; eauto|].
    specialize (Hn1 eq_refl).
    destruct H2 as [(Hx2 & Hl2 & Hne)|(pre & cmd & e0 & -> & Hx2 & Hn2 & Hc & He)].
    + left. repeat split; auto using Forall_app, fatal_last_app.
      now apply Forall_app.
    + right. exists (evs1 ++ pre)%list, cmd, e0. rewrite app_assoc.
      repeat split; auto; now apply Forall_app.
Qed.

Lemma step_generate t J M S w :
  step (fun _ => True) (generateJavaFileForAndroidResources t J M S) w.
Proof. eapply step_weaken; [|apply step_run]. auto. Qed.

Lemma step_compile t javaSources generated out w :
  step (fun _ => True)
       (compileJavaSourceFilesToJavaVirtualMachineBytecode t javaSources generated out) w.
Proof.
  unfold compileJavaSourceFilesToJavaVirtualMachineBytecode.
  eapply (step_bind snd); [apply setup_findJavaSourceFiles| |].
  - intros [j [e|]] w1 _ He; [discriminate|]. cbv beta iota.
    eapply (step_bind snd); [apply setup_findJavaSourceFiles| |].
    + intros [jj [e|]] w2 _ He'; [discriminate|]. cbv beta iota zeta.
      eapply step_weaken; [|apply step_run]. auto.
    + intros [jj [e|]] He'; [|exfalso; now apply He']. eexists; reflexivity.
  - intros [j [e|]] He; [|exfalso; now apply He]. eexists; reflexivity.
Qed.

Lemma step_translate t w :
  step is_translate_command
       (translateJavaVirtualMachineMBytecodeToAndroidRuntimeBytecode
          t outputDexFilepath outputDirForBytecode) w.
Proof.
  eapply step_weaken; [|apply step_run].
  intros cmd ->. now exists t.
Qed.

Lemma step_package t M S F w :
  step (fun _ => True) (createUnalignedAndroidApplicationPackage t M S F) w.
Proof. eapply step_weaken; [|apply step_run]. auto. Qed.

Lemma step_add t apk dex w :
  step (fun _ => True) (addAndroidRuntimeBytecodeToAndroidApplicationPackage t apk dex) w.
Proof. eapply step_weaken; [|apply step_run]. auto. Qed.

Lemma step_sign t apk w :
  step (fun _ => True) (signAndroidApplicationPackageWithDebugKey t apk) w.
Proof.
  unfold signAndroidApplicationPackageWithDebugKey.
  eapply (step_bind (fun _ => None)); [apply setup_Getenv| |congruence].
  intros home w1 _ _. eapply step_weaken; [|apply step_run]. auto.
Qed.

Lemma step_align t apk out w :
  step (fun _ => True)
       (alignUncompressedDataInZipFileToFourByteBoundariesForFasterMemoryMappingAtRuntime
          t apk out) w.
Proof. eapply step_weaken; [|apply step_run]. auto. Qed.

(** ** main *)

Lemma pbind_lift {A B} (c : IO A) (k : A -> Proc B) w :
  pbind (lift c) k w = k (fst (c w)) (snd (c w)).
Proof. unfold pbind, lift. now destruct (c w). Qed.

Lemma pbind_exit_on_Some {B} e msg (k : unit -> Proc B) w :
  pbind (exit_on (Some e) msg) k w = (Exit 1, snd (Eprint (msg e) w)).
Proof. reflexivity. Qed.

Lemma pbind_exit_on_None {B} msg (k : unit -> Proc B) w :
  pbind (exit_on None msg) k w = k tt w.
Proof. reflexivity. Qed.

Lemma so_far_start w : so_far 0 w w.
Proof. exists []. split; [apply grows_refl|]. split; [constructor | reflexivity]. Qed.

(** Calls after the build so far, among which only the last can be a
    fatal failure and none is a child process: the run fails fast if it
    exits with status 1 or none of them is a fatal failure. *)
Lemma so_far_quiet k w0 w w' o evs2 :
  so_far k w0 w ->
  trace w' = (trace w ++ evs2)%list ->
  Forall (fun e => is_exec (fst e) = false) evs2 ->
  fatal_last evs2 ->
  (o = Exit 1 \/ Forall (fun e => fatal e = false) evs2) ->
  fails_fast w0 o w'.
Proof.
  intros (evs & [Ht _] & Hn & _) Ht' Hx Hl Ho.
  exists (evs ++ evs2)%list. split; [now rewrite Ht', Ht, app_assoc|].
  intros pre ev post E Hev.
  destruct (fatal_is_last evs evs2 pre ev post Hn Hl E Hev) as (-> & pre2 & -> & ->).
  split; [reflexivity|].
  apply Forall_app in Hx. destruct Hx as [_ Hx]. inversion Hx as [|? ? Hev' _]; subst.
  split.
  - destruct Ho as [->|Ho]; [reflexivity|].
    apply Forall_app in Ho. destruct Ho as [_ Ho]. inversion Ho; subst. congruence.
  - intros argv e ->. discriminate Hev'.
Qed.

Lemma so_far_setup k w0 w {A} (errof : A -> error) (c : IO A) :
  so_far k w0 w -> setup errof c w ->
  (errof (fst (c w)) = None -> so_far k w0 (snd (c w))) /\
  (forall w', trace w' = trace (snd (c w)) -> fails_fast w0 (Exit 1) w').
Proof.
  intros Hinv (evs2 & [Ht2 Hs2] & Hx & Hl & Hn). split.
  - intros He. destruct Hinv as (evs & Hg & Hnf & Hk).
    exists (evs ++ evs2)%list. split; [eapply grows_trans; eauto; now split|].
    split; [apply Forall_app; auto|].
    now rewrite count_execs_app, Hk, (count_execs_none evs2 Hx), Nat.add_0_r.
  - intros w' Ht'. apply (so_far_quiet k w0 w w' (Exit 1) evs2); auto. congruence.
Qed.

Lemma so_far_step k w0 w C c :
  so_far k w0 w -> step C c w ->
  (k = 2 -> forall cmd, C cmd -> is_translate_command cmd) ->
  (fst (c w) = None -> so_far (S k) w0 (snd (c w))) /\
  (forall e w',
      fst (c w) = Some e ->
      trace w' = trace (snd (c w)) ->
      stderr w' = (stderr (snd (c w)) ++ [(step_message k ++ e ++ nl)%string])%list ->
      fails_fast w0 (Exit 1) w').
Proof.
  intros Hinv (evs2 & [Ht2 Hs2] & H) HC.
  destruct H as [(Hx & Hl & Hne)|(pre & cmd & e0 & -> & Hx & Hn & Hc & He)].
  - split; [congruence|]. intros e w' _ Ht' _.
    apply (so_far_quiet k w0 w w' (Exit 1) evs2); auto. congruence.
  - destruct Hinv as (evs & [Ht Hs] & Hnf & Hk). split.
    + intros Hnone. rewrite Hnone in He. destruct e0; [discriminate|].
      exists (evs ++ pre ++ [(SysExec (tokens cmd), None)])%list.
      split; [split; [now rewrite Ht2, Ht, <- !app_assoc | congruence]|].
      split; [repeat (apply Forall_app; split); auto; now repeat constructor|].
      rewrite !count_execs_app, Hk, (count_execs_none pre Hx). cbn. lia.
    + intros e w' Hsome Ht' Hs'. rewrite Hsome in He.
      destruct e0 as [e1|]; [|discriminate]. injection He as ->.
      exists (evs ++ pre ++ [(SysExec (tokens cmd), Some e1)])%list.
      split; [now rewrite Ht', Ht2, Ht, <- !app_assoc|].
      intros pre' ev post E Hev. rewrite app_assoc in E.
      destruct (fatal_is_last (evs ++ pre) [(SysExec (tokens cmd), Some e1)]
                              pre' ev post) as (-> & pre2 & E2 & ->); auto.
      { now apply Forall_app. }
      { apply fatal_last_one. }
      destruct pre2 as [|x [|y pre2]]; try discriminate E2.
      injection E2 as <-. rewrite app_nil_r.
      split; [reflexivity|]. split; [reflexivity|].
      intros argv e [= <- <-]. exists cmd. split; [reflexivity|].
      rewrite count_execs_app, Hk, (count_execs_none pre Hx), Nat.add_0_r.
      split; [intros ->; now apply HC|].
      now rewrite Hs', Hs2, Hs.
Qed.

Tactic Notation "main_setup" constr(errof) uconstr(lem) "as" simple_intropattern(pat) :=
  rewrite pbind_lift;
  match goal with
  | Hinv : so_far ?k ?w0 ?w |- context [snd (?c ?w)] =>
      let Hok := fresh "Hok" in
      let Hfail := fresh "Hfail" in
      destruct (so_far_setup k w0 w errof c Hinv lem) as [Hok Hfail];
      clear Hinv;
      let a := fresh "a" in
      let w1 := fresh "w" in
      destruct (c w) as [a w1]; cbn [fst snd] in Hok, Hfail |- *;
      destruct a as pat; cbn [error_of snd] in Hok |- *;
      first [ rewrite pbind_exit_on_Some; apply Hfail; reflexivity
            | rewrite pbind_exit_on_None; specialize (Hok eq_refl); clear Hfail
            | specialize (Hok eq_refl); clear Hfail ]
  end.

Tactic Notation "main_step" uconstr(lem) :=
  rewrite pbind_lift;
  match goal with
  | Hinv : so_far ?k ?w0 ?w |- context [snd (?c ?w)] =>
      let Hok := fresh "Hok" in
      let Hfail := fresh "Hfail" in
      destruct (so_far_step k w0 w _ c Hinv lem) as [Hok Hfail];
      [ try discriminate; try (intros _ cmd Hcmd; exact Hcmd)
      | clear Hinv;
        let err := fresh "err" in
        let w1 := fresh "w" in
        destruct (c w) as [err w1]; cbn [fst snd] in Hok, Hfail |- *;
        destruct err as [err|];
        [ rewrite pbind_exit_on_Some; apply (Hfail err); reflexivity
        | rewrite pbind_exit_on_None; specialize (Hok eq_refl); clear Hfail ] ]
  end.

(** The build fails fast. *)
Lemma main_fails_fast_from w0 args w :
  so_far 0 w0 w -> fails_fast w0 (fst (main args w)) (snd (main args w)).
Proof.
  intros Hinv. unfold main.
  main_setup (fun _ : unit => @None string) (setup_Println _ _) as [].
  match goal with
  | |- context [pbind (if ?b then ?x else ?y) ?K ?w1] =>
      assert (HK : forall home w2,
                 so_far 0 w0 w2 -> fails_fast w0 (fst (K home w2)) (snd (K home w2)))
  end.
  { clear. intros home w Hinv. cbv beta.
    main_setup (@error_of string) (setup_Abs _ _) as [manifest|e].
    cbv zeta.
    main_setup (@error_of string) (setup_Abs _ _) as [out|e].
    cbv zeta.
    main_setup (@snd toolchain error) (setup_newToolchain _ _) as [t [e|]].
    cbv zeta.
    main_setup (fun err : error => err) (setup_makeOutputDirs _ _) as [e|].
    main_step (step_generate _ _ _ _ _).
    main_step (step_compile _ _ _ _ _).
    main_step (step_translate _ _).
    main_step (step_package _ _ _ _ _).
    main_step (step_add _ _ _ _).
    main_step (step_sign _ _ _).
    main_step (step_align _ _ _ _).
    main_setup (fun _ : error => @None string) (setup_remove _ _) as [e|].
    all: cbv [pret fst snd].
    all: match goal with
         | H : so_far _ _ ?w |- _ =>
             apply (so_far_quiet _ w0 w w (Return tt) [] H);
               [ now rewrite app_nil_r | constructor | apply fatal_last_nil
               | right; constructor ]
         end. }
  assert (Hexit : forall (c : Proc string) K w',
             c w1 = (Exit 1, w') -> trace w' = trace w1 ->
             fails_fast w0 (fst (pbind c K w1)) (snd (pbind (B := unit) c K w1))).
  { intros c K w' Hc Ht. unfold pbind. rewrite Hc. cbn [fst snd].
    apply (so_far_quiet 0 w0 w1 w' (Exit 1) [] Hok);
      [ now rewrite app_nil_r | constructor | apply fatal_last_nil | now left ]. }
  assert (Hgo : forall (c : Proc string) K home,
             c w1 = (Return home, w1) ->
             (forall w2, so_far 0 w0 w2 ->
                         fails_fast w0 (fst (K home w2)) (snd (K home w2))) ->
             fails_fast w0 (fst (pbind c K w1)) (snd (pbind (B := unit) c K w1))).
  { intros c K home Hc HK'. unfold pbind. rewrite Hc. now apply HK'. }
  destruct (String.eqb (androidHome args) "").
  - destruct (os.LookupEnv "ANDROID_HOME" w1) as [v w1'] eqn:Ev.
    assert (w1' = w1) by (unfold os.LookupEnv in Ev; now injection Ev). subst w1'.
    destruct v as [home|].
    + destruct (String.eqb home "") eqn:Eh.
      * eapply Hexit.
        -- unfold pbind at 1. unfold lift at 1. rewrite Ev, Eh. reflexivity.
        -- reflexivity.
      * eapply Hgo; [|apply HK].
        unfold pbind at 1. unfold lift at 1. rewrite Ev, Eh. reflexivity.
    + eapply Hexit.
      * unfold pbind at 1. unfold lift at 1. rewrite Ev. reflexivity.
      * reflexivity.
  - eapply Hgo; [reflexivity | apply HK].
Qed.

Lemma main_fails_fast args w :
  fails_fast w (fst (main args w)) (snd (main args w)).
Proof. apply main_fails_fast_from, so_far_start. Qed.

(** ** Claims about the pipeline *)

(** C2.  A run of [main] in which the third child process, the one of
    the bytecode translation, fails: that process is the last call of
    the run (no packaging, signing or alignment process is started and
    the cleanup makes no call), the process exits with status 1, and the
    one line [main] has printed on the error stream names the
    translation step and the command of the translator. *)
Theorem translation_failure_stops_build args w pre argv e post :
  trace (snd (main args w)) = (trace w ++ pre ++ (SysExec argv, Some e) :: post)%list ->
  count_execs pre = 2 ->
  post = [] /\
  fst (main args w) = Exit 1 /\
  exit_status (fst (main args w)) = 1 /\
  exists cmd,
    is_translate_command cmd /\
    argv = tokens cmd /\
    stderr (snd (main args w))
    = (stderr w
         ++ [("could not translate bytecode with dexer due to error: "
                ++ ("error when running command " ++ cmd ++ " : " ++ e ++ nl)
                ++ nl)%string])%list.
Proof.
  intros Ht Hk.
  destruct (main_fails_fast args w) as (evs & Ht' & H).
  rewrite Ht' in Ht. apply app_inv_head in Ht.
  destruct (H pre (SysExec argv, Some e) post Ht eq_refl) as (-> & Ho & Hexec).
  destruct (Hexec argv e eq_refl) as (cmd & -> & Hc & Hs).
  rewrite Ho. repeat split; auto.
  exists cmd. rewrite Hk in Hs. repeat split; auto.
Qed.

Lemma translation_failure_stops_build_witness :
  @nil event = [] /\
  fst (main Sample.args world_failing_dx) = Exit 1 /\
  exit_status (fst (main Sample.args world_failing_dx)) = 1 /\
  exists cmd,
    is_translate_command cmd /\
    sample_dx_argv = tokens cmd /\
    stderr (snd (main Sample.args world_failing_dx))
    = (stderr world_failing_dx
         ++ [("could not translate bytecode with dexer due to error: "
                ++ ("error when running command " ++ cmd ++ " : " ++ "exit status 2" ++ nl)
                ++ nl)%string])%list.
Proof.
  apply (translation_failure_stops_build
           Sample.args world_failing_dx
           (removelast (trace (snd (main Sample.args world_failing_dx))))
           sample_dx_argv "exit status 2" []).
  - vm_compute. reflexivity.
  - vm_compute. reflexivity.
Defined.

(** C9.  [run] replaces every maximal run of white space of the command
    line with one space and splits the result at the spaces: the pieces
    hold no white space, the first is the program and the others are its
    arguments; it starts that one process, and returns an error exactly
    when the process could not be started or exited with a status other
    than 0.  In a run of [main], a child process that fails is the last
    call of the run: the process exits with status 1, and [main] has
    printed one line with the step and the command that failed. *)
Theorem run_splits_and_failure_aborts t command w args w0 :
  (collapsed command (strings.Join (tokens command) " ") /\
   (forall r, collapsed command r -> r = strings.Join (tokens command) " ") /\
   Forall (fun tok => all_chars (fun c => negb (regexp.isSpace c)) tok = true)
          (tokens command) /\
   exists name arguments e0,
     tokens command = name :: arguments /\
     grows w (snd (run t command w)) [(SysExec (name :: arguments), e0)] /\
     fst (run t command w)
     = option_map (fun e => "error when running command " ++ command ++ " : " ++ e ++ nl) e0 /\
     (fault w (trace w) (SysExec (name :: arguments)) = None ->
      e0 = exec.run_error (fst (tools w (name :: arguments) (cwd w) (disk w))))) /\
  (forall pre argv e post,
      trace (snd (main args w0)) = (trace w0 ++ pre ++ (SysExec argv, Some e) :: post)%list ->
      post = [] /\
      fst (main args w0) = Exit 1 /\
      exists cmd,
        argv = tokens cmd /\
        stderr (snd (main args w0))
        = (stderr w0
             ++ [(step_message (count_execs pre)
                    ++ ("error when running command " ++ cmd ++ " : " ++ e ++ nl)
                    ++ nl)%string])%list).
Proof.
  split.
  - split.
    { unfold tokens. rewrite Join_Split. apply replace_spaces_collapsed. }
    split.
    { intros r Hr. unfold tokens. rewrite Join_Split. now apply collapsed_unique. }
    split; [apply tokens_no_space|].
    destruct (run_spec t command w) as (e0 & He & Hg & Hf).
    pose proof (Split_hd_tl " " (regexp.spaces_ReplaceAllString command)) as Hs.
    fold (tokens command) in Hs.
    exists (hd "" (tokens command)), (tl (tokens command)), e0.
    rewrite Hs. repeat split; auto; apply Hg.
  - intros pre argv e post Ht.
    destruct (main_fails_fast args w0) as (evs & Ht' & H).
    rewrite Ht' in Ht. apply app_inv_head in Ht.
    destruct (H pre (SysExec argv, Some e) post Ht eq_refl) as (-> & Ho & Hexec).
    destruct (Hexec argv e eq_refl) as (cmd & -> & _ & Hs).
    repeat split; auto. now exists cmd.
Qed.

Lemma run_splits_and_failure_aborts_witness :
  (collapsed sample_command (strings.Join (tokens sample_command) " ") /\
   tokens sample_command = ["javac"; "-d"; "out"; "A.java"]) /\
  (@nil event = [] /\
   fst (main Sample.args world_failing_dx) = Exit 1 /\
   exists cmd,
     sample_dx_argv = tokens cmd /\
     stderr (snd (main Sample.args world_failing_dx))
     = (stderr world_failing_dx
          ++ [(step_message
                 (count_execs (removelast (trace (snd (main Sample.args world_failing_dx)))))
                 ++ ("error when running command " ++ cmd ++ " : " ++ "exit status 2" ++ nl)
                 ++ nl)%string])%list).
Proof.
  destruct (run_splits_and_failure_aborts
              sample_toolchain sample_command Sample.world
              Sample.args world_failing_dx) as [[Hc _] Hmain].
  split.
  - split; [exact Hc | vm_compute; reflexivity].
  - apply (Hmain (removelast (trace (snd (main Sample.args world_failing_dx))))
                 sample_dx_argv "exit status 2" []).
    vm_compute. reflexivity.
Defined.

(** C6.  The paths that the discovery returns are paths of entries
    below the root that are not directories and whose name ends in
    [.java], in every run; when it returns no error, they are all of
    them.  It returns an error exactly when one of its calls failed, and
    none when the root is there and the environment fails no call.  Its
    error makes the compilation step return an error without starting
    the compiler, and in a run of [main] a failed call of the walk is
    the last call of the run, which exits with status 1. *)
Theorem file_discovery_exact rootDir w paths err w' :
  findJavaSourceFiles rootDir w = ((paths, err), w') ->
  (forall p, In p paths ->
             exists n nm,
               tree.resolve (cwd w) rootDir (disk w) = Some n /\
               below n rootDir (filepath.basename rootDir) p nm File /\
               strings.HasSuffix nm ".java" = true) /\
  (err = None ->
   exists n,
     tree.resolve (cwd w) rootDir (disk w) = Some n /\
     forall p, In p paths <->
               exists nm, below n rootDir (filepath.basename rootDir) p nm File /\
                          strings.HasSuffix nm ".java" = true) /\
  (exists evs,
      trace w' = (trace w ++ evs)%list /\
      ((exists c e, In (c, Some e) evs) <-> err <> None)) /\
  (fault_free w -> tree.exists_ (cwd w) rootDir (disk w) = true -> err = None) /\
  (forall t generated out e,
      err = Some e ->
      compileJavaSourceFilesToJavaVirtualMachineBytecode t rootDir generated out w
      = (Some ("could not find java source files to compile due to error: " ++ e), w')) /\
  (forall args w0 pre c e post,
      trace (snd (main args w0)) = (trace w0 ++ pre ++ (c, Some e) :: post)%list ->
      is_walk_call c = true ->
      post = [] /\ fst (main args w0) = Exit 1).
Proof.
  intros H.
  destruct (findJavaSourceFiles_walked rootDir w)
    as (evs & paths' & err' & E & _ & Hsound & He & Hff).
  rewrite H in E. injection E as -> -> ->.
  split; [|split; [|split; [|split; [|split]]]].
  - intros p Hp. destruct (Hsound p Hp) as (n & Hn & Hin).
    apply In_java_paths in Hin. destruct Hin as (nm & Hb & Hm).
    exists n, nm. now rewrite <- javaFilename_MatchString_suffix.
  - intros ->. destruct He as (_ & n & Hn & ->). exists n. split; [exact Hn|].
    intros p. rewrite In_java_paths.
    split; intros (nm & Hb & Hm); exists nm;
      [rewrite <- javaFilename_MatchString_suffix | rewrite javaFilename_MatchString_suffix];
      auto.
  - exists evs. split; [reflexivity|]. destruct err' as [msg|].
    + destruct He as (pre & c & e & -> & _). split; [discriminate|].
      intros _. exists c, e. apply in_or_app. right. now left.
    + destruct He as [Hs _]. split; [|congruence].
      intros (c & e & Hin). rewrite Forall_forall in Hs. now specialize (Hs _ Hin).
  - exact Hff.
  - intros t generated out e ->.
    unfold compileJavaSourceFilesToJavaVirtualMachineBytecode.
    rewrite bind_unfold, H. reflexivity.
  - intros args w0 pre c e post Ht Hc.
    destruct (main_fails_fast args w0) as (evs' & Ht' & Hfast).
    rewrite Ht' in Ht. apply app_inv_head in Ht.
    destruct (Hfast pre (c, Some e) post Ht) as (-> & Ho & _).
    + now destruct c.
    + now split.
Qed.

Lemma file_discovery_exact_witness :
  (forall p, In p ["src/A.java"; "src/sub/C.java"] ->
             exists n nm,
               tree.resolve (cwd world_sources) "src" (disk world_sources) = Some n /\
               below n "src" (filepath.basename "src") p nm File /\
               strings.HasSuffix nm ".java" = true) /\
  (@None string = None ->
   exists n,
     tree.resolve (cwd world_sources) "src" (disk world_sources) = Some n /\
     forall p, In p ["src/A.java"; "src/sub/C.java"] <->
               exists nm, below n "src" (filepath.basename "src") p nm File /\
                          strings.HasSuffix nm ".java" = true) /\
  (exists evs,
      trace (snd (findJavaSourceFiles "src" world_sources))
      = (trace world_sources ++ evs)%list /\
      ((exists c e, In (c, Some e) evs) <-> @None string <> None)) /\
  (fault_free world_sources ->
   tree.exists_ (cwd world_sources) "src" (disk world_sources) = true ->
   @None string = None) /\
  (forall t generated out e,
      None = Some e ->
      compileJavaSourceFilesToJavaVirtualMachineBytecode t "src" generated out world_sources
      = (Some ("could not find java source files to compile due to error: " ++ e),
         snd (findJavaSourceFiles "src" world_sources))) /\
  (forall args w0 pre c e post,
      trace (snd (main args w0)) = (trace w0 ++ pre ++ (c, Some e) :: post)%list ->
      is_walk_call c = true ->
      post = [] /\ fst (main args w0) = Exit 1).
Proof.
  apply (file_discovery_exact "src" world_sources
           ["src/A.java"; "src/sub/C.java"] None
           (snd (findJavaSourceFiles "src" world_sources))).
  vm_compute. reflexivity.
Defined.

(** ** The code against its own documentation *)

(** C3 on the code: every step of this build succeeds, but the
    translator has written no [classes.dex]; the cleanup fails at its
    first [stat], and [main] drops the error: it prints nothing on the
    error stream and returns, so the process exits with status 0, and
    the files the cleanup did not reach are still there. *)
Theorem cleanup_error_is_dropped :
  exists w',
    main Sample.args world_lazy_dx = (Return tt, w') /\
    exit_status (Return tt) = 0 /\
    stderr w' = [] /\
    last (trace w') (SysGetwd, None)
    = (SysStat "classes.dex", Some "stat classes.dex: no such file or directory") /\
    count_execs (trace w') = 7 /\
    Forall (fun ev => is_exec (fst ev) = true -> snd ev = None) (trace w') /\
    tree.exists_ (cwd w') "app.apk.unaligned" (disk w') = true /\
    tree.exists_ (cwd w') "generated_java_sources" (disk w') = true /\
    tree.exists_ (cwd w') "java_virtual_machine_bytecode" (disk w') = true.
Proof.
  exists (snd (main Sample.args world_lazy_dx)).
  split; [vm_compute; reflexivity|].
  split; [reflexivity|].
  split; [vm_compute; reflexivity|].
  split; [vm_compute; reflexivity|].
  split; [vm_compute; reflexivity|].
  split; [|repeat split; vm_compute; reflexivity].
  vm_compute. repeat constructor; discriminate.
Qed.

(** C4 on the code: a build with the flag [-out /out], run in [/work],
    in which every step and the cleanup succeed.  The intermediate
    files of the working directory are gone, but the final archive is in
    the working directory and not under the output directory, and the
    generated sources, which are the only thing the build has written
    under the output directory, are still there. *)
Theorem artifacts_ignore_output_directory :
  exists w',
    main Sample.args_out Sample.world_out = (Return tt, w') /\
    Forall succeeded (trace w') /\
    stderr w' = [] /\
    cwd w' = "/work" /\
    tree.exists_ (cwd w') "/work/classes.dex" (disk w') = false /\
    tree.exists_ (cwd w') "/work/app.apk.unaligned" (disk w') = false /\
    tree.exists_ (cwd w') "/work/generated_java_sources" (disk w') = false /\
    tree.exists_ (cwd w') "/work/java_virtual_machine_bytecode" (disk w') = false /\
    tree.exists_ (cwd w') "/work/app.apk" (disk w') = true /\
    tree.exists_ (cwd w') "/out/app.apk" (disk w') = false /\
    tree.exists_ (cwd w') "/out/generated_java_sources/R.java" (disk w') = true.
Proof.
  exists (snd (main Sample.args_out Sample.world_out)).
  split; [vm_compute; reflexivity|].
  split; [vm_compute; repeat constructor|].
  repeat split; vm_compute; reflexivity.
Qed.

(* ================================================================= *)
(** * Further properties of the program *)

(** ** The command lines of the steps *)

Lemma split_collapsed_plain b s r :
  all_chars (fun c => negb (regexp.isSpace c)) s = true ->
  s <> "" ->
  split_collapsed b (s ++ String " " r) = s :: split_collapsed true r.
Proof.
  unfold split_collapsed. revert b. induction s as [|c s IH]; intros b Hs Hne; [congruence|].
  cbn in Hs. apply andb_prop in Hs as [Hc Hs]. apply negb_true_iff in Hc.
  cbn [append regexp.replace_spaces]. rewrite Hc.
  assert (Hsp : Ascii.eqb c " " = false).
  { destruct (Ascii.eqb_spec c " "); [subst; discriminate|reflexivity]. }
  destruct s as [|c2 s].
  - cbn [append regexp.replace_spaces]. cbn [regexp.isSpace]. 
    change (regexp.isSpace " ") with true. cbv iota.
    cbn [strings.Split]. rewrite Hsp. change (Ascii.eqb " " " ") with true. cbv iota.
    reflexivity.
  - cbn [strings.Split]. rewrite Hsp.
    rewrite (IH false Hs) by discriminate. reflexivity.
Qed.

Lemma split_collapsed_last b s :
  all_chars (fun c => negb (regexp.isSpace c)) s = true ->
  s <> "" ->
  split_collapsed b s = [s].
Proof.
  unfold split_collapsed. revert b. induction s as [|c s IH]; intros b Hs Hne; [congruence|].
  cbn in Hs. apply andb_prop in Hs as [Hc Hs]. apply negb_true_iff in Hc.
  cbn [regexp.replace_spaces]. rewrite Hc.
  assert (Hsp : Ascii.eqb c " " = false).
  { destruct (Ascii.eqb_spec c " "); [subst; discriminate|reflexivity]. }
  cbn [strings.Split]. rewrite Hsp.
  destruct s as [|c2 s].
  - reflexivity.
  - rewrite (IH false Hs) by discriminate. reflexivity.
Qed.

Lemma word_parts s :
  word s = true ->
  all_chars (fun c => negb (regexp.isSpace c)) s = true /\ s <> "".
Proof.
  unfold word. intros H. apply andb_prop in H as [H1 H2]. split; [exact H2|].
  intros ->. discriminate.
Qed.

Lemma Join_cons s s2 rest :
  strings.Join (s :: s2 :: rest) " " = s ++ String " " (strings.Join (s2 :: rest) " ").
Proof. reflexivity. Qed.

Lemma split_collapsed_Join ws :
  ws <> [] -> Forall (fun s => word s = true) ws ->
  forall b, split_collapsed b (strings.Join ws " ") = ws.
Proof.
  induction ws as [|s ws IH]; [congruence|]. intros _ Hws b.
  inversion Hws as [|? ? Hs Hrest]; subst.
  apply word_parts in Hs as [Hs Hne].
  destruct ws as [|s2 ws].
  - cbn [strings.Join String.concat]. now apply split_collapsed_last.
  - rewrite Join_cons, split_collapsed_plain by assumption.
    rewrite IH; [reflexivity|discriminate|assumption].
Qed.

Lemma tokens_Join ws :
  ws <> [] -> Forall (fun s => word s = true) ws ->
  tokens (strings.Join ws " ") = ws.
Proof. intros H1 H2. exact (split_collapsed_Join ws H1 H2 false). Qed.

Lemma run_starts t command w : starts (run t command) w (tokens command).
Proof.
  destruct (run_spec t command w) as (e0 & He & [Hg _] & _).
  exists e0. split; [exact Hg|]. rewrite He. destruct e0; cbn; split; congruence.
Qed.

Lemma split_collapsed_space r :
  split_collapsed true (String " " r) = split_collapsed true r.
Proof. reflexivity. Qed.

Lemma Join_app l1 l2 :
  l1 <> [] -> l2 <> [] ->
  strings.Join (l1 ++ l2) " " = strings.Join l1 " " ++ String " " (strings.Join l2 " ").
Proof.
  intros H1 H2. induction l1 as [|a l1 IH]; [congruence|].
  destruct l1 as [|b l1].
  - destruct l2; [congruence|]. reflexivity.
  - change ((a :: b :: l1) ++ l2)%list with (a :: (b :: l1) ++ l2)%list.
    cbn [app]. rewrite Join_cons. change (b :: (l1 ++ l2)%list) with ((b :: l1) ++ l2)%list.
    rewrite IH by discriminate. rewrite Join_cons.
    rewrite string_app_assoc. reflexivity.
Qed.

Lemma split_collapsed_words_then ws r :
  ws <> [] -> Forall (fun s => word s = true) ws ->
  forall b, split_collapsed b (strings.Join ws " " ++ String " " r)
            = (ws ++ split_collapsed true r)%list.
Proof.
  induction ws as [|s ws IH]; [congruence|]. intros _ Hws b.
  inversion Hws as [|? ? Hs Hrest]; subst.
  apply word_parts in Hs as [Hs Hne].
  destruct ws as [|s2 ws].
  - cbn [strings.Join String.concat]. now rewrite split_collapsed_plain.
  - rewrite Join_cons. rewrite string_app_assoc.
    change (String " " (strings.Join (s2 :: ws) " ") ++ String " " r)
      with (String " " (strings.Join (s2 :: ws) " " ++ String " " r)).
    rewrite split_collapsed_plain by assumption.
    rewrite IH; [reflexivity|discriminate|assumption].
Qed.

(** X1.  A command line made of words (texts that are not empty and hold no
    white space) joined by single spaces: [run] starts one child
    process, whose argument vector is these words as they are, and
    returns nil exactly when that process went well. *)
Theorem run_passes_words t ws w :
  ws <> [] -> Forall (fun s => word s = true) ws ->
  starts (run t (strings.Join ws " ")) w ws.
Proof.
  intros H1 H2. rewrite <- (tokens_Join ws H1 H2) at 2. apply run_starts.
Qed.

Lemma run_passes_words_witness :
  starts (run sample_toolchain (strings.Join ["javac"; "-d"; "out"; "A.java"] " "))
         Sample.world ["javac"; "-d"; "out"; "A.java"].
Proof.
  apply (run_passes_words sample_toolchain ["javac"; "-d"; "out"; "A.java"] Sample.world).
  - discriminate.
  - repeat constructor.
Defined.

(** X2.  Arguments that are not words do not reach the child process as
    they were formatted.  Between words, an empty argument disappears
    from the argument vector; an empty last argument arrives as an
    empty string; an empty first argument makes the empty string the
    program name; an argument with a space inside arrives as two
    arguments. *)
Theorem run_loses_arguments t pre post a b w :
  pre <> [] -> Forall (fun s => word s = true) pre ->
  post <> [] -> Forall (fun s => word s = true) post ->
  word a = true -> word b = true ->
  starts (run t (strings.Join (pre ++ "" :: post) " ")) w (pre ++ post) /\
  starts (run t (strings.Join (pre ++ [""]) " ")) w (pre ++ [""]) /\
  starts (run t (strings.Join ("" :: post) " ")) w ("" :: post) /\
  starts (run t (strings.Join (pre ++ (a ++ " " ++ b) :: post) " ")) w (pre ++ a :: b :: post).
Proof.
  intros Hpre Wpre Hpost Wpost Ha Hb.
  assert (Hempty : forall l, l <> [] ->
            strings.Join ("" :: l) " " = String " " (strings.Join l " ")).
  { intros [|x l] H; [congruence|reflexivity]. }
  repeat split.
  - replace (pre ++ post)%list with (tokens (strings.Join (pre ++ "" :: post) " "));
      [apply run_starts|].
    unfold tokens, regexp.spaces_ReplaceAllString.
    change (strings.Split " " (regexp.replace_spaces false ?x)) with (split_collapsed false x).
    rewrite Join_app, Hempty by (assumption || discriminate).
    rewrite split_collapsed_words_then by assumption.
    rewrite split_collapsed_space, split_collapsed_Join by assumption. reflexivity.
  - replace (pre ++ [""])%list with (tokens (strings.Join (pre ++ [""]) " ")) at 2;
      [apply run_starts|].
    unfold tokens, regexp.spaces_ReplaceAllString. 
    change (strings.Split " " (regexp.replace_spaces false ?x)) with (split_collapsed false x).
    rewrite Join_app by (assumption || discriminate).
    rewrite split_collapsed_words_then by assumption. reflexivity.
  - replace ("" :: post) with (tokens (strings.Join ("" :: post) " ")) at 2;
      [apply run_starts|].
    rewrite Hempty by assumption.
    unfold tokens, regexp.spaces_ReplaceAllString.
    cbn [regexp.replace_spaces]. change (regexp.isSpace " ") with true. cbv iota.
    cbn [strings.Split]. change (Ascii.eqb " " " ") with true. cbv iota.
    f_equal. exact (split_collapsed_Join post Hpost Wpost true).
  - replace (strings.Join (pre ++ (a ++ " " ++ b) :: post) " ")
      with (strings.Join (pre ++ a :: b :: post) " ").
    + rewrite <- (tokens_Join (pre ++ a :: b :: post)) at 2; [apply run_starts| |].
      * destruct pre; discriminate.
      * apply Forall_app. split; [assumption|]. repeat constructor; assumption.
    + rewrite !Join_app by (assumption || discriminate).
      f_equal. f_equal. destruct post as [|p post]; [congruence|].
      rewrite !Join_cons. now rewrite !string_app_assoc.
Qed.

Lemma run_loses_arguments_witness :
  starts (run sample_toolchain (strings.Join (["aapt"; "-S"] ++ "" :: ["-I"; "android.jar"]) " "))
         Sample.world (["aapt"; "-S"] ++ ["-I"; "android.jar"]) /\
  starts (run sample_toolchain (strings.Join (["aapt"; "-S"] ++ [""]) " "))
         Sample.world (["aapt"; "-S"] ++ [""]) /\
  starts (run sample_toolchain (strings.Join ("" :: ["-I"; "android.jar"]) " "))
         Sample.world ("" :: ["-I"; "android.jar"]) /\
  starts (run sample_toolchain
              (strings.Join (["aapt"; "-S"] ++ ("my" ++ " " ++ "res") :: ["-I"; "android.jar"]) " "))
         Sample.world (["aapt"; "-S"] ++ "my" :: "res" :: ["-I"; "android.jar"]).
Proof.
  apply (run_loses_arguments sample_toolchain ["aapt"; "-S"] ["-I"; "android.jar"]
                             "my" "res" Sample.world).
  - discriminate.
  - repeat constructor.
  - discriminate.
  - repeat constructor.
  - reflexivity.
  - reflexivity.
Defined.

Lemma no_space_app a b : no_space (a ++ b) = no_space a && no_space b.
Proof. apply all_chars_app. Qed.


Lemma word_app_l a b : word a = true -> no_space b = true -> word (a ++ b) = true.
Proof.
  intros Ha Hb. apply word_parts in Ha as [Ha Hne]. unfold word.
  apply andb_true_intro. split.
  - destruct a; [congruence|reflexivity].
  - fold (no_space (a ++ b)). rewrite no_space_app. fold (no_space a) in Ha.
    now rewrite Ha, Hb.
Qed.

Lemma word_app_r a b : no_space a = true -> word b = true -> word (a ++ b) = true.
Proof.
  intros Ha Hb. apply word_parts in Hb as [Hb Hne]. unfold word.
  apply andb_true_intro. split.
  - destruct a; [destruct b; [congruence|reflexivity]|reflexivity].
  - fold (no_space (a ++ b)). rewrite no_space_app. fold (no_space b) in Hb.
    now rewrite Ha, Hb.
Qed.

Ltac words :=
  repeat first [ exact I | assumption | reflexivity
               | apply Forall_cons | apply Forall_nil
               | apply word_app_l; [assumption|reflexivity]
               | apply word_app_r; [assumption|reflexivity] ].

Ltac starts_words argv :=
  match goal with
  | |- starts (run ?t ?cmd) ?w _ =>
      replace cmd with (strings.Join argv " ");
      [ rewrite <- (tokens_Join argv) at 2; [apply run_starts | discriminate | words]
      | cbn [strings.Join String.concat]; rewrite ?string_app_assoc; reflexivity ]
  end.

(** X3.  When the paths of the toolchain and the paths given to the steps
    are words, the steps that generate the resource bindings,
    translate the bytecode, package, add the bytecode and align start
    aapt, dx and zipalign with exactly these argument vectors. *)
Theorem steps_pass_arguments t J M S F apk dex classes out w :
  Forall (fun s => word s = true)
         [aaptBin t; dxBin t; androidLib t; J; M; S; F; apk; dex; classes; out] ->
  no_space (buildTools t) = true ->
  starts (generateJavaFileForAndroidResources t J M S) w
         [aaptBin t; "package"; "-f"; "-m"; "-J"; J; "-M"; M; "-S"; S; "-I"; androidLib t] /\
  starts (translateJavaVirtualMachineMBytecodeToAndroidRuntimeBytecode t dex classes) w
         [dxBin t; "--dex"; "--min-sdk-version=26"; "--output"; dex; classes] /\
  starts (createUnalignedAndroidApplicationPackage t M S F) w
         [aaptBin t; "package"; "-f"; "-M"; M; "-S"; S; "-I"; androidLib t; "-F"; F] /\
  starts (addAndroidRuntimeBytecodeToAndroidApplicationPackage t apk dex) w
         [aaptBin t; "add"; apk; dex] /\
  starts (alignUncompressedDataInZipFileToFourByteBoundariesForFasterMemoryMappingAtRuntime
            t apk out) w
         [buildTools t ++ "/zipalign"; "-f"; "4"; apk; out].
Proof.
  intros Hw Hbt.
  repeat match goal with
         | H : Forall _ (_ :: _) |- _ => inversion H; clear H; subst
         end.
  repeat split.
  - unfold generateJavaFileForAndroidResources.
    starts_words [aaptBin t; "package"; "-f"; "-m"; "-J"; J; "-M"; M; "-S"; S; "-I"; androidLib t].
  - unfold translateJavaVirtualMachineMBytecodeToAndroidRuntimeBytecode.
    starts_words [dxBin t; "--dex"; "--min-sdk-version=26"; "--output"; dex; classes].
  - unfold createUnalignedAndroidApplicationPackage.
    starts_words [aaptBin t; "package"; "-f"; "-M"; M; "-S"; S; "-I"; androidLib t; "-F"; F].
  - unfold addAndroidRuntimeBytecodeToAndroidApplicationPackage.
    starts_words [aaptBin t; "add"; apk; dex].
  - unfold alignUncompressedDataInZipFileToFourByteBoundariesForFasterMemoryMappingAtRuntime.
    starts_words [buildTools t ++ "/zipalign"; "-f"; "4"; apk; out].
Qed.

Lemma steps_pass_arguments_witness :
  starts (generateJavaFileForAndroidResources sample_toolchain
            "/work/generated_java_sources" "/work/AndroidManifest.xml" "xml") Sample.world
         [aaptBin sample_toolchain; "package"; "-f"; "-m"; "-J"; "/work/generated_java_sources";
          "-M"; "/work/AndroidManifest.xml"; "-S"; "xml"; "-I"; androidLib sample_toolchain] /\
  starts (translateJavaVirtualMachineMBytecodeToAndroidRuntimeBytecode sample_toolchain
            "classes.dex" "java_virtual_machine_bytecode") Sample.world
         [dxBin sample_toolchain; "--dex"; "--min-sdk-version=26"; "--output";
          "classes.dex"; "java_virtual_machine_bytecode"] /\
  starts (createUnalignedAndroidApplicationPackage sample_toolchain
            "/work/AndroidManifest.xml" "xml" "app.apk.unaligned") Sample.world
         [aaptBin sample_toolchain; "package"; "-f"; "-M"; "/work/AndroidManifest.xml";
          "-S"; "xml"; "-I"; androidLib sample_toolchain; "-F"; "app.apk.unaligned"] /\
  starts (addAndroidRuntimeBytecodeToAndroidApplicationPackage sample_toolchain
            "app.apk.unaligned" "classes.dex") Sample.world
         [aaptBin sample_toolchain; "add"; "app.apk.unaligned"; "classes.dex"] /\
  starts (alignUncompressedDataInZipFileToFourByteBoundariesForFasterMemoryMappingAtRuntime
            sample_toolchain "app.apk.unaligned" "app.apk") Sample.world
         [(buildTools sample_toolchain ++ "/zipalign")%string; "-f"; "4";
          "app.apk.unaligned"; "app.apk"].
Proof.
  apply (steps_pass_arguments sample_toolchain
           "/work/generated_java_sources" "/work/AndroidManifest.xml" "xml"
           "app.apk.unaligned" "app.apk.unaligned" "classes.dex"
           "java_virtual_machine_bytecode" "app.apk" Sample.world).
  - repeat constructor.
  - reflexivity.
Defined.





(** ** Cleanup and output directories *)

Lemma find_remove_entry_other c c' es :
  c <> c' -> tree.find_entry c' (tree.remove_entry c es) = tree.find_entry c' es.
Proof.
  intros Hne. induction es as [|[k v] rest IH]; simpl; [reflexivity|].
  destruct (String.eqb_spec k c) as [->|Hk]; simpl.
  - destruct (String.eqb_spec c c'); [contradiction|exact IH].
  - destruct (String.eqb k c'); [reflexivity|exact IH].
Qed.

Lemma find_put_entry_other c c' n es :
  c <> c' -> tree.find_entry c' (tree.put_entry c n es) = tree.find_entry c' es.
Proof.
  intros Hne. induction es as [|[k v] rest IH]; simpl.
  - destruct (String.eqb_spec c c'); [contradiction|reflexivity].
  - destruct (String.eqb_spec k c) as [->|Hk]; simpl.
    + destruct (String.eqb_spec c c'); [contradiction|reflexivity].
    + destruct (String.eqb k c'); [reflexivity|exact IH].
Qed.

(** The shape of a change at a path: it goes through directories. *)
Lemma alter_cases elems new d d' :
  tree.alter elems new d = Some d' ->
  exists c rest es, elems = c :: rest /\ d = Dir es /\
    match rest with
    | [] => d' = Dir (tree.set_entry c new es)
    | _ :: _ =>
        exists child child',
          tree.find_entry c es = Some child /\
          tree.alter rest new child = Some child' /\
          d' = Dir (tree.put_entry c child' es)
    end.
Proof.
  destruct elems as [|c rest]; [destruct d; discriminate|].
  destruct d as [|es]; [destruct rest; discriminate|].
  intros H. exists c, rest, es. repeat split.
  destruct rest as [|c2 rest].
  - simpl in H. now injection H as <-.
  - rewrite alter_deeper in H.
    destruct (tree.find_entry c es) as [child|]; [|discriminate].
    destruct (tree.alter (c2 :: rest) new child) as [child'|] eqn:E; [|discriminate].
    injection H as <-. now exists child, child'.
Qed.

(** A deletion brings nothing into being. *)
Lemma lookup_alter_None_absent elems :
  forall q d d',
    tree.alter elems None d = Some d' ->
    tree.lookup q d = None -> tree.lookup q d' = None.
Proof.
  induction elems as [|c rest IH]; intros q d d' H Hq.
  - destruct d; discriminate.
  - apply alter_cases in H as (c0 & rest0 & es & [= <- <-] & -> & H).
    destruct q as [|c' q]; [discriminate|]. cbn [tree.lookup] in Hq |- *.
    destruct (String.eqb_spec c c') as [<-|Hne].
    + destruct rest as [|c2 rest].
      * subst d'. cbn [tree.lookup tree.set_entry]. now rewrite find_remove_entry.
      * destruct H as (child & child' & Hf & Ha & ->).
        cbn [tree.lookup]. rewrite find_put_entry. rewrite Hf in Hq.
        exact (IH _ _ _ Ha Hq).
    + destruct rest as [|c2 rest].
      * subst d'. cbn [tree.lookup tree.set_entry].
        now rewrite find_remove_entry_other.
      * destruct H as (child & child' & Hf & Ha & ->).
        cbn [tree.lookup]. now rewrite find_put_entry_other.
Qed.

(** A change at a path leaves in place what is not at or below it. *)
Lemma lookup_alter_elsewhere elems new :
  forall q d d',
    tree.alter elems new d = Some d' ->
    leads_to elems q = false ->
    kind (tree.lookup q d') = kind (tree.lookup q d).
Proof.
  induction elems as [|c rest IH]; intros q d d' H Hq.
  - destruct d; discriminate.
  - apply alter_cases in H as (c0 & rest0 & es & [= <- <-] & -> & H).
    destruct q as [|c' q].
    { destruct rest; [subst d'|destruct H as (? & ? & _ & _ & ->)]; reflexivity. }
    cbn [leads_to] in Hq.
    destruct (String.eqb_spec c c') as [<-|Hne]; cbn [andb] in Hq.
    + destruct rest as [|c2 rest]; [discriminate|].
      destruct H as (child & child' & Hf & Ha & ->).
      cbn [tree.lookup]. rewrite find_put_entry, Hf.
      exact (IH _ _ _ Ha Hq).
    + destruct rest as [|c2 rest].
      * subst d'. cbn [tree.lookup]. destruct new as [n|]; cbn [tree.set_entry].
        -- now rewrite find_put_entry_other.
        -- now rewrite find_remove_entry_other.
      * destruct H as (child & child' & Hf & Ha & ->).
        cbn [tree.lookup]. now rewrite find_put_entry_other.
Qed.

(** What has been put at a path is there. *)
Lemma lookup_alter_Some elems n :
  forall d d', tree.alter elems (Some n) d = Some d' -> tree.lookup elems d' = Some n.
Proof.
  induction elems as [|c rest IH]; intros d d' H.
  - destruct d; discriminate.
  - apply alter_cases in H as (c0 & rest0 & es & [= <- <-] & -> & H).
    destruct rest as [|c2 rest].
    + subst d'. cbn [tree.lookup tree.set_entry]. now rewrite find_put_entry.
    + destruct H as (child & child' & Hf & Ha & ->).
      cbn [tree.lookup]. rewrite find_put_entry. exact (IH _ _ Ha).
Qed.

Lemma unlink_deletes c p w r :
  deletes p w (set_disk (snd (os.unlink c p w)) (log (c, r) w)).
Proof.
  unfold deletes, os.unlink. split; [reflexivity|].
  destruct (tree.alter (tree.elems (cwd w) p) None (disk w)) as [d|] eqn:E;
    [right|left]; reflexivity.
Qed.

Lemma Remove_deletes p w : deletes p w (snd (os.Remove p w)).
Proof.
  unfold os.Remove. rewrite bind_unfold, sys_unfold.
  destruct (fault w (trace w) (SysRemove p)); [split; [reflexivity|left; reflexivity]|].
  destruct (tree.resolve (cwd w) p (disk w)) as [[|[|e es]]|];
    cbn [fst snd ret]; solve [apply unlink_deletes | split; [reflexivity|left; reflexivity]].
Qed.

Lemma RemoveAll_deletes p w : deletes p w (snd (os.RemoveAll p w)).
Proof.
  unfold os.RemoveAll. rewrite bind_unfold, sys_unfold.
  destruct (fault w (trace w) (SysRemoveAll p)); [split; [reflexivity|left; reflexivity]|].
  destruct (tree.resolve (cwd w) p (disk w)) as [n|];
    cbn [fst snd ret]; solve [apply unlink_deletes | split; [reflexivity|left; reflexivity]].
Qed.

Lemma Stat_reads p w : cwd (snd (os.Stat p w)) = cwd w /\ disk (snd (os.Stat p w)) = disk w.
Proof. destruct (Stat_extend p w) as (r & ->). split; reflexivity. Qed.

Lemma deletes_absent p w w' q :
  deletes p w w' ->
  tree.exists_ (cwd w) q (disk w) = false -> tree.exists_ (cwd w') q (disk w') = false.
Proof.
  intros [-> [-> | Ha]]; [trivial|].
  unfold tree.exists_, tree.resolve. destruct (String.eqb q ""); [reflexivity|].
  destruct (tree.lookup (tree.elems (cwd w) q) (disk w)) eqn:E; [discriminate|].
  intros _. now rewrite (lookup_alter_None_absent _ _ _ _ Ha E).
Qed.

Lemma deletes_elsewhere p w w' q :
  deletes p w w' ->
  at_or_below (cwd w) p q = false ->
  kind_at w' q = kind_at w q.
Proof.
  unfold kind_at. intros [-> [-> | Ha]] Hq; [reflexivity|].
  unfold tree.resolve. destruct (String.eqb q ""); [reflexivity|].
  exact (lookup_alter_elsewhere _ _ _ _ _ Ha Hq).
Qed.

(** The state in which [remove] goes on after it has dealt with its
    first path. *)
Lemma remove_next s rest w :
  exists w1,
    deletes s w w1 /\
    (fst (remove (s :: rest) w) = None ->
     tree.exists_ (cwd w1) s (disk w1) = false /\
     remove (s :: rest) w = remove rest w1) /\
    (snd (remove (s :: rest) w) = w1 \/ remove (s :: rest) w = remove rest w1).
Proof.
  rewrite remove_cons.
  destruct (Stat_reads s w) as [Hc Hd].
  destruct (os.Stat s w) as [[f|err] w0] eqn:Es; cbn [snd] in Hc, Hd.
  2:{ exists w0. split; [split; [exact Hc|left; exact Hd]|].
      split; [discriminate|left; reflexivity]. }
  assert (Hdel : forall w2, deletes s w0 w2 -> deletes s w w2).
  { intros w2 [H1 H2]. split; [congruence|]. now rewrite <- Hc, <- Hd. }
  destruct (IsDir f).
  - pose proof (RemoveAll_deletes s w0) as H. pose proof (RemoveAll_gone s w0) as Hg.
    destruct (os.RemoveAll s w0) as [[err|] w2]; cbn [snd] in H; exists w2;
      (split; [now apply Hdel|]).
    + split; [discriminate|left; reflexivity].
    + split; [intros _; split; [now apply Hg|reflexivity]|right; reflexivity].
  - pose proof (Remove_deletes s w0) as H. pose proof (Remove_gone s w0) as Hg.
    destruct (os.Remove s w0) as [[err|] w2]; cbn [snd] in H; exists w2;
      (split; [now apply Hdel|]).
    + split; [discriminate|left; reflexivity].
    + split; [intros _; split; [now apply Hg|reflexivity]|right; reflexivity].
Qed.

Lemma remove_absent paths :
  forall w q,
    tree.exists_ (cwd w) q (disk w) = false ->
    tree.exists_ (cwd (snd (remove paths w))) q (disk (snd (remove paths w))) = false.
Proof.
  induction paths as [|s rest IH]; intros w q Hq; [exact Hq|].
  destruct (remove_next s rest w) as (w1 & Hdel & _ & [-> | ->]).
  - exact (deletes_absent _ _ _ _ Hdel Hq).
  - apply IH. exact (deletes_absent _ _ _ _ Hdel Hq).
Qed.

(** X6.  After a cleanup that returned no error, none of the paths of the
    list names an entry. *)
Theorem remove_leaves_none paths w w' :
  remove paths w = (None, w') ->
  Forall (fun p => tree.exists_ (cwd w') p (disk w') = false) paths.
Proof.
  revert w. induction paths as [|s rest IH]; intros w H; [constructor|].
  destruct (remove_next s rest w) as (w1 & Hdel & Hok & _).
  destruct Hok as [Hgone Hnext]; [now rewrite H|].
  rewrite Hnext in H. constructor; [|now apply (IH w1)].
  pose proof (remove_absent rest w1 s Hgone) as Hs. now rewrite H in Hs.
Qed.

Lemma remove_leaves_none_witness :
  Forall (fun p =>
            tree.exists_
              (cwd (snd (remove ["classes.dex"; "app.apk.unaligned"; "generated_java_sources";
                                 "java_virtual_machine_bytecode"] world_built))) p
              (disk (snd (remove ["classes.dex"; "app.apk.unaligned"; "generated_java_sources";
                                  "java_virtual_machine_bytecode"] world_built))) = false)
         ["classes.dex"; "app.apk.unaligned"; "generated_java_sources";
          "java_virtual_machine_bytecode"].
Proof.
  apply (remove_leaves_none
           ["classes.dex"; "app.apk.unaligned"; "generated_java_sources";
            "java_virtual_machine_bytecode"] world_built).
  vm_compute. reflexivity.
Defined.

Lemma remove_missing paths :
  forall w p,
    In p paths -> tree.exists_ (cwd w) p (disk w) = false ->
    fst (remove paths w) <> None.
Proof.
  induction paths as [|s rest IH]; intros w p Hin Hp; [destruct Hin|].
  destruct Hin as [->|Hin].
  - rewrite remove_cons. destruct (Stat_cases p w) as (r & -> & Hr).
    destruct r as [f|err]; [|discriminate].
    destruct (Hr f eq_refl) as (n & Hn & _).
    unfold tree.exists_ in Hp. now rewrite Hn in Hp.
  - destruct (remove_next s rest w) as (w1 & Hdel & Hok & _).
    intros Hnone. destruct (Hok Hnone) as [_ Hnext].
    rewrite Hnext in Hnone. revert Hnone. apply (IH w1 p Hin).
    exact (deletes_absent _ _ _ _ Hdel Hp).
Qed.

(** X7.  A list in which a path occurs twice cannot be cleaned up: in every
    world [remove] returns an error (at the latest when it comes to the
    second occurrence, which it cannot stat). *)
Theorem remove_twice_fails l1 p l2 l3 w :
  exists e, fst (remove (l1 ++ p :: l2 ++ p :: l3) w) = Some e.
Proof.
  destruct (fst (remove (l1 ++ p :: l2 ++ p :: l3) w)) as [e|] eqn:Hnone;
    [now exists e|exfalso].
  destruct (remove l1 w) as [[e|] w1] eqn:E1.
  - revert Hnone. clear - E1. revert w E1.
    induction l1 as [|s rest IH]; intros w E1; [discriminate|].
    change ((s :: rest) ++ p :: l2 ++ p :: l3)%list
      with (s :: (rest ++ p :: l2 ++ p :: l3))%list.
    rewrite remove_cons in E1 |- *.
    destruct (os.Stat s w) as [[f|err] w0]; [|discriminate].
    destruct (IsDir f).
    + destruct (os.RemoveAll s w0) as [[err|] w2]; [discriminate|]. now apply IH.
    + destruct (os.Remove s w0) as [[err|] w2]; [discriminate|]. now apply IH.
  - rewrite (remove_app l1 _ w w1 E1) in Hnone.
    destruct (remove_next p (l2 ++ p :: l3) w1) as (w2 & _ & Hok & _).
    destruct (Hok Hnone) as [Hgone Hnext]. rewrite Hnext in Hnone.
    revert Hnone. apply (remove_missing _ w2 p); [|exact Hgone].
    apply in_or_app. right. left. reflexivity.
Qed.

(** X8.  Whatever the cleanup returns, a path that is not at or below one
    of the paths of the list names afterwards what it named before:
    nothing, a file or a directory. *)
Theorem remove_leaves_the_rest paths q :
  forall w,
    Forall (fun p => at_or_below (cwd w) p q = false) paths ->
    kind_at (snd (remove paths w)) q = kind_at w q.
Proof.
  induction paths as [|s rest IH]; intros w Hq; [reflexivity|].
  inversion Hq as [|? ? Hs Hrest]; subst.
  destruct (remove_next s rest w) as (w1 & Hdel & _ & Hnext).
  pose proof (deletes_elsewhere _ _ _ _ Hdel Hs) as H1.
  destruct Hnext as [-> | ->]; [exact H1|].
  rewrite IH; [exact H1|]. destruct Hdel as [-> _]. exact Hrest.
Qed.

Lemma remove_leaves_the_rest_witness :
  kind_at (snd (remove ["classes.dex"; "app.apk.unaligned"; "generated_java_sources";
                        "java_virtual_machine_bytecode"] world_built)) "app.apk"
  = kind_at world_built "app.apk".
Proof.
  apply (remove_leaves_the_rest
           ["classes.dex"; "app.apk.unaligned"; "generated_java_sources";
            "java_virtual_machine_bytecode"] "app.apk" world_built).
  repeat constructor.
Defined.

(** ** makeOutputDirs *)


Lemma HasPrefix_app s b sub :
  strings.HasPrefix s sub = true -> strings.HasPrefix (s ++ b) sub = true.
Proof.
  revert s. induction sub as [|c sub IH]; intros s H; [reflexivity|].
  destruct s as [|c' s]; [discriminate|]. cbn in H |- *.
  apply andb_prop in H as [H1 H2]. now rewrite H1, (IH _ H2).
Qed.

Lemma Contains_unfold s sub :
  strings.Contains s sub
  = strings.HasPrefix s sub
    || match s with
       | EmptyString => false
       | String _ r => strings.Contains r sub
       end.
Proof. destruct s; reflexivity. Qed.

Lemma Contains_app_r s b sub :
  strings.Contains s sub = true -> strings.Contains (s ++ b) sub = true.
Proof.
  induction s as [|c s IH]; intros H.
  - rewrite Contains_unfold in H. rewrite orb_false_r in H.
    rewrite Contains_unfold. now rewrite (HasPrefix_app "" b sub H).
  - rewrite Contains_unfold in H. apply orb_prop in H as [H|H].
    + rewrite Contains_unfold. now rewrite (HasPrefix_app _ b sub H).
    + change (String c s ++ b) with (String c (s ++ b)).
      rewrite Contains_unfold. rewrite (IH H). apply orb_true_r.
Qed.

Lemma Contains_app_l a s sub :
  strings.Contains s sub = true -> strings.Contains (a ++ s) sub = true.
Proof.
  intros H. induction a as [|c a IH]; [exact H|].
  change (String c a ++ s) with (String c (a ++ s)).
  rewrite Contains_unfold, IH. apply orb_true_r.
Qed.

Lemma HasPrefix_refl s : strings.HasPrefix s s = true.
Proof. induction s as [|c s IH]; [reflexivity|]. cbn. now rewrite Ascii.eqb_refl. Qed.

Lemma Contains_refl s : strings.Contains s s = true.
Proof. rewrite Contains_unfold. now rewrite HasPrefix_refl. Qed.

(** What [os.Mkdir] does: it fails, with an error that starts with the
    call and the path, and changes nothing; or it makes a directory
    where there was nothing. *)
Lemma Mkdir_cases s w :
  cwd (snd (os.Mkdir s w)) = cwd w /\
  fault (snd (os.Mkdir s w)) = fault w /\
  ((exists x,
       fst (os.Mkdir s w) = Some ("mkdir " ++ s ++ ": " ++ x) /\
       disk (snd (os.Mkdir s w)) = disk w /\
       (fault w (trace w) (SysMkdir s) = None ->
        (x = EEXIST /\ tree.exists_ (cwd w) s (disk w) = true) \/
        (x = ENOENT /\ tree.exists_ (cwd w) s (disk w) = false))) \/
   (fst (os.Mkdir s w) = None /\
    tree.resolve (cwd w) s (disk w) = None /\
    tree.alter (tree.elems (cwd w) s) (Some (Dir [])) (disk w)
    = Some (disk (snd (os.Mkdir s w))))).
Proof.
  unfold os.Mkdir. rewrite bind_unfold, sys_unfold.
  destruct (fault w (trace w) (SysMkdir s)) as [e|].
  { split; [reflexivity|]. split; [reflexivity|]. left. exists e.
    split; [reflexivity|]. split; [reflexivity|discriminate]. }
  unfold tree.exists_.
  destruct (tree.resolve (cwd w) s (disk w)) as [n|] eqn:Er.
  { split; [reflexivity|]. split; [reflexivity|]. left. exists EEXIST.
    split; [reflexivity|]. split; [reflexivity|]. intros _. left. now split. }
  destruct (tree.alter (tree.elems (cwd w) s) (Some (Dir [])) (disk w)) as [d|] eqn:Ea.
  - split; [reflexivity|]. split; [reflexivity|]. right. now repeat split.
  - split; [reflexivity|]. split; [reflexivity|]. left. exists ENOENT.
    split; [reflexivity|]. split; [reflexivity|]. intros _. right. now split.
Qed.

Lemma makeOutputDirs_cons s rest w :
  makeOutputDirs (s :: rest) w =
  match os.Mkdir s w with
  | (Some err, w1) =>
      if negb (strings.Contains err "file exists") then (Some err, w1)
      else makeOutputDirs rest w1
  | (None, w1) => makeOutputDirs rest w1
  end.
Proof.
  cbn [makeOutputDirs]. rewrite bind_unfold.
  destruct (os.Mkdir s w) as [[err|] w1]; [|reflexivity].
  destruct (negb (strings.Contains err "file exists")); reflexivity.
Qed.

(** X9.  [makeOutputDirs] looks for the text "file exists" in the text of
    the error, and the error of [os.Mkdir] holds the path: for paths
    whose names hold that text no error is ever returned, whatever
    happens to the calls. *)
Theorem makeOutputDirs_hides_errors paths :
  forall w,
    Forall (fun p => strings.Contains p "file exists" = true) paths ->
    fst (makeOutputDirs paths w) = None.
Proof.
  induction paths as [|s rest IH]; intros w H; [reflexivity|].
  pose proof (Forall_inv H) as Hs. pose proof (Forall_inv_tail H) as Hrest.
  rewrite makeOutputDirs_cons.
  destruct (Mkdir_cases s w) as (_ & _ & [(x & He & _) | (He & _)]);
    destruct (os.Mkdir s w) as [err w1]; cbn [fst] in He; subst err; [|now apply IH].
  rewrite (Contains_app_l "mkdir " _ _ (Contains_app_r s (": " ++ x) _ Hs)).
  now apply IH.
Qed.

Lemma makeOutputDirs_hides_errors_witness :
  fst (makeOutputDirs ["no file exists here/out"] Sample.world) = None.
Proof.
  apply (makeOutputDirs_hides_errors ["no file exists here/out"] Sample.world).
  repeat constructor.
Defined.

(** X10.  In a world without faults of the environment, when every path of
    the list names an entry already (a directory or anything else, a
    regular file included), [makeOutputDirs] returns nil and the file
    system is as it was. *)
Theorem makeOutputDirs_accepts_existing paths :
  forall w,
    fault_free w ->
    Forall (fun p => tree.exists_ (cwd w) p (disk w) = true) paths ->
    fst (makeOutputDirs paths w) = None /\
    disk (snd (makeOutputDirs paths w)) = disk w /\
    Forall (fun p => kind_at (snd (makeOutputDirs paths w)) p = kind_at w p) paths.
Proof.
  assert (Hgen : forall paths w,
             fault_free w ->
             Forall (fun p => tree.exists_ (cwd w) p (disk w) = true) paths ->
             fst (makeOutputDirs paths w) = None /\
             disk (snd (makeOutputDirs paths w)) = disk w /\
             cwd (snd (makeOutputDirs paths w)) = cwd w).
  { intros l. induction l as [|s rest IH]; intros w Hff H; [now repeat split|].
    pose proof (Forall_inv H) as Hs. pose proof (Forall_inv_tail H) as Hrest.
    rewrite makeOutputDirs_cons.
    destruct (Mkdir_cases s w) as (Hc & Hf & [(x & He & Hd & Hx) | (He & Hr & _)]).
    2:{ unfold tree.exists_ in Hs. now rewrite Hr in Hs. }
    destruct (Hx (Hff _ _)) as [[-> _] | [_ Hno]]; [|congruence].
    destruct (os.Mkdir s w) as [err w1]; cbn [fst snd] in *. subst err.
    rewrite (Contains_app_l "mkdir " _ _
               (Contains_app_l s _ _
                  (Contains_app_l ": " EEXIST "file exists" (Contains_refl EEXIST)))).
    cbn [negb].
    destruct (IH w1) as (H1 & H2 & H3).
    - intros tr c. rewrite Hf. apply Hff.
    - now rewrite Hc, Hd.
    - repeat split; congruence. }
  intros w Hff H. destruct (Hgen paths w Hff H) as (H1 & H2 & H3).
  repeat split; [exact H1|exact H2|].
  apply Forall_forall. intros p _. unfold kind_at. now rewrite H2, H3.
Qed.

Lemma makeOutputDirs_accepts_existing_witness :
  fst (makeOutputDirs ["generated_java_sources"; "classes.dex"] world_built) = None /\
  disk (snd (makeOutputDirs ["generated_java_sources"; "classes.dex"] world_built))
  = disk world_built /\
  Forall (fun p =>
            kind_at (snd (makeOutputDirs ["generated_java_sources"; "classes.dex"] world_built)) p
            = kind_at world_built p)
         ["generated_java_sources"; "classes.dex"].
Proof.
  apply (makeOutputDirs_accepts_existing ["generated_java_sources"; "classes.dex"] world_built).
  - intros tr c. reflexivity.
  - repeat constructor.
Defined.

Lemma HasPrefix_app_inv s c b sub :
  occurs c sub = false ->
  strings.HasPrefix (s ++ String c b) sub = true -> strings.HasPrefix s sub = true.
Proof.
  revert s. induction sub as [|c' sub IH]; intros s Hc H; [reflexivity|].
  cbn in Hc. apply orb_false_elim in Hc as [Hc1 Hc2].
  destruct s as [|c2 s].
  - cbn in H. rewrite Ascii.eqb_sym, Hc1 in H. discriminate.
  - cbn in H |- *. apply andb_prop in H as [H1 H2]. now rewrite H1, (IH _ Hc2 H2).
Qed.

Lemma Contains_app_inv s c b sub :
  occurs c sub = false ->
  strings.Contains (String c b) sub = false ->
  strings.Contains (s ++ String c b) sub = true -> strings.Contains s sub = true.
Proof.
  intros Hc Hb. induction s as [|c' s IH]; intros H.
  - cbn [append] in H. congruence.
  - change (String c' s ++ String c b) with (String c' (s ++ String c b)) in H.
    rewrite Contains_unfold in H. rewrite Contains_unfold.
    apply orb_prop in H as [H|H].
    + now rewrite (HasPrefix_app_inv (String c' s) c b sub Hc H).
    + rewrite (IH H). apply orb_true_r.
Qed.

Lemma Contains_skip c r c0 sub :
  Ascii.eqb c0 c = false ->
  strings.Contains (String c r) (String c0 sub) = strings.Contains r (String c0 sub).
Proof. intros H. rewrite Contains_unfold. cbn [strings.HasPrefix]. now rewrite H. Qed.

(** The text "file exists" is in the error of a [mkdir] that found
    nothing at the path only when it is in the path. *)
Lemma ENOENT_file_exists s :
  strings.Contains ("mkdir " ++ s ++ ": " ++ ENOENT) "file exists" = true ->
  strings.Contains s "file exists" = true.
Proof.
  intros H. apply (Contains_app_inv s ":" (" " ++ ENOENT) "file exists");
    [reflexivity|reflexivity|].
  revert H. cbn [append]. rewrite !Contains_skip by reflexivity. trivial.
Qed.

Lemma leads_to_lookup p :
  forall q d,
    leads_to p q = true ->
    match tree.lookup p d with
    | None => tree.lookup q d = None
    | Some n => exists rest, tree.lookup q d = tree.lookup rest n
    end.
Proof.
  induction p as [|a p IH]; intros q d H.
  - cbn. now exists q.
  - destruct q as [|b q]; [discriminate|]. cbn [leads_to] in H.
    apply andb_prop in H as [Hab H]. apply String.eqb_eq in Hab as <-.
    cbn [tree.lookup]. destruct d as [|es]; [reflexivity|].
    destruct (tree.find_entry a es) as [child|]; [|reflexivity].
    now apply IH.
Qed.

Lemma only_adds_dirs_refl w : only_adds_dirs w w.
Proof. intros q. now left. Qed.

Lemma only_adds_dirs_trans w w1 w2 :
  only_adds_dirs w w1 -> only_adds_dirs w1 w2 -> only_adds_dirs w w2.
Proof.
  intros H1 H2 q. destruct (H1 q) as [E1|[E1 E1']], (H2 q) as [E2|[E2 E2']].
  - left. congruence.
  - right. split; congruence.
  - right. split; congruence.
  - congruence.
Qed.

Lemma Mkdir_only_adds s w : s <> "" -> only_adds_dirs w (snd (os.Mkdir s w)).
Proof.
  intros Hs q. unfold kind_at.
  destruct (Mkdir_cases s w) as (Hc & _ & [(x & _ & Hd & _) | (_ & Hr & Ed)]);
    rewrite Hc; [rewrite Hd; now left|].
  revert Ed. generalize (disk (snd (os.Mkdir s w))). intros d' Ed.
  unfold tree.resolve in Hr |- *.
  destruct (String.eqb_spec s ""); [contradiction|].
  destruct (String.eqb q ""); [now left|].
  destruct (leads_to (tree.elems (cwd w) s) (tree.elems (cwd w) q)) eqn:El.
  - pose proof (leads_to_lookup _ _ (disk w) El) as H0. rewrite Hr in H0.
    pose proof (leads_to_lookup _ _ d' El) as H1.
    rewrite (lookup_alter_Some _ _ _ _ Ed) in H1. destruct H1 as (rest & H1).
    rewrite H0, H1. destruct rest as [|c rest]; [right; now split|now left].
  - left. exact (lookup_alter_elsewhere _ _ _ _ _ Ed El).
Qed.

Lemma makeOutputDirs_adds l :
  forall w, Forall (fun p => p <> "") l -> only_adds_dirs w (snd (makeOutputDirs l w)).
Proof.
  induction l as [|s rest IH]; intros w H; [apply only_adds_dirs_refl|].
  pose proof (Forall_inv H) as Hs. pose proof (Forall_inv_tail H) as Hrest.
  rewrite makeOutputDirs_cons. pose proof (Mkdir_only_adds s w Hs) as H1.
  destruct (os.Mkdir s w) as [[err|] w1]; cbn [snd] in H1.
  - destruct (negb (strings.Contains err "file exists")); [exact H1|].
    exact (only_adds_dirs_trans _ _ _ H1 (IH w1 Hrest)).
  - exact (only_adds_dirs_trans _ _ _ H1 (IH w1 Hrest)).
Qed.

(** X11.  [makeOutputDirs], for paths that are not empty, only makes
    directories where nothing was: whatever it returns, every path
    names afterwards what it named before, except that a path that
    named nothing may name a directory. *)
Theorem makeOutputDirs_only_adds_directories paths w q :
  Forall (fun p => p <> "") paths ->
  kind_at (snd (makeOutputDirs paths w)) q = kind_at w q \/
  (kind_at w q = None /\ kind_at (snd (makeOutputDirs paths w)) q = Some true).
Proof. intros Hp. exact (makeOutputDirs_adds paths w Hp q). Qed.

Lemma makeOutputDirs_only_adds_directories_witness :
  kind_at (snd (makeOutputDirs ["generated_java_sources"; "java_virtual_machine_bytecode"]
                               Sample.world)) "java"
  = kind_at Sample.world "java" \/
  (kind_at Sample.world "java" = None /\
   kind_at (snd (makeOutputDirs ["generated_java_sources"; "java_virtual_machine_bytecode"]
                                Sample.world)) "java" = Some true).
Proof.
  apply (makeOutputDirs_only_adds_directories
           ["generated_java_sources"; "java_virtual_machine_bytecode"] Sample.world "java").
  repeat constructor; discriminate.
Defined.

Lemma exists_kind w q : tree.exists_ (cwd w) q (disk w) = true <-> kind_at w q <> None.
Proof.
  unfold tree.exists_, kind_at, kind.
  destruct (tree.resolve (cwd w) q (disk w)); cbn; split; congruence.
Qed.

Lemma only_adds_dirs_exists w w' q :
  only_adds_dirs w w' ->
  tree.exists_ (cwd w) q (disk w) = true -> tree.exists_ (cwd w') q (disk w') = true.
Proof.
  intros H Hq. apply exists_kind. apply exists_kind in Hq.
  destruct (H q) as [E|[_ E]]; congruence.
Qed.

(** In a world without faults, a [mkdir] that [makeOutputDirs] lets
    pass leaves an entry at the path. *)
Lemma Mkdir_there s w :
  fault_free w -> s <> "" -> strings.Contains s "file exists" = false ->
  match fst (os.Mkdir s w) with
  | Some err => strings.Contains err "file exists" = true
  | None => True
  end ->
  tree.exists_ (cwd (snd (os.Mkdir s w))) s (disk (snd (os.Mkdir s w))) = true.
Proof.
  intros Hff Hs Hname Hok.
  destruct (Mkdir_cases s w) as (Hc & _ & [(x & He & Hd & Hx) | (_ & Hr & Ea)]).
  - rewrite Hc, Hd. destruct (Hx (Hff _ _)) as [[_ H]|[-> _]]; [exact H|].
    rewrite He in Hok. apply ENOENT_file_exists in Hok. congruence.
  - rewrite Hc. unfold tree.exists_, tree.resolve.
    destruct (String.eqb_spec s ""); [contradiction|].
    revert Ea. generalize (disk (snd (os.Mkdir s w))). intros d' Ea.
    now rewrite (lookup_alter_Some _ _ _ _ Ea).
Qed.

(** X12.  In a world without faults of the environment, when
    [makeOutputDirs] returns nil, every path of the list (none of them
    empty, none with the text "file exists" in its name) names an
    entry. *)
Theorem makeOutputDirs_makes_all paths :
  forall w w',
    fault_free w ->
    Forall (fun p => p <> "" /\ strings.Contains p "file exists" = false) paths ->
    makeOutputDirs paths w = (None, w') ->
    Forall (fun p => tree.exists_ (cwd w') p (disk w') = true) paths.
Proof.
  induction paths as [|s rest IH]; intros w w' Hff Hp H; [constructor|].
  pose proof (Forall_inv Hp) as [Hs Hname]. pose proof (Forall_inv_tail Hp) as Hrest.
  assert (Hne : Forall (fun p => p <> "") rest).
  { eapply Forall_impl; [|exact Hrest]. now intros p [Hp1 _]. }
  rewrite makeOutputDirs_cons in H.
  pose proof (Mkdir_there s w Hff Hs Hname) as Hthere.
  destruct (Mkdir_cases s w) as (_ & Hf & _).
  destruct (os.Mkdir s w) as [err w1]; cbn [fst snd] in Hthere, Hf.
  assert (Hff1 : fault_free w1) by (intros tr c; rewrite Hf; apply Hff).
  assert (Hnext : makeOutputDirs rest w1 = (None, w') /\
                  tree.exists_ (cwd w1) s (disk w1) = true).
  { destruct err as [err|]; [|split; [exact H|now apply Hthere]].
    destruct (strings.Contains err "file exists") eqn:Ec; cbn [negb] in H; [|discriminate].
    split; [exact H|now apply Hthere]. }
  destruct Hnext as [Hnext Hs1]. constructor; [|exact (IH w1 w' Hff1 Hrest Hnext)].
  assert (Hadds : only_adds_dirs w1 w').
  { pose proof (makeOutputDirs_adds rest w1 Hne) as Hq. now rewrite Hnext in Hq. }
  exact (only_adds_dirs_exists _ _ _ Hadds Hs1).
Qed.

Lemma makeOutputDirs_makes_all_witness :
  Forall (fun p =>
            tree.exists_
              (cwd (snd (makeOutputDirs ["generated_java_sources"; "java_virtual_machine_bytecode"]
                                        Sample.world))) p
              (disk (snd (makeOutputDirs ["generated_java_sources"; "java_virtual_machine_bytecode"]
                                         Sample.world))) = true)
         ["generated_java_sources"; "java_virtual_machine_bytecode"].
Proof.
  apply (makeOutputDirs_makes_all
           ["generated_java_sources"; "java_virtual_machine_bytecode"] Sample.world).
  - intros tr c. reflexivity.
  - repeat constructor; discriminate.
  - vm_compute. reflexivity.
Defined.

Lemma remove_put_entry c n es :
  tree.find_entry c es = None -> tree.remove_entry c (tree.put_entry c n es) = es.
Proof.
  induction es as [|[k v] rest IH]; cbn; intros H.
  - now rewrite String.eqb_refl.
  - destruct (String.eqb k c) eqn:E; [discriminate|]. cbn. rewrite E. cbn.
    f_equal. now apply IH.
Qed.

Lemma put_put_entry c n n' es :
  tree.find_entry c es = Some n -> tree.put_entry c n (tree.put_entry c n' es) = es.
Proof.
  induction es as [|[k v] rest IH]; cbn; intros H; [discriminate|].
  destruct (String.eqb k c) eqn:E; cbn; rewrite E.
  - now injection H as ->.
  - f_equal. now apply IH.
Qed.

(** Deleting what has just been put where nothing was gives the tree
    back. *)
Lemma alter_undo elems n :
  forall d d1,
    tree.lookup elems d = None ->
    tree.alter elems (Some n) d = Some d1 ->
    tree.alter elems None d1 = Some d.
Proof.
  induction elems as [|c rest IH]; intros d d1 Hnew H.
  - destruct d; discriminate.
  - apply alter_cases in H as (c0 & rest0 & es & [= <- <-] & -> & H).
    cbn [tree.lookup] in Hnew.
    destruct rest as [|c2 rest].
    + subst d1. cbn [tree.alter tree.set_entry].
      rewrite remove_put_entry; [reflexivity|].
      destruct (tree.find_entry c es); [discriminate|reflexivity].
    + destruct H as (child & child' & Hf & Ha & ->). rewrite Hf in Hnew.
      rewrite alter_deeper, find_put_entry, (IH _ _ Hnew Ha).
      now rewrite put_put_entry.
Qed.

Lemma Stat_there p w n :
  fault w (trace w) (SysStat p) = None ->
  tree.resolve (cwd w) p (disk w) = Some n ->
  os.Stat p w
  = (Ok (mkFileInfo (filepath.basename p) (tree.is_dir n)), extend [(SysStat p, None)] w).
Proof.
  intros Hf Hn. unfold os.Stat, os.stat_node, sys_read.
  rewrite bind_unfold, sys_unfold, Hf, Hn. reflexivity.
Qed.

(** X13.  In a world without faults of the environment, a directory that
    [makeOutputDirs] has made where nothing was (its path not empty and
    without the text "file exists") is removed by [remove],
    and the file system is then as it was before the two calls. *)
Theorem makeOutputDirs_then_remove s w w1 :
  fault_free w ->
  s <> "" -> strings.Contains s "file exists" = false ->
  tree.exists_ (cwd w) s (disk w) = false ->
  makeOutputDirs [s] w = (None, w1) ->
  exists w2, remove [s] w1 = (None, w2) /\ disk w2 = disk w.
Proof.
  intros Hff Hs Hname Hnew H.
  rewrite makeOutputDirs_cons in H.
  destruct (Mkdir_cases s w) as (Hc & Hf & [(x & He & Hd & Hx) | (He & Hr & Ea)]).
  { exfalso. destruct (Hx (Hff _ _)) as [[_ Hex]|[-> _]]; [congruence|].
    destruct (os.Mkdir s w) as [err w0]; cbn [fst] in He; subst err.
    destruct (strings.Contains ("mkdir " ++ s ++ ": " ++ ENOENT) "file exists") eqn:Ec.
    - apply ENOENT_file_exists in Ec. congruence.
    - discriminate. }
  destruct (os.Mkdir s w) as [err w0]; cbn [fst snd] in *. subst err.
  cbn [makeOutputDirs ret] in H. injection H as ->.
  assert (Hthere : tree.resolve (cwd w1) s (disk w1) = Some (Dir [])).
  { rewrite Hc. unfold tree.resolve. destruct (String.eqb_spec s ""); [contradiction|].
    exact (lookup_alter_Some _ _ _ _ Ea). }
  assert (Hundo : tree.alter (tree.elems (cwd w1) s) None (disk w1) = Some (disk w)).
  { rewrite Hc. apply (alter_undo _ (Dir [])); [|exact Ea].
    unfold tree.resolve in Hr. now destruct (String.eqb_spec s ""). }
  rewrite remove_cons.
  rewrite (Stat_there s w1 (Dir [])); [|rewrite Hf; apply Hff|exact Hthere].
  cbn [IsDir tree.is_dir].
  unfold os.RemoveAll. rewrite bind_unfold, sys_unfold.
  cbn [fault trace extend cwd disk]. rewrite Hf, Hff, Hthere.
  unfold os.unlink. cbn [cwd disk extend]. rewrite Hundo.
  cbn [fst snd error_of ret remove]. eexists. split; reflexivity.
Qed.

Lemma makeOutputDirs_then_remove_witness :
  exists w2,
    remove ["generated_java_sources"]
           (snd (makeOutputDirs ["generated_java_sources"] Sample.world)) = (None, w2) /\
    disk w2 = disk Sample.world.
Proof.
  apply (makeOutputDirs_then_remove "generated_java_sources" Sample.world
           (snd (makeOutputDirs ["generated_java_sources"] Sample.world))).
  - intros tr c. reflexivity.
  - discriminate.
  - reflexivity.
  - reflexivity.
  - vm_compute. reflexivity.
Defined.

(** X14.  An error of [makeOutputDirs] is the error of one [os.Mkdir], as it
    is, without the text "file exists" in it; the paths before it were
    dealt with without such an error, and the call ends in the world
    that this [os.Mkdir] left, so that no later path is tried. *)
Theorem makeOutputDirs_stops_at_first_error paths :
  forall w e w',
    makeOutputDirs paths w = (Some e, w') ->
    exists l1 p l2 w1,
      paths = (l1 ++ p :: l2)%list /\
      makeOutputDirs l1 w = (None, w1) /\
      os.Mkdir p w1 = (Some e, w') /\
      strings.Contains e "file exists" = false.
Proof.
  induction paths as [|s rest IH]; intros w e w' H; [discriminate|].
  rewrite makeOutputDirs_cons in H.
  destruct (os.Mkdir s w) as [[err|] w0] eqn:Em.
  - destruct (strings.Contains err "file exists") eqn:Ec; cbn [negb] in H.
    + destruct (IH w0 e w' H) as (l1 & p & l2 & w1 & -> & H1 & H2 & H3).
      exists (s :: l1), p, l2, w1. repeat split; auto.
      now rewrite makeOutputDirs_cons, Em, Ec.
    + injection H as <- <-. exists [], s, rest, w. now repeat split.
  - destruct (IH w0 e w' H) as (l1 & p & l2 & w1 & -> & H1 & H2 & H3).
    exists (s :: l1), p, l2, w1. repeat split; auto.
    now rewrite makeOutputDirs_cons, Em.
Qed.

Lemma makeOutputDirs_stops_at_first_error_witness :
  exists l1 p l2 w1,
    ["generated_java_sources"; "missing/out"; "java_virtual_machine_bytecode"]
    = (l1 ++ p :: l2)%list /\
    makeOutputDirs l1 Sample.world = (None, w1) /\
    os.Mkdir p w1
    = (Some "mkdir missing/out: no such file or directory",
       snd (makeOutputDirs ["generated_java_sources"; "missing/out";
                            "java_virtual_machine_bytecode"] Sample.world)) /\
    strings.Contains "mkdir missing/out: no such file or directory" "file exists" = false.
Proof.
  apply (makeOutputDirs_stops_at_first_error
           ["generated_java_sources"; "missing/out"; "java_virtual_machine_bytecode"]
           Sample.world).
  vm_compute. reflexivity.
Defined.

(** ** The resolution of the toolchain *)

Lemma looks_ret {A} P (Q : A -> Prop) a w : Q a -> looks P Q (ret a) w.
Proof. intros H. exists []. rewrite extend_nil. now repeat split. Qed.

Lemma looks_bind {A B} P (Qa : A -> Prop) (Qb : B -> Prop) (c : IO A) (k : A -> IO B) w :
  looks P Qa c w ->
  (forall a w1, Qa a -> looks P Qb (k a) w1) ->
  looks P Qb (bind c k) w.
Proof.
  intros (evs1 & H1 & HP1 & HQ1) Hk. unfold looks. rewrite bind_unfold.
  destruct (c w) as [a w1]. cbn [fst snd] in *. subst w1.
  destruct (Hk a (extend evs1 w) HQ1) as (evs2 & H2 & HP2 & HQ2).
  exists (evs1 ++ evs2)%list. rewrite H2, extend_extend.
  split; [reflexivity|]. split; [now apply Forall_app|exact HQ2].
Qed.

Lemma looks_Abs P p w :
  P SysGetwd = true -> looks P (fun _ => True) (filepath_io.Abs p) w.
Proof.
  intros HP. destruct (Abs_extend p w) as (r & evs & E & Hevs & _).
  exists evs. rewrite E. split; [reflexivity|]. split; [|exact I].
  eapply Forall_impl; [|exact Hevs]. now intros e ->.
Qed.

Lemma looks_Open P p w :
  P (SysOpen p) = true ->
  looks P (fun r => forall d, r = Ok d -> file_Name d = p) (os.Open p) w.
Proof.
  intros HP. unfold os.Open.
  match goal with
  | |- looks _ _ (sys_read ?c ?v) w =>
      destruct (sys_read_cases c v w) as [[e [_ E]]|[_ E]]
  end; exists [(SysOpen p, error_of (fst (os.Open p w)))]; unfold os.Open; rewrite E;
    cbn [fst snd error_of].
  - split; [reflexivity|]. split; [now repeat constructor|]. discriminate.
  - split; [reflexivity|]. split; [now repeat constructor|].
    intros d. destruct (tree.resolve (cwd w) p (disk w)); [|discriminate].
    now intros [= <-].
Qed.

Lemma looks_Readdir P d w :
  P (SysReaddir (file_Name d)) = true -> looks P (fun _ => True) (os.Readdir d) w.
Proof.
  intros HP. unfold os.Readdir.
  match goal with
  | |- looks _ _ (sys_read ?c ?v) w => destruct (sys_read_extend c v w) as [r E]
  end.
  eexists. rewrite E. split; [reflexivity|]. split; [now repeat constructor|exact I].
Qed.

Lemma looks_initBuildTools t w :
  looks (is_resolution_call (sdk t)) (fun r => sdk (fst r) = sdk t) (initBuildTools t) w.
Proof.
  assert (HP1 : is_resolution_call (sdk t) (SysOpen (sdk t ++ "/build-tools")) = true).
  { cbn. now rewrite String.eqb_refl. }
  unfold initBuildTools. cbv zeta.
  eapply looks_bind; [now apply looks_Abs|]. intros [r|e] w1 _; [|now apply looks_ret].
  eapply looks_bind; [now apply looks_Open|]. intros [d|e] w2 Hd; [|now apply looks_ret].
  eapply looks_bind; [apply looks_Readdir; now rewrite (Hd d eq_refl)|].
  intros [ff|e] w3 _; [|now apply looks_ret].
  destruct (Nat.ltb (List.length ff) 1); [now apply looks_ret|].
  eapply looks_bind; [now apply looks_Abs|]. intros [r1|e] w4 _; [|now apply looks_ret].
  eapply looks_bind; [now apply looks_Abs|]. intros [r2|e] w5 _; [|now apply looks_ret].
  eapply looks_bind; [now apply looks_Abs|]. intros [r3|e] w6 _; now apply looks_ret.
Qed.

Lemma looks_initPlatforms t w :
  looks (is_resolution_call (sdk t)) (fun r => sdk (fst r) = sdk t) (initPlatforms t) w.
Proof.
  assert (HP1 : is_resolution_call (sdk t) (SysOpen (sdk t ++ "/platforms")) = true).
  { cbn. rewrite String.eqb_refl. apply orb_true_r. }
  unfold initPlatforms. cbv zeta.
  eapply looks_bind; [now apply looks_Abs|]. intros [r|e] w1 _; [|now apply looks_ret].
  eapply looks_bind; [now apply looks_Open|]. intros [d|e] w2 Hd; [|now apply looks_ret].
  eapply looks_bind; [apply looks_Readdir; now rewrite (Hd d eq_refl)|].
  intros [ff|e] w3 _; [|now apply looks_ret].
  destruct (Nat.ltb (List.length ff) 1); [now apply looks_ret|].
  eapply looks_bind; [now apply looks_Abs|]. intros [r1|e] w4 _; [|now apply looks_ret].
  eapply looks_bind; [now apply looks_Abs|]. intros [r2|e] w5 _; now apply looks_ret.
Qed.

Lemma looks_newToolchain SDKPath w :
  exists root,
    looks (is_resolution_call root) (fun r => sdk (fst r) = root) (newToolchain SDKPath) w.
Proof.
  unfold newToolchain. cbv zeta.
  destruct (Abs_extend SDKPath w) as (r & evs & E & Hevs & _).
  exists (value r). unfold looks. rewrite bind_unfold, E.
  assert (Hg : Forall (fun e => is_resolution_call (value r) (fst e) = true) evs).
  { eapply Forall_impl; [|exact Hevs]. now intros e ->. }
  assert (Hgo : forall c : IO (toolchain * error),
             looks (is_resolution_call (value r)) (fun x => sdk (fst x) = value r) c
                   (extend evs w) ->
             exists evs0,
               snd (c (extend evs w)) = extend evs0 w /\
               Forall (fun e => is_resolution_call (value r) (fst e) = true) evs0 /\
               sdk (fst (fst (c (extend evs w)))) = value r).
  { intros c (evs2 & H2 & HP2 & HQ2). exists (evs ++ evs2)%list.
    rewrite H2, extend_extend. split; [reflexivity|]. split; [now apply Forall_app|exact HQ2]. }
  destruct r as [root|e]; cbn [value] in *.
  2:{ exists evs. now repeat split. }
  apply Hgo.
  eapply looks_bind; [now apply looks_Abs|]. intros [r1|e] w1 _; [|now apply looks_ret].
  eapply looks_bind; [apply (looks_initBuildTools (set_sdk root _))|].
  intros [t [e|]] w2 Ht; cbn [fst set_sdk sdk] in Ht; [now apply looks_ret|].
  eapply looks_bind.
  { pose proof (looks_initPlatforms t w2) as H. rewrite Ht in H. exact H. }
  intros [t' [e|]] w3 Ht'; cbn [fst] in Ht'; now apply looks_ret.
Qed.


(** ** Paths below a path *)









(** X17.  An SDK with build tools and an empty [platforms] directory, in a
    world without faults of the environment: the resolution fails with
    the error that names the [platforms] directory, and the toolchain
    it returns with the error holds the build-tools paths and no
    platform. *)
Theorem empty_platforms_leaves_partial_toolchain SDKPath w root w1 bts :
  filepath.IsAbs (cwd w) = true ->
  fault_free w ->
  filepath_io.Abs SDKPath w = (Ok root, w1) ->
  dir_listing w (root ++ "/build-tools") = Some bts -> bts <> [] ->
  dir_listing w (root ++ "/platforms") = Some [] ->
  exists t w',
    newToolchain SDKPath w
    = ((t, Some ("no contents found in platform dir found under '"
                   ++ (root ++ "/platforms") ++ "'" ++ nl ++ hint SDKPath)), w') /\
    sdk t = root /\
    buildTools t = filepath.Clean (root ++ "/build-tools" ++ "/" ++ last bts "") /\
    aaptBin t = filepath.Clean (buildTools t ++ "/aapt") /\
    dxBin t = filepath.Clean (buildTools t ++ "/dx") /\
    platform t = "" /\
    androidLib t = "".
Proof.
  intros Hcwd Hff HA Hb Hne Hp.
  destruct (newToolchain_rooted SDKPath w root w1 Hcwd HA)
    as (-> & Hroot & evs & -> & Hevs).
  rewrite (initBuildTools_fault_free (mkToolchain root "" "" "" "" "") (extend evs w) bts
             Hroot (fault_free_extend evs w Hff) Hb).
  destruct bts as [|b bts]; [congruence|].
  cbv zeta. cbn [sdk buildTools platform androidLib aaptBin dxBin]. cbv beta iota.
  match goal with
  | |- context [initPlatforms ?t ?w2] =>
      rewrite (initPlatforms_fault_free t w2 [] Hroot
                 (fault_free_extend _ _ (fault_free_extend evs w Hff)) Hp)
  end.
  cbn [sdk]. cbv beta iota.
  eexists _, _. split; [rewrite !string_app_assoc; reflexivity|].
  cbn [sdk buildTools platform androidLib aaptBin dxBin]. now repeat split.
Qed.

Lemma empty_platforms_leaves_partial_toolchain_witness :
  exists t w',
    newToolchain "/sdk" world_no_platforms
    = ((t, Some ("no contents found in platform dir found under '"
                   ++ ("/sdk" ++ "/platforms") ++ "'" ++ nl ++ hint "/sdk")), w') /\
    sdk t = "/sdk" /\
    buildTools t = filepath.Clean ("/sdk" ++ "/build-tools" ++ "/" ++ last ["28.0.3"] "") /\
    aaptBin t = filepath.Clean (buildTools t ++ "/aapt") /\
    dxBin t = filepath.Clean (buildTools t ++ "/dx") /\
    platform t = "" /\
    androidLib t = "".
Proof.
  apply (empty_platforms_leaves_partial_toolchain
           "/sdk" world_no_platforms "/sdk" world_no_platforms ["28.0.3"]).
  - reflexivity.
  - intros tr c. reflexivity.
  - reflexivity.
  - reflexivity.
  - discriminate.
  - reflexivity.
Defined.

(** X18.  A toolchain that the resolution returns without an error, in a
    rooted working directory: its six paths are rooted, and the paths
    of aapt, dx and android.jar are the cleaned paths of these names
    below its build-tools and platform directories. *)
Theorem resolved_toolchain_shape SDKPath w t w' :
  filepath.IsAbs (cwd w) = true ->
  newToolchain SDKPath w = ((t, None), w') ->
  Forall (fun p => filepath.IsAbs p = true)
         [sdk t; buildTools t; platform t; androidLib t; aaptBin t; dxBin t] /\
  aaptBin t = filepath.Clean (buildTools t ++ "/aapt") /\
  dxBin t = filepath.Clean (buildTools t ++ "/dx") /\
  androidLib t = filepath.Clean (platform t ++ "/android.jar").
Proof.
  intros Hcwd H.
  destruct (Abs_extend SDKPath w) as (r & evs & HA & Hevs & Hr).
  destruct r as [root|e].
  2:{ unfold newToolchain in H. rewrite bind_unfold, HA in H. discriminate. }
  destruct (newToolchain_rooted SDKPath w root _ Hcwd HA) as (E & Hroot & _).
  rewrite E in H. clear E.
  rewrite initBuildTools_rooted in H by exact Hroot. cbv zeta in H. cbn [sdk] in H.
  destruct (os.Open (root ++ "/build-tools") (extend evs w)) as [[d|err] w2];
    [|discriminate].
  destruct (os.Readdir d w2) as [[ff|err] w3]; [|discriminate].
  destruct (Nat.ltb (List.length ff) 1); [discriminate|].
  cbn [platform androidLib] in H.
  rewrite initPlatforms_rooted in H by exact Hroot. cbv zeta in H.
  cbn [sdk buildTools aaptBin dxBin] in H.
  destruct (os.Open (root ++ "/platforms") w3) as [[d2|err] w4]; [|discriminate].
  destruct (os.Readdir d2 w4) as [[ff2|err] w5]; [|discriminate].
  destruct (Nat.ltb (List.length ff2) 1); [discriminate|].
  injection H as <- _. cbn [sdk buildTools platform androidLib aaptBin dxBin].
  split; [|now repeat split].
  repeat constructor;
    repeat first [exact Hroot | apply IsAbs_Clean | apply IsAbs_app].
Qed.

Lemma resolved_toolchain_shape_witness :
  Forall (fun p => filepath.IsAbs p = true)
         [sdk sample_toolchain; buildTools sample_toolchain; platform sample_toolchain;
          androidLib sample_toolchain; aaptBin sample_toolchain; dxBin sample_toolchain] /\
  aaptBin sample_toolchain = filepath.Clean (buildTools sample_toolchain ++ "/aapt") /\
  dxBin sample_toolchain = filepath.Clean (buildTools sample_toolchain ++ "/dx") /\
  androidLib sample_toolchain = filepath.Clean (platform sample_toolchain ++ "/android.jar").
Proof.
  apply (resolved_toolchain_shape "/sdk" Sample.world sample_toolchain
           (snd (newToolchain "/sdk" Sample.world))).
  - reflexivity.
  - vm_compute. reflexivity.
Defined.

(** ** The discovery of source files, again *)

Lemma looks_sys_read {A} P c (value : World -> result A) w :
  P c = true -> looks P (fun _ => True) (sys_read c value) w.
Proof.
  intros HP. destruct (sys_read_extend c value w) as [r E].
  eexists. rewrite E. split; [reflexivity|]. split; [now repeat constructor|exact I].
Qed.

Section WalkLooks.

Variable S : Type.
Variable walkFn : string -> option FileInfo -> error -> S -> S * error.

Lemma looks_walk_names path subs :
  Forall (fun s : string * (bool * visitor S) =>
            forall p i a w, looks is_walk_call (fun _ => True) (snd (snd s) p i a) w) subs ->
  forall acc w,
    looks is_walk_call (fun _ => True) (walk_names walkFn path subs acc) w.
Proof.
  induction 1 as [|[name [isdir visit]] subs Hhd _ IH]; intros acc w.
  - now apply looks_ret.
  - cbn [walk_names]. cbn [snd] in Hhd.
    eapply looks_bind; [now apply looks_sys_read|].
    intros [fileInfo|e] w1 _.
    + eapply looks_bind; [apply Hhd|].
      intros [acc' [err|]] w2 _; [now apply looks_ret|apply IH].
    + destruct (walkFn (filepath.Join path name) None (Some e) acc) as [acc' [err|]];
        [now apply looks_ret|apply IH].
Qed.

Lemma looks_readDirNames path names w :
  looks is_walk_call (fun _ => True) (readDirNames path names) w.
Proof.
  unfold readDirNames.
  eapply looks_bind; [now apply looks_sys_read|].
  intros [u|e] w1 _; [|now apply looks_ret].
  eapply looks_bind; [now apply looks_sys_read|].
  intros [l|e] w2 _; now apply looks_ret.
Qed.

Lemma looks_walk n :
  forall path info acc w,
    looks is_walk_call (fun _ => True) (walk walkFn n path info acc) w.
Proof.
  induction n as [|es IH] using node_ind; intros path info acc w.
  - cbn [walk]. now apply looks_ret.
  - rewrite walk_Dir.
    eapply looks_bind; [apply looks_readDirNames|].
    intros names w1 _.
    destruct (walkFn path (Some info) (error_of names) acc) as [acc1 [err1|]];
      [now apply looks_ret|].
    destruct (error_of names); [now apply looks_ret|].
    apply looks_walk_names.
    apply Forall_map. apply Forall_by_name.
    eapply Forall_impl; [|exact IH]. intros e He. cbn [snd]. exact He.
Qed.

Lemma looks_Walk root acc w :
  looks is_walk_call (fun _ => True) (Walk walkFn root acc) w.
Proof.
  unfold Walk, os.stat_node.
  eapply looks_bind; [now apply looks_sys_read|].
  intros [[info n]|e] w1 _; [apply looks_walk|now apply looks_ret].
Qed.

End WalkLooks.

(** The discovery prints its root and then only looks. *)
Lemma findJavaSourceFiles_extend rootDir w :
  exists evs,
    snd (findJavaSourceFiles rootDir w) = extend evs (snd (Println rootDir w)) /\
    Forall (fun e => is_walk_call (fst e) = true) evs.
Proof.
  unfold findJavaSourceFiles. rewrite bind_unfold.
  destruct (Println rootDir w) as [[] w0] eqn:EP.
  assert (Hw0 : w0 = snd (Println rootDir w)) by now rewrite EP.
  rewrite bind_unfold.
  destruct (looks_Walk _ findJavaSourceFiles_walkFn rootDir [] w0) as (evs & E & Hevs & _).
  destruct (Walk findJavaSourceFiles_walkFn rootDir [] w0) as [[paths err] w1].
  cbn [snd] in E. subst w1. exists evs.
  destruct err as [err|]; now split.
Qed.

(** X19.  The discovery of source files only looks: it leaves the file
    system as it is, prints its root on the standard output and nothing
    on the error stream, and every call it makes is an [lstat], an
    [open] or a read of a directory. *)
Theorem file_discovery_only_reads rootDir w :
  disk (snd (findJavaSourceFiles rootDir w)) = disk w /\
  stdout (snd (findJavaSourceFiles rootDir w)) = (stdout w ++ [rootDir])%list /\
  stderr (snd (findJavaSourceFiles rootDir w)) = stderr w /\
  exists evs,
    trace (snd (findJavaSourceFiles rootDir w)) = (trace w ++ evs)%list /\
    Forall (fun e => is_walk_call (fst e) = true) evs.
Proof.
  destruct (findJavaSourceFiles_extend rootDir w) as (evs & -> & Hevs).
  repeat split. now exists evs.
Qed.

(** X20.  The discovery below a root that is a file, in a world without
    faults of the environment: it returns the root itself when the last
    element of the root ends in [.java], and nothing otherwise. *)
Theorem file_discovery_of_a_file rootDir w :
  fault_free w ->
  tree.resolve (cwd w) rootDir (disk w) = Some File ->
  fst (findJavaSourceFiles rootDir w)
  = (if strings.HasSuffix (filepath.basename rootDir) ".java" then [rootDir] else [],
     None).
Proof.
  intros Hff Hr. rewrite (findJavaSourceFiles_fault_free rootDir w File Hff Hr).
  cbn [java_paths]. now rewrite javaFilename_MatchString_suffix.
Qed.

Lemma file_discovery_of_a_file_witness :
  fst (findJavaSourceFiles "src/A.java" world_sources)
  = (if strings.HasSuffix (filepath.basename "src/A.java") ".java" then ["src/A.java"] else [],
     None).
Proof.
  apply (file_discovery_of_a_file "src/A.java" world_sources).
  - intros tr c. reflexivity.
  - reflexivity.
Defined.



(** ** Runs of [main] *)

(** X22.  [main] without the flag [-sdk], when ANDROID_HOME is not set or is
    set and empty: the process exits with status 1 without a single
    call, having printed its first line on the standard output and, on
    the error stream, the message for that case followed by the usage
    text. *)
Theorem missing_sdk_location_stops_at_once args w :
  androidHome args = "" ->
  fst (os.LookupEnv "ANDROID_HOME" w) = None \/
  fst (os.LookupEnv "ANDROID_HOME" w) = Some "" ->
  exists w' usage,
    main args w = (Exit 1, w') /\
    trace w' = trace w /\
    disk w' = disk w /\
    stdout w'
    = (stdout w ++ [("aoeu " ++ javaSourcesFilepath args ++ " "
                       ++ xmlResourcesFilepath args)%string])%list /\
    stderr w'
    = (stderr w ++ [sdk_location_message (fst (os.LookupEnv "ANDROID_HOME" w)); usage])%list /\
    stderr (snd (flag_Usage w)) = (stderr w ++ [usage])%list.
Proof.
  intros Hflag Henv. unfold main. rewrite pbind_lift, Hflag.
  change (String.eqb "" "") with true. cbv iota.
  unfold pbind at 1. unfold pbind at 1. unfold lift at 1.
  change (os.LookupEnv "ANDROID_HOME" (snd (Println _ w)))
    with (fst (os.LookupEnv "ANDROID_HOME" w), snd (Println ("aoeu " ++ javaSourcesFilepath args ++ " " ++ xmlResourcesFilepath args) w)).
  cbv iota.
  destruct Henv as [-> | ->]; cbv iota; [|change (String.eqb "" "") with true; cbv iota].
  all: eexists _, _; split; [reflexivity|]; cbn; rewrite <- ?app_assoc; repeat split.
Qed.

Lemma missing_sdk_location_stops_at_once_witness :
  exists w' usage,
    main no_flags Sample.world = (Exit 1, w') /\
    trace w' = trace Sample.world /\
    disk w' = disk Sample.world /\
    stdout w'
    = (stdout Sample.world
         ++ [("aoeu " ++ javaSourcesFilepath no_flags ++ " "
                ++ xmlResourcesFilepath no_flags)%string])%list /\
    stderr w'
    = (stderr Sample.world
         ++ [sdk_location_message (fst (os.LookupEnv "ANDROID_HOME" Sample.world)); usage])%list /\
    stderr (snd (flag_Usage Sample.world)) = (stderr Sample.world ++ [usage])%list.
Proof.
  apply (missing_sdk_location_stops_at_once no_flags Sample.world).
  - reflexivity.
  - left. reflexivity.
Defined.

(** X23.  [main] without the flag [-sdk] and with ANDROID_HOME set to a
    text that is not empty runs exactly as [main] with that text given
    by the flag. *)
Theorem sdk_from_environment args w home :
  androidHome args = "" ->
  fst (os.LookupEnv "ANDROID_HOME" w) = Some home ->
  home <> "" ->
  main args w = main (with_sdk home args) w.
Proof.
  intros Hflag Henv Hne. unfold main. rewrite !pbind_lift, Hflag.
  unfold with_sdk.
  cbn [androidHome androidManifestFilepath xmlResourcesFilepath javaSourcesFilepath outputDir].
  change (String.eqb "" "") with true. cbv iota.
  assert (Hh : String.eqb home "" = false).
  { destruct (String.eqb_spec home ""); [contradiction|reflexivity]. }
  rewrite Hh.
  unfold pbind at 1. unfold pbind at 1. unfold lift at 1.
  set (w1 := snd (Println ("aoeu " ++ javaSourcesFilepath args ++ " "
                             ++ xmlResourcesFilepath args) w)).
  change (os.LookupEnv "ANDROID_HOME" w1)
    with (fst (os.LookupEnv "ANDROID_HOME" w), w1).
  rewrite Henv. cbv iota. rewrite Hh.
  reflexivity.
Qed.

Lemma sdk_from_environment_witness :
  main no_flags world_android_home = main (with_sdk "/sdk" no_flags) world_android_home.
Proof.
  apply (sdk_from_environment no_flags world_android_home "/sdk").
  - reflexivity.
  - reflexivity.
  - discriminate.
Defined.

Lemma count_ok_execs_app l1 l2 :
  count_ok_execs (l1 ++ l2) = count_ok_execs l1 + count_ok_execs l2.
Proof. unfold count_ok_execs. now rewrite filter_app, length_app. Qed.

Lemma count_ok_execs_none evs :
  Forall (fun e => is_exec (fst e) = false) evs -> count_ok_execs evs = 0.
Proof.
  induction 1 as [|e evs He _ IH]; [reflexivity|].
  unfold count_ok_execs in *. cbn [filter]. now rewrite He.
Qed.

Lemma exec_argvs_app l1 l2 : exec_argvs (l1 ++ l2) = (exec_argvs l1 ++ exec_argvs l2)%list.
Proof. apply flat_map_app. Qed.

Lemma exec_argvs_none evs :
  Forall (fun e => is_exec (fst e) = false) evs -> exec_argvs evs = [].
Proof.
  induction 1 as [|[c e] evs He _ IH]; [reflexivity|].
  cbn [exec_argvs flat_map fst] in *. destruct c; try discriminate; exact IH.
Qed.


Lemma Exists_mkdir_not (evs : list event) :
  Exists (fun e => is_mkdir (fst e) = true) evs ->
  Forall (fun e => is_mkdir (fst e) = false) evs -> False.
Proof.
  intros HE HF. apply Exists_exists in HE as (e & Hin & He).
  rewrite Forall_forall in HF. specialize (HF e Hin). congruence.
Qed.

(** ** Working directory and environment *)


Lemma stable_refl w : stable w w.
Proof. now split. Qed.

Lemma stable_trans w w1 w2 : stable w w1 -> stable w1 w2 -> stable w w2.
Proof. intros [H1 H2] [H3 H4]. split; congruence. Qed.

Lemma stable_extend evs w : stable w (extend evs w).
Proof. now split. Qed.

Lemma keeps_ret {A} (a : A) : keeps (ret a).
Proof. intros w. apply stable_refl. Qed.

Lemma keeps_bind {A B} (c : IO A) (k : A -> IO B) :
  keeps c -> (forall a, keeps (k a)) -> keeps (bind c k).
Proof.
  intros Hc Hk w. rewrite bind_unfold. specialize (Hc w).
  destruct (c w) as [a w1]. eapply stable_trans; [exact Hc|apply Hk].
Qed.

Lemma keeps_sys {A} c (natural : World -> result A * node) : keeps (sys c natural).
Proof.
  intros w. rewrite sys_unfold. destruct (fault w (trace w) c); now split.
Qed.

Lemma keeps_Println s : keeps (Println s).
Proof. intros w. now split. Qed.

Lemma keeps_Getenv key : keeps (os.Getenv key).
Proof. intros w. now split. Qed.

Lemma keeps_run t command : keeps (run t command).
Proof.
  unfold run. cbv zeta. apply keeps_bind.
  - unfold exec.Run. apply keeps_bind; [apply keeps_sys|]. intros; apply keeps_ret.
  - intros [e|]; apply keeps_ret.
Qed.

Lemma keeps_findJavaSourceFiles rootDir : keeps (findJavaSourceFiles rootDir).
Proof.
  intros w. destruct (findJavaSourceFiles_extend rootDir w) as (evs & -> & _). now split.
Qed.

Lemma keeps_compile t src gen out :
  keeps (compileJavaSourceFilesToJavaVirtualMachineBytecode t src gen out).
Proof.
  unfold compileJavaSourceFilesToJavaVirtualMachineBytecode.
  apply keeps_bind; [apply keeps_findJavaSourceFiles|].
  intros [j [e|]]; [apply keeps_ret|].
  apply keeps_bind; [apply keeps_findJavaSourceFiles|].
  intros [jj [e|]]; [apply keeps_ret|]. apply keeps_run.
Qed.

Lemma keeps_sign t apk : keeps (signAndroidApplicationPackageWithDebugKey t apk).
Proof.
  unfold signAndroidApplicationPackageWithDebugKey.
  apply keeps_bind; [apply keeps_Getenv|]. intros home. apply keeps_run.
Qed.

Lemma keeps_makeOutputDirs paths : keeps (makeOutputDirs paths).
Proof.
  induction paths as [|s rest IH]; [apply keeps_ret|].
  cbn [makeOutputDirs]. apply keeps_bind.
  - unfold os.Mkdir. apply keeps_bind; [apply keeps_sys|]. intros; apply keeps_ret.
  - intros [err|]; [|exact IH].
    destruct (negb (strings.Contains err "file exists")); [apply keeps_ret|exact IH].
Qed.

Lemma Getenv_stable key w w' :
  stable w w' -> fst (os.Getenv key w') = fst (os.Getenv key w).
Proof.
  intros [_ H]. unfold os.Getenv, os.LookupEnv, bind, ret. cbn [fst].
  now rewrite H.
Qed.

(** ** Parts of [main] that only look *)


Lemma reads_Println s w : reads (fun _ _ => True) (Println s) w.
Proof.
  exists []. split; [split; [now rewrite app_nil_r | reflexivity]|].
  split; [now split|]. split; [reflexivity|]. split; [constructor|exact I].
Qed.

Lemma reads_Abs p w :
  reads (fun w r => forall q, r = Ok q -> q = abs_path (cwd w) p) (filepath_io.Abs p) w.
Proof.
  unfold reads, filepath_io.Abs, abs_path. destruct (filepath.IsAbs p).
  - exists []. split; [apply grows_refl|]. split; [apply stable_refl|].
    split; [reflexivity|]. split; [constructor|]. now intros q [= <-].
  - rewrite !bind_unfold. unfold os.Getwd.
    destruct (sys_read_cases SysGetwd (fun w => Ok (cwd w)) w)
      as [[e [_ ->]]|[_ ->]]; eexists [_]; cbn [fst snd ret].
    + split; [apply grows_extend|]. split; [apply stable_extend|].
      split; [reflexivity|]. split; [now repeat constructor|]. discriminate.
    + split; [apply grows_extend|]. split; [apply stable_extend|].
      split; [reflexivity|]. split; [now repeat constructor|]. now intros q [= <-].
Qed.

Lemma reads_newToolchain SDKPath w : reads (fun _ _ => True) (newToolchain SDKPath) w.
Proof.
  destruct (looks_newToolchain SDKPath w) as (root & evs & E & Hevs & _).
  exists evs. rewrite E. split; [apply grows_extend|]. split; [apply stable_extend|].
  split; [reflexivity|]. split; [|exact I].
  eapply Forall_impl; [|exact Hevs]. intros [c e] H. cbn [fst] in *.
  destruct c; try discriminate; now split.
Qed.

(** ** The build so far *)


Lemma progress_start w : progress false 0 [] w w.
Proof.
  exists []. split; [apply grows_refl|]. split; [apply stable_refl|].
  repeat split. constructor.
Qed.

Lemma progress_reads w0 w {A} (Q : World -> A -> Prop) (c : IO A) :
  progress false 0 [] w0 w -> reads Q c w ->
  progress false 0 [] w0 (snd (c w)) /\ Q w (fst (c w)) /\
  cwd w = cwd w0 /\ disk w = disk w0.
Proof.
  intros (evs & Hg & Hst & Ha & Hk & Hd & _ & Hm) (evs2 & Hg2 & Hst2 & Hd2 & Hx & HQ).
  split; [|split; [exact HQ|split; [apply Hst|exact Hd]]].
  exists (evs ++ evs2)%list. split; [eapply grows_trans; eauto|].
  split; [eapply stable_trans; eauto|].
  assert (Hx1 : Forall (fun e => is_exec (fst e) = false) evs2).
  { eapply Forall_impl; [|exact Hx]. now intros e [H _]. }
  rewrite exec_argvs_app, count_ok_execs_app, Ha, Hk,
    (exec_argvs_none _ Hx1), (count_ok_execs_none _ Hx1).
  repeat split; [congruence|].
  apply Forall_app. split; [exact Hm|].
  eapply Forall_impl; [|exact Hx]. now intros e [_ H].
Qed.

(** Calls that start no process. *)
Lemma progress_quiet k cmds w0 w w' evs2 :
  progress true k cmds w0 w ->
  grows w w' evs2 -> stable w w' -> Forall (fun e => is_exec (fst e) = false) evs2 ->
  progress true k cmds w0 w'.
Proof.
  intros (evs & Hg & Hst & Ha & Hk & Hm) Hg2 Hst2 Hx.
  exists (evs ++ evs2)%list. split; [eapply grows_trans; eauto|].
  split; [eapply stable_trans; eauto|].
  rewrite exec_argvs_app, count_ok_execs_app, Ha, Hk,
    (exec_argvs_none _ Hx), (count_ok_execs_none _ Hx), app_nil_r.
  repeat split; try lia. apply Exists_app. now left.
Qed.

Lemma progress_mkdir w0 w s rest :
  progress false 0 [] w0 w ->
  progress true 0 [] w0 (snd (makeOutputDirs (s :: rest) w)).
Proof.
  intros (evs & Hg & Hst & Ha & Hk & _).
  destruct (setup_makeOutputDirs (s :: rest) w) as (evs2 & Hg2 & Hx2 & _).
  pose proof (keeps_makeOutputDirs (s :: rest) w) as Hst2.
  exists (evs ++ evs2)%list. split; [eapply grows_trans; eauto|].
  split; [eapply stable_trans; eauto|].
  rewrite exec_argvs_app, count_ok_execs_app, Ha, Hk,
    (exec_argvs_none _ Hx2), (count_ok_execs_none _ Hx2).
  repeat split. apply Exists_app. right.
  (* the first call is the mkdir of the first path *)
  destruct (setup_makeOutputDirs rest (snd (os.Mkdir s w))) as (evs3 & [Ht3 _] & _).
  destruct (Mkdir_grows s w) as [Ht1 _]. destruct Hg2 as [Ht2 _].
  assert (Hfirst : exists more, evs2 = (SysMkdir s, fst (os.Mkdir s w)) :: more).
  { revert Ht2. cbn [makeOutputDirs]. rewrite bind_unfold.
    destruct (os.Mkdir s w) as [[err|] w1]; cbn [fst snd] in *.
    - destruct (negb (strings.Contains err "file exists")); cbn [ret snd].
      + rewrite Ht1. intros H. apply app_inv_head in H. now exists [].
      + rewrite Ht3, Ht1, <- app_assoc. intros H. apply app_inv_head in H. now exists evs3.
    - rewrite Ht3, Ht1, <- app_assoc. intros H. apply app_inv_head in H. now exists evs3. }
  destruct Hfirst as (more & ->). now constructor.
Qed.

Lemma progress_step k cmds w0 w C c :
  progress true k cmds w0 w -> step C c w -> stable w (snd (c w)) ->
  match fst (c w) with
  | None => exists cmd, C cmd /\ progress true (S k) (cmds ++ [cmd]) w0 (snd (c w))
  | Some _ =>
      progress true k cmds w0 (snd (c w)) \/
      exists cmd, C cmd /\ progress true k (cmds ++ [cmd]) w0 (snd (c w))
  end.
Proof.
  intros Hp (evs2 & Hg2 & [(Hx & _ & Hne)|(pre & cmd & e0 & -> & Hx & _ & HC & He)]) Hst2.
  - destruct (fst (c w)); [|congruence].
    left. exact (progress_quiet _ _ _ _ _ _ Hp Hg2 Hst2 Hx).
  - destruct Hp as (evs & Hg & Hst & Ha & Hk & Hm).
    assert (Hgrow : grows w0 (snd (c w)) (evs ++ pre ++ [(SysExec (tokens cmd), e0)])).
    { eapply grows_trans; eauto. }
    assert (Hargv : exec_argvs (evs ++ pre ++ [(SysExec (tokens cmd), e0)])
                    = map tokens (cmds ++ [cmd])).
    { rewrite !exec_argvs_app, Ha, (exec_argvs_none _ Hx), map_app. reflexivity. }
    rewrite He. destruct e0 as [e|]; cbn [option_map].
    + right. exists cmd. split; [exact HC|].
      eexists. split; [exact Hgrow|]. split; [eapply stable_trans; eauto|].
      split; [exact Hargv|].
      rewrite !count_ok_execs_app, Hk, (count_ok_execs_none _ Hx).
      cbn. split; [lia|]. apply Exists_app. now left.
    + exists cmd. split; [exact HC|].
      eexists. split; [exact Hgrow|]. split; [eapply stable_trans; eauto|].
      split; [exact Hargv|].
      rewrite !count_ok_execs_app, Hk, (count_ok_execs_none _ Hx).
      cbn. split; [lia|]. apply Exists_app. now left.
Qed.

Lemma progress_exit args dirs k cmds w0 w w' lines t files n :
  progress dirs k cmds w0 w ->
  cmds = firstn n (pipeline_of args w0 t files) -> n <= 7 -> k < 7 ->
  (n <> 0 -> resolved args w0 t) ->
  trace w' = trace w -> disk w' = disk w ->
  stderr w' = (stderr w ++ lines)%list -> lines <> [] ->
  finished args w0 (Exit 1) w'.
Proof.
  intros (evs & [Ht Hs] & Hst & Ha & Hk & Hm) Hc Hn7 Hk7 Hres Ht' Hd' Hs' Hl.
  exists evs, t, files, n. split; [congruence|]. split; [now rewrite Ha, Hc|].
  split; [exact Hn7|]. split; [exact Hres|]. split; [reflexivity|]. split; [lia|].
  split; [exists lines; split; [exact Hl|congruence]|].
  intros Hnm. destruct dirs.
  - exfalso. exact (Exists_mkdir_not _ Hm Hnm).
  - destruct Hm as (Hd & -> & _). split; [congruence|].
    destruct n; [reflexivity|discriminate].
Qed.

Lemma progress_return args cmds w0 w w' evs2 t files :
  progress true 7 cmds w0 w ->
  cmds = pipeline_of args w0 t files ->
  resolved args w0 t ->
  grows w w' evs2 -> Forall (fun e => is_exec (fst e) = false) evs2 ->
  finished args w0 (Return tt) w'.
Proof.
  intros (evs & [Ht Hs] & Hst & Ha & Hk & Hm) Hc Hres [Ht2 Hs2] Hx.
  exists (evs ++ evs2)%list, t, files, 7.
  split; [now rewrite Ht2, Ht, app_assoc|].
  rewrite exec_argvs_app, count_ok_execs_app, Ha, Hk,
    (exec_argvs_none _ Hx), (count_ok_execs_none _ Hx), app_nil_r.
  split; [now rewrite Hc|]. split; [lia|]. split; [now intros _|].
  repeat split; try congruence; try lia. apply Exists_app. now left.
Qed.

Lemma progress_stable dirs k cmds w0 w : progress dirs k cmds w0 w -> stable w0 w.
Proof. now intros (evs & _ & H & _). Qed.

Ltac exit_at H n t :=
  rewrite pbind_exit_on_Some;
  first
    [ match goal with
      | f : list string |- _ =>
          eapply (progress_exit _ _ _ _ _ _ _ [_] t f n H);
          [ reflexivity | lia | lia | first [assumption | now intros Hn0]
          | reflexivity | reflexivity | reflexivity | discriminate ]
      end
    | eapply (progress_exit _ _ _ _ _ _ _ [_] t [] n H);
      [ reflexivity | lia | lia | first [assumption | now intros Hn0]
      | reflexivity | reflexivity | reflexivity | discriminate ] ].

Tactic Notation "main_reads" uconstr(lem) constr(t) "as" simple_intropattern(pat) :=
  rewrite pbind_lift;
  match goal with
  | Hinv : progress false 0 [] ?w0 ?w |- context [snd (?c ?w)] =>
      let Hnext := fresh "Hnext" in
      let HQ := fresh "HQ" in
      let Hcwd := fresh "Hcwd" in
      let Hdisk := fresh "Hdisk" in
      let Erun := fresh "Erun" in
      destruct (progress_reads w0 w _ c Hinv lem) as (Hnext & HQ & Hcwd & Hdisk);
      clear Hinv;
      let a := fresh "a" in
      let w1 := fresh "w" in
      destruct (c w) as [a w1] eqn:Erun; cbn [fst snd] in Hnext, HQ |- *;
      destruct a as pat; cbn [error_of snd] in Hnext |- *;
      first [ exit_at Hnext 0 t | rewrite pbind_exit_on_None | idtac ]
  end.

Tactic Notation "main_runs" uconstr(lem) uconstr(stab) constr(n) constr(t)
       "as" simple_intropattern(pat) :=
  rewrite pbind_lift;
  match goal with
  | Hinv : progress true ?k ?cmds ?w0 ?w |- context [snd (?c ?w)] =>
      let Hnext := fresh "Hnext" in
      let Hst := fresh "Hst" in
      pose proof (progress_stable _ _ _ _ _ Hinv) as Hst;
      pose proof (progress_step k cmds w0 w _ c Hinv lem stab) as Hnext;
      clear Hinv;
      let err := fresh "err" in
      let w1 := fresh "w" in
      destruct (c w) as [err w1]; cbn [fst snd] in Hnext |- *;
      let cmd := fresh "cmd" in
      let Hc := fresh "Hc" in
      destruct err as [err|];
      [ destruct Hnext as [Hnext|(cmd & Hc & Hnext)];
        [ exit_at Hnext n t
        | cbv beta in Hc; revert Hc; intros pat; cbn [app] in Hnext;
          rewrite ?(Getenv_stable _ _ _ Hst) in Hnext;
          exit_at Hnext (S n) t ]
      | destruct Hnext as (cmd & Hc & Hnext);
        cbv beta in Hc; revert Hc; intros pat; cbn [app] in Hnext;
        rewrite ?(Getenv_stable _ _ _ Hst) in Hnext;
        rewrite pbind_exit_on_None; clear Hst ]
  end.

Lemma step_compile_files t javaSources generated out w :
  step (fun cmd =>
          exists files,
            cmd = "javac -classpath " ++ androidLib t
                    ++ " -sourcepath " ++ (javaSources ++ ":" ++ generated)
                    ++ " -d " ++ out
                    ++ " -target 1.8 -source 1.8 " ++ strings.Join files " ")
       (compileJavaSourceFilesToJavaVirtualMachineBytecode t javaSources generated out) w.
Proof.
  unfold compileJavaSourceFilesToJavaVirtualMachineBytecode.
  eapply (step_bind snd); [apply setup_findJavaSourceFiles| |].
  - intros [j [e|]] w1 _ He; [discriminate|]. cbv beta iota.
    eapply (step_bind snd); [apply setup_findJavaSourceFiles| |].
    + intros [jj [e|]] w2 _ He'; [discriminate|]. cbv beta iota zeta.
      eapply step_weaken; [|apply step_run].
      intros cmd ->. now exists (j ++ jj)%list.
    + intros [jj [e|]] He'; [|exfalso; now apply He']. eexists; reflexivity.
  - intros [j [e|]] He; [|exfalso; now apply He]. eexists; reflexivity.
Qed.

Lemma step_sign_home t apk w :
  step (fun cmd =>
          cmd = "jarsigner -keystore " ++ fst (os.Getenv "HOME" w)
                  ++ "/.android/debug.keystore -storepass android "
                  ++ apk ++ " androiddebugkey")
       (signAndroidApplicationPackageWithDebugKey t apk) w.
Proof.
  unfold signAndroidApplicationPackageWithDebugKey.
  eapply (step_bind (fun _ => None)); [apply setup_Getenv| |congruence].
  intros home w1 E _. eapply step_weaken; [|apply step_run].
  intros cmd ->. now rewrite E.
Qed.

Lemma LookupEnv_stable key w w' :
  stable w w' -> fst (os.LookupEnv key w') = fst (os.LookupEnv key w).
Proof. intros [_ H]. unfold os.LookupEnv. cbn [fst]. now rewrite H. Qed.

Lemma main_finished_from w0 args w :
  progress false 0 [] w0 w -> finished args w0 (fst (main args w)) (snd (main args w)).
Proof.
  intros Hinv. unfold main.
  main_reads (reads_Println _ _) no_toolchain as [].
  clear HQ Hcwd Hdisk Erun.
  match goal with
  | |- context [pbind (if ?b then ?x else ?y) ?K ?w1] =>
      assert (HK : forall w2,
                 progress false 0 [] w0 w2 ->
                 finished args w0 (fst (K (sdk_location args w0) w2))
                          (snd (K (sdk_location args w0) w2)))
  end.
  { clear. intros w Hinv. cbv beta.
    main_reads (reads_Abs _ _) no_toolchain as [manifest|e].
    rewrite (HQ manifest eq_refl), Hcwd. clear HQ Hcwd Hdisk Erun manifest.
    cbv zeta. cbn [value].
    main_reads (reads_Abs _ _) no_toolchain as [out|e].
    rewrite (HQ out eq_refl), Hcwd. clear HQ Hcwd Hdisk Erun out.
    cbv zeta. cbn [value].
    main_reads (reads_newToolchain _ _) no_toolchain as [t [e|]].
    assert (Hres : resolved args w0 t).
    { match type of Erun with
      | newToolchain _ ?wt = _ => exists wt
      end.
      split; [exact Hcwd|]. split; [exact Hdisk|]. now rewrite Erun. }
    clear HQ Hcwd Hdisk Erun. cbv zeta.
    rewrite pbind_lift.
    match goal with
    | Hinv : progress false 0 [] ?w0 ?w |- context [snd (makeOutputDirs (?s :: ?rest) ?w)] =>
        pose proof (progress_mkdir w0 w s rest Hinv) as Hdirs; clear Hinv;
        destruct (makeOutputDirs (s :: rest) w) as [[e|] wd]; cbn [fst snd] in Hdirs |- *;
        [exit_at Hdirs 0 t | rewrite pbind_exit_on_None]
    end.
    main_runs (step_run _ _ _) (keeps_run _ _ _) 0 t as ->.
    main_runs (step_compile_files _ _ _ _ _) (keeps_compile _ _ _ _ _) 1 t as (files & ->).
    main_runs (step_run _ _ _) (keeps_run _ _ _) 2 t as ->.
    main_runs (step_run _ _ _) (keeps_run _ _ _) 3 t as ->.
    main_runs (step_run _ _ _) (keeps_run _ _ _) 4 t as ->.
    main_runs (step_sign_home _ _ _) (keeps_sign _ _ _) 5 t as ->.
    main_runs (step_run _ _ _) (keeps_run _ _ _) 6 t as ->.
    rewrite pbind_lift. cbv [pret fst snd].
    match goal with
    | H : progress true 7 _ _ ?w |- context [remove ?l ?w] =>
        destruct (setup_remove l w) as (evs & Hg & Hx & _);
        exact (progress_return args _ _ _ _ _ t files H eq_refl Hres Hg Hx)
    end. }
  assert (Hexit : forall (c : Proc string) K w' lines,
             c w1 = (Exit 1, w') -> trace w' = trace w1 -> disk w' = disk w1 ->
             stderr w' = (stderr w1 ++ lines)%list -> lines <> [] ->
             finished args w0 (fst (pbind c K w1)) (snd (pbind (B := unit) c K w1))).
  { intros c K w' lines Hc Ht Hd Hs Hl. unfold pbind. rewrite Hc. cbn [fst snd].
    apply (progress_exit args _ _ _ _ _ _ lines no_toolchain [] 0 Hnext); auto; try lia. }
  assert (Hgo : forall (c : Proc string) K,
             c w1 = (Return (sdk_location args w0), w1) ->
             (forall w2, progress false 0 [] w0 w2 ->
                         finished args w0 (fst (K (sdk_location args w0) w2))
                                  (snd (K (sdk_location args w0) w2))) ->
             finished args w0 (fst (pbind c K w1)) (snd (pbind (B := unit) c K w1))).
  { intros c K Hc HK'. unfold pbind. rewrite Hc. now apply HK'. }
  pose proof (LookupEnv_stable "ANDROID_HOME" _ _ (progress_stable _ _ _ _ _ Hnext)) as Henv.
  unfold sdk_location in *.
  destruct (String.eqb (androidHome args) "").
  - destruct (os.LookupEnv "ANDROID_HOME" w1) as [v w1'] eqn:Ev.
    assert (w1' = w1) by (unfold os.LookupEnv in Ev; now injection Ev). subst w1'.
    cbn [fst] in Henv. rewrite <- Henv in *.
    destruct v as [home|].
    + destruct (String.eqb home "") eqn:Eh.
      * eapply (Hexit _ _ _ [_; _]).
        -- unfold pbind at 1. unfold lift at 1. rewrite Ev, Eh. reflexivity.
        -- reflexivity.
        -- reflexivity.
        -- cbn. now rewrite <- app_assoc.
        -- discriminate.
      * eapply Hgo; [|apply HK].
        unfold pbind at 1. unfold lift at 1. rewrite Ev, Eh. reflexivity.
    + eapply (Hexit _ _ _ [_; _]).
      * unfold pbind at 1. unfold lift at 1. rewrite Ev. reflexivity.
      * reflexivity.
      * reflexivity.
      * cbn. now rewrite <- app_assoc.
      * discriminate.
  - eapply Hgo; [reflexivity | apply HK].
Qed.

Lemma main_finished args w : finished args w (fst (main args w)) (snd (main args w)).
Proof. apply main_finished_from, progress_start. Qed.



(** X26.  In every run of [main] the child processes that are started are,
    in this order, the first [n] steps of the pipeline: aapt to
    generate R.java, javac, dx, aapt to package, aapt to add the
    bytecode, jarsigner, zipalign, each with the command line that
    [pipeline] gives for one toolchain, the manifest and the output
    directory made absolute in the working directory of the start, the
    resource and source directories as given, the value of [HOME] at
    the start, and one list of source files; [n] is 7 when [main]
    returns.  When a child process is started at all, the toolchain is
    one that [newToolchain] returns without error for the SDK location
    of the run (the flag, or [ANDROID_HOME] when the flag is empty), on
    the file system and in the working directory of the start. *)
Theorem pipeline_order args w :
  exists evs t files n,
    trace (snd (main args w)) = (trace w ++ evs)%list /\
    exec_argvs evs = map tokens (firstn n (pipeline_of args w t files)) /\
    n <= 7 /\
    (n <> 0 -> resolved args w t) /\
    (fst (main args w) = Return tt -> n = 7).
Proof.
  destruct (main_finished args w) as (evs & t & files & n & Ht & Ha & Hn & Hres & H).
  exists evs, t, files, n. repeat split; auto.
  intros Hr. rewrite Hr in H. now destruct H as (_ & _ & H & _).
Qed.

Example pipeline_sample :
  fst (main Sample.args Sample.world) = Return tt /\
  exec_argvs (trace (snd (main Sample.args Sample.world)))
  = [["/sdk/build-tools/30.0.1/aapt"; "package"; "-f"; "-m";
      "-J"; "/work/generated_java_sources"; "-M"; "/work/AndroidManifest.xml";
      "-S"; "xml"; "-I"; "/sdk/platforms/android-29/android.jar"];
     ["javac"; "-classpath"; "/sdk/platforms/android-29/android.jar";
      "-sourcepath"; "java:generated_java_sources";
      "-d"; "java_virtual_machine_bytecode"; "-target"; "1.8"; "-source"; "1.8";
      "java/A.java"; "java/sub/C.java"; "generated_java_sources/R.java"];
     ["/sdk/build-tools/30.0.1/dx"; "--dex"; "--min-sdk-version=26";
      "--output"; "classes.dex"; "java_virtual_machine_bytecode"];
     ["/sdk/build-tools/30.0.1/aapt"; "package"; "-f"; "-M"; "/work/AndroidManifest.xml";
      "-S"; "xml"; "-I"; "/sdk/platforms/android-29/android.jar";
      "-F"; "app.apk.unaligned"];
     ["/sdk/build-tools/30.0.1/aapt"; "add"; "app.apk.unaligned"; "classes.dex"];
     ["jarsigner"; "-keystore"; "/home/.android/debug.keystore";
      "-storepass"; "android"; "app.apk.unaligned"; "androiddebugkey"];
     ["/sdk/build-tools/30.0.1/zipalign"; "-f"; "4"; "app.apk.unaligned"; "app.apk"]].
Proof. split; vm_compute; reflexivity. Qed.
